(** * Architecture-Diagram-Generator: the density normalizer, the grid layout,
      the draw.io serializer and the text front end, embedded from
      [app/dsl_render_validation.py], [app/dsl_to_drawio.py], [app/dsl.py]
      and [app/text_to_dsl.py].

    Conventions of the embedding.
    - A graph payload is the [dict] the extraction stage hands to the core.
      Its entries are records; a field the code reads with [.get] is an
      [option] ([None]: the key is missing), a field read with [[...]]
      (every [id]) is mandatory.  The four collections the normalizer reads
      with [dsl.get(k, [])] are [option]s of lists.
    - Python [str] is [string] (bytes; case folding and whitespace are the
      ASCII ones), Python [int] is [Z], [len] is [Z.of_nat (length _)].
    - [dict] and [set] objects whose iteration order is never observed are
      [gmap] and [gset]; [node_by_id], whose key order feeds the flow
      synthesis, and [nodes_per_zone] are insertion-ordered association lists.
    - Exceptions are the [Raise] results of [result].  The [logger] calls of
      [validate_and_prepare_dsl] append to a log that is returned next to the
      value; the one warning of [dsl_to_drawio] (a skipped flow) is not
      recorded.
    - The node loop of [validate_and_prepare_dsl] assigns to the node objects
      of the caller.  The embedding returns, next to the result, the
      caller's payload as it stands after the call.  The node objects of a
      payload are taken to be different objects, as they are in a payload
      decoded from JSON.
    - The [while] loops run on fuel; [expand_no_timeout] and
      [validate_no_timeout] show that the fuel they are given is enough.
    - Floats occur in the layout as [0.0] plus [int]s; they are kept as
      integers tagged as floats, and [math.ceil(a / b)] and
      [int(a / b)] are the integer ceiling and floor.
    - A [dict] is read in two ways: by the schema as a JSON value, and by the
      core as a payload record; [json_of_DSL] gives the JSON value of a
      payload.  The stub generator builds a payload.
    - [text_to_dsl] takes the [json] module, the environment and the two
      calls of the language model as parameters; the calls themselves,
      [get_json_schema] and the routes of [app/main.py] are not embedded. *)

From Stdlib Require Import ZArith Ascii Lia.
From stdpp Require Import gmap strings list pretty.

Local Open Scope Z_scope.
Set Warnings "-register-all,-clear-no-such-hyp".

(* ------------------------------------------------------------------------- *)
(** ** Python runtime pieces                                                  *)
(* ------------------------------------------------------------------------- *)

Inductive exn :=
  | ZeroDivisionError
  | IndexError
  | KeyError (key : string)
  | ValueError (msg : string)
  | AssertionError (msg : string).

(** [Timeout] is the embedding's own outcome of a [while] loop that was given
    too little fuel; [while_enough_fuel] shows how much is enough. *)
Inductive result (A : Type) :=
  | Ok (a : A)
  | Raise (e : exn)
  | Timeout.
Arguments Ok {A} a.
Arguments Raise {A} e.
Arguments Timeout {A}.

#[global] Instance result_bind : MBind result := fun A B k r =>
  match r with
  | Ok a => k a
  | Raise e => Raise e
  | Timeout => Timeout
  end.

#[global] Instance result_ret : MRet result := fun A a => Ok a.

(** [while cond: body] over a loop state. *)
Fixpoint while {S : Type} (fuel : nat) (cond : S -> bool)
    (body : S -> result S) (s : S) : result S :=
  if cond s then
    match fuel with
    | O => Timeout
    | S fuel' => s' ← body s; while fuel' cond body s'
    end
  else Ok s.

(** [for x in xs: body] with a body that may raise. *)
Fixpoint for_each {S X : Type} (body : S -> X -> result S) (xs : list X)
    (s : S) : result S :=
  match xs with
  | [] => Ok s
  | x :: xs' => s' ← body s x; for_each body xs' s'
  end.

Definition len {A} (l : list A) : Z := Z.of_nat (length l).

(** [sorted(xs, key=k)]: Python's sort is stable, so is this insertion sort;
    every stable sort returns the same list. *)
Fixpoint insert_by {A} (k : A -> Z) (x : A) (l : list A) : list A :=
  match l with
  | [] => [x]
  | y :: l' => if k x <=? k y then x :: l else y :: insert_by k x l'
  end.

Definition sorted {A} (l : list A) (key : A -> Z) : list A :=
  foldr (insert_by key) [] l.

(** Insertion-ordered [dict] with [str] keys: assigning to a present key keeps
    its position, a new key goes last. *)
Module odict.
Definition t (V : Type) := list (string * V).

Fixpoint set {V} (k : string) (v : V) (d : t V) : t V :=
  match d with
  | [] => [(k, v)]
  | (k', v') :: d' =>
      if bool_decide (k' = k) then (k, v) :: d' else (k', v') :: set k v d'
  end.

Fixpoint get {V} (k : string) (d : t V) : option V :=
  match d with
  | [] => None
  | (k', v') :: d' => if bool_decide (k' = k) then Some v' else get k d'
  end.

Definition keys {V} (d : t V) : list string := map fst d.

(** [{key(x): val(x) for x in xs}] *)
Definition comprehension {X V} (key : X -> string) (val : X -> V)
    (xs : list X) : t V :=
  fold_left (fun d x => set (key x) (val x) d) xs [].
End odict.

(** *** [str] methods and the two regular expressions of the normalizer *)

Definition code (c : ascii) : N := N_of_ascii c.

Definition is_upper (c : ascii) : bool :=
  (65 <=? code c)%N && (code c <=? 90)%N.

Definition is_lower_alnum (c : ascii) : bool :=
  ((97 <=? code c)%N && (code c <=? 122)%N)
  || ((48 <=? code c)%N && (code c <=? 57)%N).

Definition lower_char (c : ascii) : ascii :=
  if is_upper c then ascii_of_N (code c + 32) else c.

Fixpoint lower (s : string) : string :=
  match s with
  | EmptyString => EmptyString
  | String c s' => String (lower_char c) (lower s')
  end.

Fixpoint lstrip_by (p : ascii -> bool) (s : string) : string :=
  match s with
  | EmptyString => EmptyString
  | String c s' => if p c then lstrip_by p s' else s
  end.

Fixpoint rstrip_by (p : ascii -> bool) (s : string) : string :=
  match s with
  | EmptyString => EmptyString
  | String c s' =>
      match rstrip_by p s' with
      | EmptyString => if p c then EmptyString else String c EmptyString
      | r => String c r
      end
  end.

Definition strip_by (p : ascii -> bool) (s : string) : string :=
  rstrip_by p (lstrip_by p s).

(** [s.strip()] *)
Definition strip : string -> string := strip_by Ascii.is_space.

Definition is_underscore (c : ascii) : bool := bool_decide (c = "_"%char).

(** [re.sub(r"[^a-z0-9]+", "_", s)]; [in_run] says that the previous
    character was already part of the run being replaced. *)
Fixpoint sub_non_alnum (in_run : bool) (s : string) : string :=
  match s with
  | EmptyString => EmptyString
  | String c s' =>
      if is_lower_alnum c then String c (sub_non_alnum false s')
      else if in_run then sub_non_alnum true s'
      else String "_" (sub_non_alnum true s')
  end.

(** [re.sub(r"_+", "_", s)] *)
Fixpoint sub_underscores (in_run : bool) (s : string) : string :=
  match s with
  | EmptyString => EmptyString
  | String c s' =>
      if is_underscore c then
        if in_run then sub_underscores true s'
        else String "_" (sub_underscores true s')
      else String c (sub_underscores false s')
  end.

(** [x or d] on strings: the empty string is falsy. *)
Definition str_or (s d : string) : string :=
  match s with EmptyString => d | _ => s end.

(** [o or d] where [o] comes from a [.get]: [None] and the empty string are
    falsy. *)
Definition get_or (o : option string) (d : string) : string :=
  match o with Some s => str_or s d | None => d end.

(** [%s] and [{...}] of a value that may be [None]. *)
Definition show (o : option string) : string := default "None" o.

(** [sep.join(xs)] *)
Fixpoint join (sep : string) (xs : list string) : string :=
  match xs with
  | [] => ""
  | [x] => x
  | x :: xs' => x +:+ sep +:+ join sep xs'
  end.

(* ------------------------------------------------------------------------- *)
(** ** Data model: the entries of the payload                                 *)
(* ------------------------------------------------------------------------- *)

Record Zone := {
  zone_id : string;
  zone_name : option string;
  zone_order : option Z;
  zone_color : option string }.

Record TrustBoundary := {
  tb_id : string;
  tb_label : option string;
  tb_between_zones : option (list string) }.

Record Node := {
  node_id : string;
  node_label : option string;
  node_zone : option string;
  node_type : option string;
  node_tags : list string }.

Record Group := {
  group_id : string;
  group_label : string;
  group_zone : string;
  group_children : list string }.

Record Flow := {
  flow_id : option string;
  flow_source : option string;
  flow_target : option string;
  flow_type : option string;
  flow_protocol : option string;
  flow_auth : option string;
  flow_data_class : option string;
  flow_label : option string }.

Record Control := {
  control_id : string;
  control_scope : list string;
  control_type : string }.

Record DSL := {
  dsl_title : option string;
  dsl_zones : option (list Zone);
  dsl_trust_boundaries : option (list TrustBoundary);
  dsl_groups : option (list Group);
  dsl_nodes : option (list Node);
  dsl_flows : option (list Flow);
  dsl_controls : option (list Control) }.

(** [{**z, "id": new_id}] *)
Definition zone_with_id (z : Zone) (new_id : string) : Zone :=
  {| zone_id := new_id; zone_name := zone_name z;
     zone_order := zone_order z; zone_color := zone_color z |}.

(** [n["zone"] = v] *)
Definition node_set_zone (n : Node) (v : string) : Node :=
  {| node_id := node_id n; node_label := node_label n; node_zone := Some v;
     node_type := node_type n; node_tags := node_tags n |}.

(** [{**dsl, "zones": zs, "nodes": ns, "flows": fs,
      "trust_boundaries": tbs}] *)
Definition dsl_with (dsl : DSL) (zs : list Zone) (ns : list Node)
    (fs : list Flow) (tbs : list TrustBoundary) : DSL :=
  {| dsl_title := dsl_title dsl; dsl_zones := Some zs;
     dsl_trust_boundaries := Some tbs; dsl_groups := dsl_groups dsl;
     dsl_nodes := Some ns; dsl_flows := Some fs;
     dsl_controls := dsl_controls dsl |}.

(** The payload after the node objects of its [nodes] list were assigned to:
    the list object and its position in the payload stay, a payload without
    the key has no node object to assign to. *)
Definition dsl_nodes_assigned (dsl : DSL) (ns : list Node) : DSL :=
  {| dsl_title := dsl_title dsl; dsl_zones := dsl_zones dsl;
     dsl_trust_boundaries := dsl_trust_boundaries dsl;
     dsl_groups := dsl_groups dsl;
     dsl_nodes := match dsl_nodes dsl with Some _ => Some ns | None => None end;
     dsl_flows := dsl_flows dsl; dsl_controls := dsl_controls dsl |}.

(** [_ensure_list(dsl.get(k, []))] on a collection of the payload *)
Definition _ensure_list {A} (o : option (list A)) : list A := default [] o.

(** [z.get("order", 0)] *)
Definition order_key (z : Zone) : Z := default 0 (zone_order z).

(* ------------------------------------------------------------------------- *)
(** ** [dsl_render_validation.py]                                             *)
(* ------------------------------------------------------------------------- *)

Definition MIN_ZONES : Z := 5.
Definition MIN_NODES : Z := 25.
Definition MIN_FLOWS : Z := 20.
Definition MIN_NODES_HARD : Z := 1.

Definition ZONE_ALIASES : gmap string string :=
  list_to_map [
    ("dmz_zone", "dmz");
    ("dmz", "dmz");
    ("internet", "internet");
    ("external", "internet");
    ("perimeter", "dmz");
    ("internal", "internal");
    ("on_prem", "on_prem");
    ("on-prem", "on_prem");
    ("onprem", "on_prem");
    ("cloud", "cloud");
    ("tenant", "tenant");
    ("data", "data");
    ("data_layer", "data");
    ("identity", "identity");
    ("vendor", "vendor") ].

Definition _normalize_zone_id (raw : string) : string :=
  let s := lower (strip raw) in
  let s := sub_non_alnum false s in
  let s := strip_by is_underscore (sub_underscores false s) in
  str_or s "zone".

Definition _canonical_zone_id (raw : string) : string :=
  let normalized := _normalize_zone_id raw in
  default normalized (ZONE_ALIASES !! normalized).

(** *** [_expand_dsl_to_density] *)

Record zone_loop_state := {
  zl_zones : list Zone;
  zl_trust_boundaries : list TrustBoundary;
  zl_zone_id_set : gset string;
  zl_next_z : Z }.

Record node_loop_state := {
  nl_nodes : list Node;
  nl_node_id_set : gset string;
  nl_node_by_id : odict.t Node;
  nl_next_n : Z }.

Record flow_loop_state := {
  fl_flows : list Flow;
  fl_next_f : Z }.

(** [xs[i]] for [0 <= i] *)
Definition item {A} (xs : list A) (i : Z) : result A :=
  match xs !! Z.to_nat i with
  | Some x => Ok x
  | None => Raise IndexError
  end.

(** [a % b] *)
Definition py_mod (a b : Z) : result Z :=
  if b =? 0 then Raise ZeroDivisionError else Ok (a mod b).

Definition zone_loop_body (st : zone_loop_state) : result zone_loop_state :=
  let zones := zl_zones st in
  let next_z := zl_next_z st in
  let zid := "zone_" +:+ pretty next_z in
  let zones := zones ++
    [ {| zone_id := zid;
         zone_name := Some ("Zone " +:+ pretty (next_z + 1));
         zone_order := Some next_z;
         zone_color := Some "#e1d5e7" |} ] in
  let zone_id_set := {[ zid ]} ∪ zl_zone_id_set st in
  trust_boundaries ←
    (if 2 <=? len zones then
       prev ← item zones (len zones - 2);
       Ok (zl_trust_boundaries st ++
            [ {| tb_id := "tb_" +:+ pretty next_z;
                 tb_label :=
                   Some ("TB" +:+ pretty (len (zl_trust_boundaries st) + 1));
                 tb_between_zones := Some [zone_id prev; zid] |} ])
     else Ok (zl_trust_boundaries st));
  Ok {| zl_zones := zones; zl_trust_boundaries := trust_boundaries;
        zl_zone_id_set := zone_id_set; zl_next_z := next_z + 1 |}.

Definition node_loop_body (zone_order : list Zone) (st : node_loop_state)
    : result node_loop_state :=
  let next_n := nl_next_n st in
  i ← py_mod next_n (len zone_order);
  z ← item zone_order i;
  let nid := "node_" +:+ pretty next_n in
  let new_node := {| node_id := nid;
                     node_label := Some ("Component " +:+ pretty (next_n + 1));
                     node_zone := Some (zone_id z);
                     node_type := Some "service";
                     node_tags := [] |} in
  Ok {| nl_nodes := nl_nodes st ++ [new_node];
        nl_node_id_set := {[ nid ]} ∪ nl_node_id_set st;
        nl_node_by_id := odict.set nid new_node (nl_node_by_id st);
        nl_next_n := next_n + 1 |}.

Definition flow_loop_body (node_list : list string) (st : flow_loop_state)
    : result flow_loop_state :=
  let next_f := fl_next_f st in
  i ← py_mod next_f (len node_list - 1);
  src ← item node_list i;
  tgt ← item node_list (i + 1);
  Ok {| fl_flows := fl_flows st ++
          [ {| flow_id := Some ("flow_" +:+ pretty next_f);
               flow_source := Some src;
               flow_target := Some tgt;
               flow_type := Some "api";
               flow_protocol := Some "HTTPS";
               flow_auth := Some "";
               flow_data_class := Some "";
               flow_label := None |} ];
        fl_next_f := next_f + 1 |}.

(** Iterations a loop that appends one entry per round needs to take a
    collection of [n] entries to [goal]. *)
Definition rounds (goal n : Z) : nat := Z.to_nat (goal - n).

Definition _expand_dsl_to_density (dsl : DSL) (zone_ids : list string)
    (node_by_id : odict.t Node) (min_zones min_nodes min_flows : Z)
    : result DSL :=
  let zones := default [] (dsl_zones dsl) in
  let nodes := default [] (dsl_nodes dsl) in
  let flows := default [] (dsl_flows dsl) in
  let trust_boundaries := default [] (dsl_trust_boundaries dsl) in
  let zone_id_set : gset string := list_to_set (map zone_id zones) in
  let node_id_set : gset string := list_to_set (map node_id nodes) in
  (* Add zones until we have min_zones *)
  zst ← while (rounds min_zones (len zones))
           (fun st => len (zl_zones st) <? min_zones)
           zone_loop_body
           {| zl_zones := zones; zl_trust_boundaries := trust_boundaries;
              zl_zone_id_set := zone_id_set; zl_next_z := len zones |};
  let zones := zl_zones zst in
  let trust_boundaries := zl_trust_boundaries zst in
  (* Add nodes until we have min_nodes (spread across zones) *)
  let zone_order := sorted zones order_key in
  nst ← while (rounds min_nodes (len nodes))
           (fun st => len (nl_nodes st) <? min_nodes)
           (node_loop_body zone_order)
           {| nl_nodes := nodes; nl_node_id_set := node_id_set;
              nl_node_by_id := node_by_id; nl_next_n := len nodes |};
  let nodes := nl_nodes nst in
  (* Add flows until we have min_flows (between consecutive nodes) *)
  let node_list := odict.keys (nl_node_by_id nst) in
  fst_ ← while (rounds min_flows (len flows))
           (fun st => (len (fl_flows st) <? min_flows)
                      && (2 <=? len node_list))
           (flow_loop_body node_list)
           {| fl_flows := flows; fl_next_f := len flows |};
  let flows := fl_flows fst_ in
  Ok (dsl_with dsl zones nodes flows trust_boundaries).

(** *** [validate_and_prepare_dsl] *)

Inductive level := WARNING | INFO.

(** What a call leaves behind: the value returned or the exception raised,
    the records handed to [logger], and the caller's payload object as it
    stands after the call. *)
Record outcome (A : Type) := {
  returned : result A;
  logged : list (level * string);
  caller_dsl : DSL }.
Arguments returned {A} _.
Arguments logged {A} _.
Arguments caller_dsl {A} _.

(** [not xs] *)
Definition is_nil {A} (xs : list A) : bool :=
  match xs with [] => true | _ => false end.

(** One round of the loop that renames the zones; the state is
    [(zone_id_map, seen_canonical, new_zones)]. *)
Definition rename_zone
    (st : gmap string string * gmap string Z * list Zone) (z : Zone)
    : gmap string string * gmap string Z * list Zone :=
  let '(zone_id_map, seen_canonical, new_zones) := st in
  let c := _canonical_zone_id (zone_id z) in
  let '(seen_canonical, new_id) :=
    match seen_canonical !! c with
    | Some k => (<[c := k + 1]> seen_canonical, c +:+ "_" +:+ pretty (k + 1))
    | None => (<[c := 0]> seen_canonical, c)
    end in
  (<[zone_id z := new_id]> zone_id_map, seen_canonical,
   new_zones ++ [zone_with_id z new_id]).

(** One round of the loop over the nodes: the node object is assigned its
    remapped zone, and reported when that zone does not exist.  The state is
    the node objects visited so far, as they now stand, and [errors]. *)
Definition remap_node (zone_id_map : gmap string string)
    (zone_ids : gset string) (st : list Node * list string) (n : Node)
    : list Node * list string :=
  let '(visited, errors) := st in
  let zid := get_or (node_zone n) "" in
  let v := default zid (zone_id_map !! zid) in
  let n := node_set_zone n v in
  let errors :=
    if bool_decide (v ∈ zone_ids) then errors
    else errors ++ ["Node '" +:+ node_id n +:+ "' references invalid zone '"
                      +:+ v +:+ "'."] in
  (visited ++ [n], errors).

(** [x not in ids] for an [x] that comes from a [.get] *)
Definition missing_from (ids : gset string) (x : option string) : bool :=
  match x with
  | Some s => negb (bool_decide (s ∈ ids))
  | None => true
  end.

Definition flow_warnings (valid_node_ids : gset string) (f : Flow)
    : list (level * string) :=
  (if missing_from valid_node_ids (flow_source f) then
     [(WARNING, "Flow " +:+ show (flow_id f)
                 +:+ " references non-existent source node "
                 +:+ show (flow_source f))]
   else [])
  ++
  (if missing_from valid_node_ids (flow_target f) then
     [(WARNING, "Flow " +:+ show (flow_id f)
                 +:+ " references non-existent target node "
                 +:+ show (flow_target f))]
   else []).

Definition empty_zone_warnings (zones : list Zone) (nodes : list Node)
    : list (level * string) :=
  let nodes_per_zone : odict.t Z :=
    odict.comprehension zone_id (fun _ => 0) zones in
  let nodes_per_zone :=
    fold_left
      (fun d n =>
         let zid := default "" (node_zone n) in
         odict.set zid (default 0 (odict.get zid d) + 1) d)
      nodes nodes_per_zone in
  flat_map
    (fun '(zid, count) =>
       if count =? 0 then [(WARNING, "Zone '" +:+ zid +:+ "' has zero nodes.")]
       else [])
    nodes_per_zone.

Definition validate_and_prepare_dsl (dsl : DSL)
    (min_zones min_nodes min_flows min_nodes_hard : Z)
    (expand_to_meet_density : bool) : outcome (option DSL * list string) :=
  let errors : list string := [] in
  let zones := sorted (_ensure_list (dsl_zones dsl)) order_key in
  let nodes := _ensure_list (dsl_nodes dsl) in
  let flows := _ensure_list (dsl_flows dsl) in
  let trust_boundaries := _ensure_list (dsl_trust_boundaries dsl) in
  if is_nil zones && negb expand_to_meet_density then
    {| returned := Ok (None, errors ++ ["At least one zone is required."]);
       logged := []; caller_dsl := dsl |}
  else if is_nil zones && expand_to_meet_density then
    (* Expand from empty: add placeholder zones/nodes/flows *)
    {| returned :=
         dsl ← _expand_dsl_to_density (dsl_with dsl [] [] [] []) [] []
                  min_zones min_nodes min_flows;
         Ok (Some dsl, []);
       logged := []; caller_dsl := dsl |}
  else
    (* Normalize zone IDs; map aliases to canonical; ensure uniqueness *)
    let '(zone_id_map, seen_canonical, new_zones) :=
      fold_left rename_zone zones (∅, ∅, []) in
    let zones := new_zones in
    let zone_ids : gset string := list_to_set (map zone_id zones) in
    let '(nodes, errors) :=
      fold_left (remap_node zone_id_map zone_ids) nodes ([], errors) in
    let caller := dsl_nodes_assigned dsl nodes in
    if negb (is_nil errors) then
      {| returned := Ok (None, errors); logged := []; caller_dsl := caller |}
    else if len nodes <? min_nodes_hard then
      {| returned :=
           Ok (None, errors ++
                 ["At least " +:+ pretty min_nodes_hard
                    +:+ " node(s) are required (found "
                    +:+ pretty (len nodes) +:+ ")."]);
         logged := []; caller_dsl := caller |}
    else
      let valid_node_ids : gset string := list_to_set (map node_id nodes) in
      let log := flat_map (flow_warnings valid_node_ids) flows in
      let log := log ++ empty_zone_warnings zones nodes in
      if expand_to_meet_density
         && ((len zones <? min_zones) || (len nodes <? min_nodes)
             || (len flows <? min_flows)) then
        match _expand_dsl_to_density
                (dsl_with dsl zones nodes flows trust_boundaries)
                (map zone_id zones)
                (odict.comprehension node_id id nodes)
                min_zones min_nodes min_flows with
        | Ok dsl =>
            {| returned := Ok (Some dsl, []);
               logged := log ++
                 [(INFO, "DSL expanded to meet density: zones="
                           +:+ pretty (len (_ensure_list (dsl_zones dsl)))
                           +:+ ", nodes="
                           +:+ pretty (len (_ensure_list (dsl_nodes dsl)))
                           +:+ ", flows="
                           +:+ pretty (len (_ensure_list (dsl_flows dsl))))];
               caller_dsl := caller |}
        | Raise e =>
            {| returned := Raise e; logged := log; caller_dsl := caller |}
        | Timeout =>
            {| returned := Timeout; logged := log; caller_dsl := caller |}
        end
      else
        {| returned :=
             Ok (Some (dsl_with dsl zones nodes flows trust_boundaries), []);
           logged := log; caller_dsl := caller |}.

(* ------------------------------------------------------------------------- *)
(** ** More of [str]: searching, slicing                                      *)
(* ------------------------------------------------------------------------- *)

(** [s.startswith(p)] *)
Fixpoint starts_with (p s : string) : bool :=
  match p, s with
  | EmptyString, _ => true
  | String a p', String b s' => Ascii.eqb a b && starts_with p' s'
  | String _ _, EmptyString => false
  end.

Fixpoint drop_str (n : nat) (s : string) : string :=
  match n, s with
  | O, _ => s
  | S n', String _ s' => drop_str n' s'
  | S _, EmptyString => EmptyString
  end.

Fixpoint take_str (n : nat) (s : string) : string :=
  match n, s with
  | O, _ => EmptyString
  | S n', String c s' => String c (take_str n' s')
  | S _, EmptyString => EmptyString
  end.

(** [s.count(sub)] for a non-empty [sub]: occurrences are counted left to
    right without overlap; [skip] characters of the last match are still to
    be passed over. *)
Fixpoint count_from (sub : string) (skip : nat) (s : string) : Z :=
  match s with
  | EmptyString => 0
  | String _ s' =>
      match skip with
      | S k => count_from sub k s'
      | O =>
          if starts_with sub s
          then 1 + count_from sub (String.length sub - 1) s'
          else count_from sub 0 s'
      end
  end.

Definition str_count (s sub : string) : Z := count_from sub 0 s.

(** [s.find(sub)]: offset of the first occurrence *)
Fixpoint str_find (s sub : string) : option Z :=
  if starts_with sub s then Some 0
  else match s with
       | EmptyString => None
       | String _ s' => (fun i => i + 1) <$> str_find s' sub
       end.

(** [s.index(sub, start)] *)
Definition str_index (s sub : string) (start : Z) : result Z :=
  match str_find (drop_str (Z.to_nat start) s) sub with
  | Some i => Ok (start + i)
  | None => Raise (ValueError "substring not found")
  end.

(** [sub in s] *)
Definition str_contains (s sub : string) : bool :=
  bool_decide (is_Some (str_find s sub)).

(** [s.replace(c, r)] for a one-character [c] *)
Fixpoint replace_char (c : ascii) (r : string) (s : string) : string :=
  match s with
  | EmptyString => EmptyString
  | String a s' =>
      if Ascii.eqb a c then r +:+ replace_char c r s'
      else String a (replace_char c r s')
  end.

Definition dquote : string := String "034" EmptyString.
Definition newline : string := String "010" EmptyString.

(* ------------------------------------------------------------------------- *)
(** ** [xml.etree.ElementTree]: elements and [tostring]                       *)
(* ------------------------------------------------------------------------- *)

(** An element with its attributes in insertion order and its children; the
    code sets neither text nor tail. *)
Inductive Element :=
  | Elem (tag : string) (attrib : list (string * string))
         (children : list Element).

Definition _escape_attrib (text : string) : string :=
  let text := replace_char "&" "&amp;" text in
  let text := replace_char "<" "&lt;" text in
  let text := replace_char ">" "&gt;" text in
  let text := replace_char "034" "&quot;" text in
  let text := replace_char "013" "&#13;" text in
  let text := replace_char "010" "&#10;" text in
  let text := replace_char "009" "&#09;" text in
  text.

Definition write_attrib (kv : string * string) : string :=
  " " +:+ kv.1 +:+ "=" +:+ dquote +:+ _escape_attrib kv.2 +:+ dquote.

Definition concat_str (xs : list string) : string :=
  foldr String.app "" xs.

Fixpoint _serialize_xml (elem : Element) : string :=
  match elem with
  | Elem tag attrib children =>
      "<" +:+ tag +:+ concat_str (map write_attrib attrib) +:+
      (if is_nil children then " />"
       else ">" +:+ concat_str (map _serialize_xml children)
                +:+ "</" +:+ tag +:+ ">")
  end.

(** [ET.tostring(e, encoding="unicode", default_namespace="", method="xml")]:
    no declaration is written for the [unicode] encoding, and no element of
    the tree has a namespace. *)
Definition tostring (e : Element) : string := _serialize_xml e.

(* ------------------------------------------------------------------------- *)
(** ** [dsl_to_drawio.py]                                                     *)
(* ------------------------------------------------------------------------- *)

Definition CANVAS_WIDTH : Z := 1400.
Definition ZONE_HEADER_HEIGHT : Z := 32.
Definition NODE_W : Z := 160.
Definition NODE_H : Z := 60.
Definition GAP_X : Z := 40.
Definition GAP_Y : Z := 40.
Definition PADDING : Z := 40.
Definition TB_HEIGHT : Z := 24.
Definition LEGEND_HEIGHT : Z := 160.
Definition LEGEND_WIDTH : Z := 400.

Definition STYLE_APP : string :=
  "rounded=1;whiteSpace=wrap;html=1;fillColor=#d5e8d4;strokeColor=#82b366;strokeWidth=1;".
Definition STYLE_SERVICE : string :=
  "rounded=1;whiteSpace=wrap;html=1;fillColor=#d5e8d4;strokeColor=#82b366;strokeWidth=1;".
Definition STYLE_API : string :=
  "shape=hexagon;perimeter=hexagonPerimeter2;whiteSpace=wrap;html=1;fillColor=#dae8fc;strokeColor=#6c8ebf;strokeWidth=1;".
Definition STYLE_DATA_STORE : string :=
  "shape=cylinder3;whiteSpace=wrap;html=1;boundedLbl=1;backgroundOutline=1;size=15;fillColor=#fff2cc;strokeColor=#d6b656;strokeWidth=1;".
Definition STYLE_IDENTITY : string :=
  "shape=ellipse;whiteSpace=wrap;html=1;fillColor=#e1d5e7;strokeColor=#9673a6;strokeWidth=1;".
Definition STYLE_SECURITY : string :=
  "shape=shield;whiteSpace=wrap;html=1;fillColor=#f8cecc;strokeColor=#b85450;strokeWidth=2;".
Definition STYLE_VENDOR : string :=
  "rounded=1;whiteSpace=wrap;html=1;fillColor=#f5f5f5;strokeColor=#666666;dashed=1;strokeWidth=1;".
Definition STYLE_EXTERNAL : string :=
  "rounded=1;whiteSpace=wrap;html=1;fillColor=#f5f5f5;strokeColor=#666666;dashed=1;strokeWidth=1;".
Definition STYLE_EDGE_SOLID : string :=
  "endArrow=block;html=1;rounded=0;curved=0;orthogonalLoop=1;exitX=1;exitY=0.5;exitDx=0;exitDy=0;entryX=0;entryY=0.5;entryDx=0;entryDy=0;strokeColor=#6c8ebf;strokeWidth=2;".
Definition STYLE_EDGE_DASHED : string :=
  "endArrow=block;html=1;rounded=0;dashed=1;curved=0;orthogonalLoop=1;exitX=1;exitY=0.5;exitDx=0;exitDy=0;entryX=0;entryY=0.5;entryDx=0;entryDy=0;strokeColor=#999999;strokeWidth=1;".
Definition STYLE_TB : string :=
  "shape=rect;fillColor=none;strokeColor=#b85450;strokeWidth=2;dashed=1;html=1;".
Definition STYLE_LEGEND : string :=
  "rounded=0;whiteSpace=wrap;html=1;fillColor=#f5f5f5;strokeColor=#666666;align=left;verticalAlign=top;spacingLeft=8;spacingTop=6;fontSize=11;".

Definition _node_style (node_type : string) : string :=
  let m : gmap string string :=
    list_to_map [
      ("app", STYLE_APP);
      ("service", STYLE_SERVICE);
      ("api", STYLE_API);
      ("data_store", STYLE_DATA_STORE);
      ("identity", STYLE_IDENTITY);
      ("security_control", STYLE_SECURITY);
      ("vendor", STYLE_VENDOR);
      ("external", STYLE_EXTERNAL) ] in
  default STYLE_APP (m !! node_type).

Definition _flow_style (flow_type : string) : string :=
  if bool_decide (flow_type ∈ ["log"; "telemetry"]) then STYLE_EDGE_DASHED
  else STYLE_EDGE_SOLID.

Definition _flow_label (f : Flow) : string :=
  match flow_label f with
  | Some (String c l) => String c l
  | _ =>
      let parts := [get_or (flow_protocol f) ""; get_or (flow_auth f) "";
                    get_or (flow_data_class f) ""] in
      str_or (strip (join " | "
                (filter (fun p => p ≠ "") parts))) " "
  end.

(** The numbers the layout formats into attributes: [int]s, and [float]s
    that arise from [y_cursor = 0.0] by adding [int]s, so are integral. *)
Inductive num :=
  | Int (z : Z)
  | Float (z : Z).

Definition num_val (n : num) : Z := match n with Int z | Float z => z end.

Definition num_add (a b : num) : num :=
  match a, b with
  | Int x, Int y => Int (x + y)
  | _, _ => Float (num_val a + num_val b)
  end.

(** [f"{n}"]; the [repr] of an integral float below [1e16] is its digits
    followed by [.0] *)
Definition fmt (n : num) : string :=
  match n with
  | Int z => pretty z
  | Float z => pretty z +:+ ".0"
  end.

(** [_next_id(prefix, counter)]: the new id and the counter after the call *)
Definition _next_id (prefix : string) (counter : Z) : string * Z :=
  (prefix +:+ pretty counter, counter + 1).

(** [_add_cell]: the [mxCell] that is appended to [root] *)
Definition _add_cell (cell_id parent_id : string) (value style : string)
    (vertex edge : bool) (x y width height : num) (relative : string)
    (source target : option string) : Element :=
  let attrib := [("id", cell_id); ("parent", parent_id)] in
  let attrib := if is_nil (String.list_ascii_of_string value) then attrib
                else attrib ++ [("value", value)] in
  let attrib := if is_nil (String.list_ascii_of_string style) then attrib
                else attrib ++ [("style", style)] in
  let attrib := if vertex then attrib ++ [("vertex", "1")] else attrib in
  let attrib := if edge then attrib ++ [("edge", "1")] else attrib in
  let geom := Elem "mxGeometry"
                [("x", fmt x); ("y", fmt y); ("width", fmt width);
                 ("height", fmt height); ("relative", relative);
                 ("as", "geometry")] [] in
  let attrib := match source with
                | Some s => attrib ++ [("source", s)]
                | None => attrib
                end in
  let attrib := match target with
                | Some t => attrib ++ [("target", t)]
                | None => attrib
                end in
  Elem "mxCell" attrib [geom].

(** [d[k]] *)
Definition getitem {V} (d : gmap string V) (k : string) : result V :=
  match d !! k with
  | Some v => Ok v
  | None => Raise (KeyError k)
  end.

(** [enumerate(xs)] *)
Definition enumerate {A} (xs : list A) : list (Z * A) :=
  imap (fun i x => (Z.of_nat i, x)) xs.

(** [math.ceil(a / b)] for [0 <= a] and [0 < b]; the float quotient of two
    list lengths is close enough to the rational one for the ceilings to
    agree. *)
Definition ceil_div (a b : Z) : Z := - ((- a) / b).

(** [assert c, msg] *)
Definition assert (c : bool) (msg : string) : result unit :=
  if c then Ok () else Raise (AssertionError msg).

Definition zone_width : Z := CANVAS_WIDTH.
Definition content_width : Z := zone_width - 2 * PADDING.
(** [max(1, int((content_width + GAP_X) / (NODE_W + GAP_X)))]: [int]
    truncates the float quotient [6.8] *)
Definition cols_max : Z :=
  Z.max 1 ((content_width + GAP_X) / (NODE_W + GAP_X)).

(** The loop that fills [nodes_in_zone] *)
Definition group_nodes (nodes : list Node) : gmap string (list Node) :=
  fold_left
    (fun nodes_in_zone n =>
       let zid := get_or (node_zone n) "" in
       <[zid := default [] (nodes_in_zone !! zid) ++ [n]]> nodes_in_zone)
    nodes ∅.

(** One round of the loop that fills [zone_heights] *)
Definition zone_height_body (nodes_in_zone : gmap string (list Node))
    (zone_heights : gmap string Z) (z : Zone) : gmap string Z :=
  let zid := zone_id z in
  let n_list := default [] (nodes_in_zone !! zid) in
  let n_count := len n_list in
  let rows := if n_count =? 0 then 1 else ceil_div n_count cols_max in
  let required_content_h := PADDING + rows * (NODE_H + GAP_Y) in
  <[zid := ZONE_HEADER_HEIGHT + required_content_h]> zone_heights.

Definition geometry : Type := num * num * num * num.

(** One round of the loop that fills [zone_geometry]; the state is
    [(y_cursor, zone_geometry)]. *)
Definition zone_geometry_body (zone_heights : gmap string Z)
    (st : num * gmap string geometry) (z : Zone)
    : result (num * gmap string geometry) :=
  let '(y_cursor, zone_geometry) := st in
  let zid := zone_id z in
  h ← getitem zone_heights zid;
  Ok (num_add y_cursor (Int h),
      <[zid := (Int 0, y_cursor, Int zone_width, Int h)]> zone_geometry).

(** The cells appended to [root] so far, the id counter [ctr[0]], and the
    map from entity ids to cell ids that the loop at hand fills. *)
Record cells_state := {
  ctr : Z;
  cells : list Element;
  cell_ids : gmap string string }.

Definition zone_cell_body (zone_geometry : gmap string geometry)
    (st : cells_state) (z : Zone) : result cells_state :=
  let zid := zone_id z in
  '(x, y, w, h) ← getitem zone_geometry zid;
  let '(cell_id, ctr) := _next_id "zone-" (ctr st) in
  let zone_cell_ids := <[zid := cell_id]> (cell_ids st) in
  let fill := strip (get_or (zone_color z) "#dae8fc") in
  let style := "swimlane;horizontal=1;startSize=" +:+ pretty ZONE_HEADER_HEIGHT
                 +:+ ";fillColor=" +:+ fill
                 +:+ ";strokeColor=#6c8ebf;fontStyle=1;fontSize=12;"
                 +:+ "whiteSpace=wrap;html=1;" in
  Ok {| ctr := ctr;
        cells := cells st ++
          [_add_cell cell_id "1" (get_or (zone_name z) zid) style true false
             x y w h "0" None None];
        cell_ids := zone_cell_ids |}.

(** Column count of a zone with [n_list] *)
Definition zone_cols {A} (n_list : list A) : Z :=
  Z.max 1 (if is_nil n_list then 1 else Z.min cols_max (len n_list)).

(** Grid position of the [i]-th node of a zone laid out in [cols] columns *)
Definition node_xy (cols i : Z) : Z * Z :=
  let col := i mod cols in
  let row := i / cols in
  (PADDING + col * (NODE_W + GAP_X), PADDING + row * (NODE_H + GAP_Y)).

(** The two layout assertions of the node loop *)
Definition in_bounds (x y zone_content_w zone_content_h : Z) : result unit :=
  assert ((0 <=? x) && (0 <=? y)) "node x,y must be >= 0";;
  assert ((x + NODE_W <=? zone_content_w) && (y + NODE_H <=? zone_content_h))
    "node must be inside zone".

Definition node_cell_body (parent_id : string)
    (cols zone_content_w zone_content_h : Z)
    (st : cells_state) (ix : Z * Node) : result cells_state :=
  let '(i, n) := ix in
  let '(x, y) := node_xy cols i in
  (* Layout assertion: in bounds *)
  in_bounds x y zone_content_w zone_content_h;;
  let '(cell_id, ctr) := _next_id "node-" (ctr st) in
  let node_cell_ids := <[node_id n := cell_id]> (cell_ids st) in
  let style := _node_style (default "app" (node_type n)) in
  Ok {| ctr := ctr;
        cells := cells st ++
          [_add_cell cell_id parent_id (default (node_id n) (node_label n))
             style true false (Int x) (Int y) (Int NODE_W) (Int NODE_H) "1"
             None None];
        cell_ids := node_cell_ids |}.

Definition zone_nodes_body (zone_cell_ids : gmap string string)
    (zone_geometry : gmap string geometry)
    (nodes_in_zone : gmap string (list Node))
    (st : cells_state) (z : Zone) : result cells_state :=
  let zid := zone_id z in
  parent_id ← getitem zone_cell_ids zid;
  '(zx, zy, zw, zh) ← getitem zone_geometry zid;
  let zone_content_w := num_val zw in
  let zone_content_h := num_val zh - ZONE_HEADER_HEIGHT in
  let n_list := default [] (nodes_in_zone !! zid) in
  let cols := zone_cols n_list in
  for_each (node_cell_body parent_id cols zone_content_w zone_content_h)
    (enumerate n_list) st.

Definition tb_cell_body (zone_geometry : gmap string geometry)
    (st : cells_state) (itb : Z * TrustBoundary) : result cells_state :=
  let '(i, tb) := itb in
  let between := default [] (tb_between_zones tb) in
  match between with
  | z0 :: z1 :: _ =>
      match zone_geometry !! z0, zone_geometry !! z1 with
      | Some (_, y0, _, h0), Some _ =>
          let y_line := num_add y0 h0 in
          let label := strip (get_or (tb_label tb) ("TB" +:+ pretty (i + 1))) in
          let '(cell_id, ctr) := _next_id "tb-" (ctr st) in
          let line := _add_cell cell_id "1" label STYLE_TB true false
                        (Int 0) y_line (Int CANVAS_WIDTH) (Int 3) "0"
                        None None in
          let '(lbl_id, ctr) := _next_id "tblbl-" ctr in
          let lbl := _add_cell lbl_id "1" label
                       "text;html=1;strokeColor=none;fillColor=none;align=center;verticalAlign=middle;fontSize=10;fontColor=#b85450;"
                       true false
                       (Int (CANVAS_WIDTH / 2 - 40))
                       (num_add y_line (Int (-16)))
                       (Int 80) (Int 16) "0" None None in
          Ok {| ctr := ctr; cells := cells st ++ [line; lbl];
                cell_ids := cell_ids st |}
      | _, _ => Ok st
      end
  | _ => Ok st
  end.

(** The flow loop; the [logger.warning] of a skipped flow is not recorded. *)
Definition flow_cell_body (node_cell_ids : gmap string string)
    (st : cells_state) (f : Flow) : result cells_state :=
  match flow_source f ≫= (node_cell_ids !!.),
        flow_target f ≫= (node_cell_ids !!.) with
  | Some src_cell, Some tgt_cell =>
      let '(fid, ctr) := _next_id "edge-" (ctr st) in
      let style := _flow_style (default "generic" (flow_type f)) in
      let label := _flow_label f in
      Ok {| ctr := ctr;
            cells := cells st ++
              [_add_cell fid "1" label style false true
                 (Int 0) (Int 0) (Int 0) (Int 0) "1"
                 (Some src_cell) (Some tgt_cell)];
            cell_ids := cell_ids st |}
  | _, _ => Ok st
  end.

Definition legend_text : string :=
  "Legend&#xa;"
  +:+ "• Solid line: API / Auth / Data flow&#xa;"
  +:+ "• Dashed line: Log / Telemetry&#xa;"
  +:+ "• Red dashed: Trust boundary&#xa;"
  +:+ "• Rounded rect: App/Service | Hexagon: API "
  +:+ "| Cylinder: Data store&#xa;"
  +:+ "• Ellipse: Identity | Shield: Control "
  +:+ "| Dashed border: External/Vendor".

Definition is_gt (c : ascii) : bool := bool_decide (c = ">"%char).

(** Length of the match of [<\?xml[^>]*\?>\s*] at the start of [s], if it
    matches there: the first [>] after [<?xml] has to close a [?>]. *)
Definition decl_match (s : string) : option nat :=
  if starts_with "<?xml" s then
    let after := drop_str 5 s in
    let tail := lstrip_by (fun c => negb (is_gt c)) after in
    let u_len := (String.length after - String.length tail)%nat in
    match tail with
    | String _ v =>
        if starts_with "?" (drop_str (u_len - 1) after) && (1 <=? u_len)%nat
        then
          let spaces :=
            (String.length v
             - String.length (lstrip_by Ascii.is_space v))%nat in
          Some (5 + u_len + 1 + spaces)%nat
        else None
    | EmptyString => None
    end
  else None.

(** [re.sub(r"<\?xml[^>]*\?>\s*", "", s)] *)
Fixpoint sub_decls (skip : nat) (s : string) : string :=
  match s with
  | EmptyString => EmptyString
  | String c s' =>
      match skip with
      | S k => sub_decls k s'
      | O =>
          match decl_match s with
          | Some (S k) => sub_decls k s'
          | _ => String c (sub_decls 0 s')
          end
      end
  end.

Definition XML_DECLARATION : string :=
  "<?xml version=" +:+ dquote +:+ "1.0" +:+ dquote +:+ " encoding=" +:+ dquote
    +:+ "UTF-8" +:+ dquote +:+ "?>" +:+ newline.

Definition _serialize_xml_safe (root_elem : Element) : result string :=
  let rough := tostring root_elem in
  (* ET.tostring does not add XML declaration by default *)
  let out := XML_DECLARATION +:+ rough in
  (* Safety strip: if somehow multiple declarations, keep only first *)
  out ← (if 1 <? str_count out "<?xml" then
           first ← str_index out "<?xml" 0;
           i ← str_index out "?>" first;
           let second := i + 2 in
           let rest := lstrip_by Ascii.is_space
                         (drop_str (Z.to_nat second) out) in
           Ok (take_str (Z.to_nat second) out +:+ newline +:+ sub_decls 0 rest)
         else Ok out);
  assert (str_count out "<?xml" <=? 1)
    "output must contain at most one XML declaration";;
  (if str_count out "<?xml" =? 1 then
     i ← str_index out "<?xml" 0; assert (i =? 0) ""
   else Ok ());;
  assert (str_contains out "<mxfile") "";;
  Ok out.

(** The element tree around the cells of [root] *)
Definition mxfile (root_children : list Element) : Element :=
  Elem "mxfile"
    [("host", "app.diagrams.net"); ("modified", "2025-01-01T00:00:00.000Z")]
    [Elem "diagram"
       [("id", "security-arch"); ("name", "Security Reference Architecture")]
       [Elem "mxGraphModel"
          [("dx", "1422"); ("dy", "794"); ("grid", "1"); ("gridSize", "10");
           ("guides", "1"); ("tooltips", "1"); ("connect", "1");
           ("arrows", "1"); ("fold", "1"); ("page", "1"); ("pageScale", "1");
           ("pageWidth", "1600"); ("pageHeight", "3200"); ("math", "0");
           ("shadow", "0")]
          [Elem "root" [] root_children]]].

(** The part of [dsl_to_drawio] after validation: layout, cells, tree *)
Definition render (dsl : DSL) : result Element :=
  let zones := sorted (_ensure_list (dsl_zones dsl)) order_key in
  let trust_boundaries := _ensure_list (dsl_trust_boundaries dsl) in
  let nodes := _ensure_list (dsl_nodes dsl) in
  let flows := _ensure_list (dsl_flows dsl) in
  let nodes_in_zone := group_nodes nodes in
  (* Grid layout per zone *)
  let zone_heights := fold_left (zone_height_body nodes_in_zone) zones ∅ in
  '(y_cursor, zone_geometry) ←
    for_each (zone_geometry_body zone_heights) zones (Float 0, ∅);
  (* Trust boundaries between zones *)
  let y_cursor :=
    fold_left (fun y _ => num_add y (Int TB_HEIGHT)) trust_boundaries
      y_cursor in
  let legend_y := num_add y_cursor (Int 20) in
  (* Build XML: root layer id=1 *)
  let root := [Elem "mxCell" [("id", "0")] [];
               Elem "mxCell" [("id", "1"); ("parent", "0")] []] in
  (* Zones (swimlane containers) *)
  st ← for_each (zone_cell_body zone_geometry) zones
         {| ctr := 1; cells := root; cell_ids := ∅ |};
  let zone_cell_ids := cell_ids st in
  (* Nodes (parent = zone mxCell id, geometry relative to zone) *)
  st ← for_each (zone_nodes_body zone_cell_ids zone_geometry nodes_in_zone)
         zones {| ctr := ctr st; cells := cells st; cell_ids := ∅ |};
  let node_cell_ids := cell_ids st in
  (* Trust boundaries *)
  st ← for_each (tb_cell_body zone_geometry) (enumerate trust_boundaries) st;
  (* Flows *)
  st ← for_each (flow_cell_body node_cell_ids) flows st;
  (* Legend (root layer) *)
  let '(legend_id, _) := _next_id "legend-" (ctr st) in
  let legend := _add_cell legend_id "1" legend_text STYLE_LEGEND true false
                  (Int (CANVAS_WIDTH - LEGEND_WIDTH - 20)) legend_y
                  (Int LEGEND_WIDTH) (Int LEGEND_HEIGHT) "0" None None in
  Ok (mxfile (cells st ++ [legend])).

Definition dsl_to_drawio (dsl : DSL) : result string :=
  (* Validation expands sparse DSL to meet enterprise density *)
  '(dsl, val_errors) ←
    returned (validate_and_prepare_dsl dsl MIN_ZONES MIN_NODES MIN_FLOWS
                MIN_NODES_HARD true);
  match dsl with
  | None =>
      Raise (ValueError ("DSL validation failed: " +:+ join "; " val_errors))
  | Some dsl => root_elem ← render dsl; _serialize_xml_safe root_elem
  end.

(* ------------------------------------------------------------------------- *)
(** ** [dsl.py]: the schema and [validate_dsl]                                *)
(* ------------------------------------------------------------------------- *)

(** The classes of [dsl.py] are declarations for pydantic's [BaseModel];
    [model_validate] is the library's.  Its part that the declarations use is
    embedded here: required fields and defaults, the types [str], [int]
    with [ge], [Literal], [str | None], [list], nested models, and the
    [extra] setting of a model's own [model_config], which a model that
    declares none leaves at the library's default, [ignore], and which is not
    inherited by the models of its fields.  Lax-mode coercions between JSON
    types (a numeric string for an [int]) are left out. *)
Module Schema.

Inductive json :=
  | JNull
  | JBool (b : bool)
  | JInt (z : Z)
  | JStr (s : string)
  | JList (xs : list json)
  | JObj (fields : list (string * json)).

(** An entry of [ValidationError.errors()]: location and message *)
Definition error : Type := list string * string.

Definition validated (A : Type) : Type := list error + A.

Definition at_loc {A} (l : string) (v : validated A) : validated A :=
  match v with
  | inl errs => inl (map (fun '(loc, msg) => (l :: loc, msg)) errs)
  | inr a => inr a
  end.

Definition errors_of {A} (v : validated A) : list error :=
  match v with inl errs => errs | inr _ => [] end.

Inductive extra := ignore | forbid.

Record config := { config_extra : extra }.

(** pydantic's default configuration *)
Definition default_config : config := {| config_extra := ignore |}.

(** [obj.get(name)] on the items of a [dict] *)
Fixpoint get_field (name : string) (obj : list (string * json))
    : option json :=
  match obj with
  | [] => None
  | (k, v) :: obj' =>
      if bool_decide (k = name) then Some v else get_field name obj'
  end.

(** [Field(...)]: a required field *)
Definition required {A} (parse : json -> validated A) (name : string)
    (obj : list (string * json)) : validated A :=
  match get_field name obj with
  | Some v => at_loc name (parse v)
  | None => inl [([name], "Field required")]
  end.

(** [Field(default=d)] and [Field(default_factory=...)] *)
Definition optional {A} (parse : json -> validated A) (name : string)
    (d : A) (obj : list (string * json)) : validated A :=
  match get_field name obj with
  | Some v => at_loc name (parse v)
  | None => inr d
  end.

(** The errors for the keys of [obj] that are no field of the model *)
Definition extra_errors (cfg : config) (field_names : list string)
    (obj : list (string * json)) : list error :=
  match config_extra cfg with
  | forbid =>
      flat_map
        (fun kv =>
           if bool_decide (kv.1 ∈ field_names) then []
           else [([kv.1], "Extra inputs are not permitted")])
        obj
  | ignore => []
  end.

Definition str (v : json) : validated string :=
  match v with
  | JStr s => inr s
  | _ => inl [([], "Input should be a valid string")]
  end.

Definition optional_str (v : json) : validated (option string) :=
  match v with
  | JNull => inr None
  | JStr s => inr (Some s)
  | _ => inl [([], "Input should be a valid string")]
  end.

Definition int_ge (bound : Z) (v : json) : validated Z :=
  match v with
  | JInt z =>
      if bound <=? z then inr z
      else inl [([], "Input should be greater than or equal to "
                       +:+ pretty bound)]
  | _ => inl [([], "Input should be a valid integer")]
  end.

Fixpoint expected (allowed : list string) : string :=
  match allowed with
  | [] => ""
  | [a] => "'" +:+ a +:+ "'"
  | [a; b] => "'" +:+ a +:+ "' or '" +:+ b +:+ "'"
  | a :: rest => "'" +:+ a +:+ "', " +:+ expected rest
  end.

Definition literal (allowed : list string) (v : json) : validated string :=
  match v with
  | JStr s =>
      if bool_decide (s ∈ allowed) then inr s
      else inl [([], "Input should be " +:+ expected allowed)]
  | _ => inl [([], "Input should be " +:+ expected allowed)]
  end.

(** Items of a list, each validated at its index; all errors are kept. *)
Fixpoint items {A} (parse : json -> validated A) (i : nat) (xs : list json)
    : validated (list A) :=
  match xs with
  | [] => inr []
  | x :: xs' =>
      match at_loc (pretty i) (parse x), items parse (S i) xs' with
      | inr a, inr rest => inr (a :: rest)
      | r, rs => inl (errors_of r ++ errors_of rs)
      end
  end.

Definition list_of {A} (parse : json -> validated A) (v : json)
    : validated (list A) :=
  match v with
  | JList xs => items parse 0 xs
  | _ => inl [([], "Input should be a valid list")]
  end.

(** A [BaseModel] class: its configuration, the names of its fields, and
    the validation of the fields of a [dict] *)
Definition model {A} (cfg : config) (name : string)
    (field_names : list string)
    (fields : list (string * json) -> validated A) (v : json)
    : validated A :=
  match v with
  | JObj obj =>
      match fields obj, extra_errors cfg field_names obj with
      | inr a, [] => inr a
      | r, extras => inl (errors_of r ++ extras)
      end
  | _ => inl [([], "Input should be a valid dictionary or instance of "
                     +:+ name)]
  end.

(** Collecting the fields of a model, keeping the errors of all of them *)
Definition ap {A B} (f : validated (A -> B)) (a : validated A)
    : validated B :=
  match f, a with
  | inr f, inr a => inr (f a)
  | _, _ => inl (errors_of f ++ errors_of a)
  end.
Notation "f <*> a" := (ap f a) (at level 50, left associativity).

Record Zone := {
  Zone_id : string; Zone_name : string; Zone_order : Z;
  Zone_color : string }.

Record TrustBoundary := {
  TrustBoundary_id : string; TrustBoundary_label : string;
  TrustBoundary_between_zones : list string }.

Definition NodeType : list string :=
  ["app"; "service"; "api"; "data_store"; "identity"; "security_control";
   "vendor"; "external"].

Record Node := {
  Node_id : string; Node_label : string; Node_zone : string;
  Node_type : string; Node_tags : list string }.

Record Group := {
  Group_id : string; Group_label : string; Group_zone : string;
  Group_children : list string }.

Definition FlowType : list string :=
  ["api"; "auth"; "data"; "log"; "telemetry"; "generic"].

Record Flow := {
  Flow_id : string; Flow_source : string; Flow_target : string;
  Flow_flow_type : string; Flow_protocol : string; Flow_auth : string;
  Flow_data_class : string; Flow_label : option string }.

Record Control := {
  Control_id : string; Control_scope : list string;
  Control_control_type : string }.

Record ArchitectureDSL := {
  ArchitectureDSL_title : option string;
  ArchitectureDSL_zones : list Zone;
  ArchitectureDSL_trust_boundaries : list TrustBoundary;
  ArchitectureDSL_groups : list Group;
  ArchitectureDSL_nodes : list Node;
  ArchitectureDSL_flows : list Flow;
  ArchitectureDSL_controls : list Control }.

(** The entity classes declare no [model_config]. *)
Definition validate_Zone : json -> validated Zone :=
  model default_config "Zone" ["id"; "name"; "order"; "color"]
    (fun obj =>
       inr Build_Zone
         <*> required str "id" obj
         <*> required str "name" obj
         <*> required (int_ge 0) "order" obj
         <*> optional str "color" "#dae8fc" obj).

Definition validate_TrustBoundary : json -> validated TrustBoundary :=
  model default_config "TrustBoundary" ["id"; "label"; "between_zones"]
    (fun obj =>
       inr Build_TrustBoundary
         <*> required str "id" obj
         <*> optional str "label" "" obj
         <*> optional (list_of str) "between_zones" [] obj).

Definition validate_Node : json -> validated Node :=
  model default_config "Node" ["id"; "label"; "zone"; "type"; "tags"]
    (fun obj =>
       inr Build_Node
         <*> required str "id" obj
         <*> required str "label" obj
         <*> required str "zone" obj
         <*> optional (literal NodeType) "type" "app" obj
         <*> optional (list_of str) "tags" [] obj).

Definition validate_Group : json -> validated Group :=
  model default_config "Group" ["id"; "label"; "zone"; "children"]
    (fun obj =>
       inr Build_Group
         <*> required str "id" obj
         <*> required str "label" obj
         <*> required str "zone" obj
         <*> optional (list_of str) "children" [] obj).

Definition validate_Flow : json -> validated Flow :=
  model default_config "Flow"
    ["id"; "source"; "target"; "flow_type"; "protocol"; "auth";
     "data_class"; "label"]
    (fun obj =>
       inr Build_Flow
         <*> required str "id" obj
         <*> required str "source" obj
         <*> required str "target" obj
         <*> optional (literal FlowType) "flow_type" "generic" obj
         <*> optional str "protocol" "" obj
         <*> optional str "auth" "" obj
         <*> optional str "data_class" "" obj
         <*> optional optional_str "label" None obj).

Definition validate_Control : json -> validated Control :=
  model default_config "Control" ["id"; "scope"; "control_type"]
    (fun obj =>
       inr Build_Control
         <*> required str "id" obj
         <*> optional (list_of str) "scope" [] obj
         <*> required str "control_type" obj).

(** [model_config = {"extra": "forbid"}] *)
Definition ArchitectureDSL_model_config : config :=
  {| config_extra := forbid |}.

(** [ArchitectureDSL.model_validate] *)
Definition model_validate : json -> validated ArchitectureDSL :=
  model ArchitectureDSL_model_config "ArchitectureDSL"
    ["title"; "zones"; "trust_boundaries"; "groups"; "nodes"; "flows";
     "controls"]
    (fun obj =>
       inr Build_ArchitectureDSL
         <*> optional optional_str "title" None obj
         <*> optional (list_of validate_Zone) "zones" [] obj
         <*> optional (list_of validate_TrustBoundary) "trust_boundaries"
               [] obj
         <*> optional (list_of validate_Group) "groups" [] obj
         <*> optional (list_of validate_Node) "nodes" [] obj
         <*> optional (list_of validate_Flow) "flows" [] obj
         <*> optional (list_of validate_Control) "controls" [] obj).

Definition validate_dsl (data : json)
    : option ArchitectureDSL * list string :=
  match model_validate data with
  | inr model => (Some model, [])
  | inl errs =>
      (None, map (fun '(loc, msg) => join "." loc +:+ ": " +:+ msg) errs)
  end.

End Schema.

(* ------------------------------------------------------------------------- *)
(** ** Vocabulary of the statements                                           *)
(* ------------------------------------------------------------------------- *)

(** The graph of a call that returned [(dsl, [])] *)
Definition accepted (o : outcome (option DSL * list string)) : option DSL :=
  match returned o with
  | Ok (Some g, []) => Some g
  | _ => None
  end.

(** The call [dsl_to_drawio] makes *)
Definition prepare (dsl : DSL) : outcome (option DSL * list string) :=
  validate_and_prepare_dsl dsl MIN_ZONES MIN_NODES MIN_FLOWS MIN_NODES_HARD
    true.

(** The ids of a graph, in the order of its collections *)
Definition zone_ids_of (d : DSL) : list string :=
  map zone_id (_ensure_list (dsl_zones d)).

Definition node_ids_of (d : DSL) : list string :=
  map node_id (_ensure_list (dsl_nodes d)).

Definition flow_ids_of (d : DSL) : list (option string) :=
  map flow_id (_ensure_list (dsl_flows d)).

(** *** Density expansion *)

(** The entries [_expand_dsl_to_density] appends *)
Definition placeholder_zone (k : Z) : Zone :=
  {| zone_id := "zone_" +:+ pretty k;
     zone_name := Some ("Zone " +:+ pretty (k + 1));
     zone_order := Some k;
     zone_color := Some "#e1d5e7" |}.

Definition placeholder_node (k : Z) (zid : string) : Node :=
  {| node_id := "node_" +:+ pretty k;
     node_label := Some ("Component " +:+ pretty (k + 1));
     node_zone := Some zid;
     node_type := Some "service";
     node_tags := [] |}.

Definition placeholder_flow (k : Z) (src tgt : string) : Flow :=
  {| flow_id := Some ("flow_" +:+ pretty k);
     flow_source := Some src;
     flow_target := Some tgt;
     flow_type := Some "api";
     flow_protocol := Some "HTTPS";
     flow_auth := Some "";
     flow_data_class := Some "";
     flow_label := None |}.

Definition is_placeholder_zone (z : Zone) : Prop :=
  exists k, 0 <= k /\ z = placeholder_zone k.

(** A placeholder node sits in one of the zones [zs]. *)
Definition is_placeholder_node (zs : list Zone) (n : Node) : Prop :=
  exists k z, 0 <= k /\ z ∈ zs /\ n = placeholder_node k (zone_id z).

(** A placeholder flow joins two of the nodes [ns]. *)
Definition is_placeholder_flow (ns : list Node) (f : Flow) : Prop :=
  exists k s t, 0 <= k /\ s ∈ map node_id ns /\ t ∈ map node_id ns
                /\ f = placeholder_flow k s t.

(** Number of different node ids in a graph *)
Definition distinct_node_ids (g : DSL) : Z :=
  len (remove_dups (node_ids_of g)).

(** The node loop keeps [node_by_id] keyed by the ids of [nodes]. *)
Definition keyed_by_ids (st : node_loop_state) : Prop :=
  NoDup (odict.keys (nl_node_by_id st))
  /\ forall x, x ∈ odict.keys (nl_node_by_id st)
               <-> x ∈ map node_id (nl_nodes st).

(** *** Zone renaming *)

(** The state the zone-renaming loop ends in *)
Definition renamed_zones (dsl : DSL)
    : gmap string string * gmap string Z * list Zone :=
  fold_left rename_zone (sorted (_ensure_list (dsl_zones dsl)) order_key)
    (∅, ∅, []).

Definition final_zone_id_map (dsl : DSL) : gmap string string :=
  (renamed_zones dsl).1.1.

Definition final_zone_ids (dsl : DSL) : gset string :=
  list_to_set (map zone_id (renamed_zones dsl).2).

(** The zone id a node is assigned by the node loop *)
Definition remapped_zone (dsl : DSL) (n : Node) : string :=
  let zid := get_or (node_zone n) "" in
  default zid (final_zone_id_map dsl !! zid).

(** A node whose remapped zone is not among the final zone ids *)
Definition dangling (dsl : DSL) (n : Node) : Prop :=
  remapped_zone dsl n ∉ final_zone_ids dsl.

#[global] Instance dangling_dec dsl n : Decision (dangling dsl n).
Proof. unfold dangling. apply _. Defined.

Definition invalid_zone_error (dsl : DSL) (n : Node) : string :=
  "Node '" +:+ node_id n +:+ "' references invalid zone '"
    +:+ remapped_zone dsl n +:+ "'.".

(** *** Layout *)

(** Height the layout gives the zone with id [zid] *)
Definition zone_height_of (nodes_in_zone : gmap string (list Node))
    (zid : string) : Z :=
  let n_count := len (default [] (nodes_in_zone !! zid)) in
  let rows := if n_count =? 0 then 1 else ceil_div n_count cols_max in
  ZONE_HEADER_HEIGHT + (PADDING + rows * (NODE_H + GAP_Y)).

(** Every band is as wide as the canvas and as high as its rows need. *)
Definition band (nodes_in_zone : gmap string (list Node)) (zid : string)
    (g : geometry) : Prop :=
  exists y0, g = (Int 0, y0, Int zone_width,
                  Int (zone_height_of nodes_in_zone zid)).

(** *** Serialized text *)

(** [c] does not occur in [s] *)
Fixpoint no_char (c : ascii) (s : string) : bool :=
  match s with
  | EmptyString => true
  | String a s' => negb (Ascii.eqb a c) && no_char c s'
  end.

(** [p] and [t] differ at a position that both have, so no extension of [t]
    starts with [p]. *)
Fixpoint diverges (p t : string) : bool :=
  match p, t with
  | String a p', String b t' => if Ascii.eqb a b then diverges p' t' else true
  | _, _ => false
  end.

(** After each [<] of [s] comes text that diverges from [p]. *)
Fixpoint lt_safe (p s : string) : bool :=
  match s with
  | EmptyString => true
  | String c t =>
      (if Ascii.eqb c "<" then diverges p t else true) && lt_safe p t
  end.

(** No tag or attribute name of the tree holds a [<], and every tag diverges
    from [p]. *)
Fixpoint plain_tags (p : string) (e : Element) : bool :=
  match e with
  | Elem tag attrib children =>
      no_char "<" tag && diverges p tag
      && forallb (fun kv => no_char "<" kv.1) attrib
      && forallb (plain_tags p) children
  end.

(** What follows the tag name in the text of an element *)
Definition after_tag (tag : string) (attrib : list (string * string))
    (children : list Element) : string :=
  concat_str (map write_attrib attrib) +:+
    (if is_nil children then " />"
     else ">" +:+ concat_str (map _serialize_xml children)
              +:+ "</" +:+ tag +:+ ">").

(** The cells built so far have plain tags. *)
Definition cells_plain (p : string) (st : cells_state) : Prop :=
  forallb (plain_tags p) (cells st) = true.

(** *** Payloads the statements are tried on *)

Definition mk_zone (i : string) (o : Z) : Zone :=
  {| zone_id := i; zone_name := Some i; zone_order := Some o;
     zone_color := None |}.

Definition mk_node (i z : string) : Node :=
  {| node_id := i; node_label := Some i; node_zone := Some z;
     node_type := None; node_tags := [] |}.

Definition mk_flow (i s t : string) : Flow :=
  {| flow_id := Some i; flow_source := Some s; flow_target := Some t;
     flow_type := Some "api"; flow_protocol := None; flow_auth := None;
     flow_data_class := None; flow_label := None |}.

Definition mk_dsl (zs : list Zone) (ns : list Node) (fs : list Flow) : DSL :=
  {| dsl_title := None; dsl_zones := Some zs; dsl_trust_boundaries := None;
     dsl_groups := None; dsl_nodes := Some ns; dsl_flows := Some fs;
     dsl_controls := None |}.

Definition one_node_dsl : DSL :=
  mk_dsl [mk_zone "z0" 0] [mk_node "n0" "z0"] [].

(** Twenty-five nodes that all carry the id [n0] *)
Definition repeated_id_dsl : DSL :=
  mk_dsl [mk_zone "z0" 0] (replicate 25 (mk_node "n0" "z0")) [].

Definition two_zone_dsl : DSL :=
  mk_dsl [mk_zone "z0" 0; mk_zone "z1" 1]
         [mk_node "n0" "z0"; mk_node "n1" "z1"] [mk_flow "f0" "n0" "n1"].

(** No [zones] key, two nodes and a flow *)
Definition no_zone_dsl : DSL :=
  {| dsl_title := Some "Payments"; dsl_zones := None;
     dsl_trust_boundaries := None; dsl_groups := None;
     dsl_nodes := Some [mk_node "api" "dmz"; mk_node "db" "data"];
     dsl_flows := Some [mk_flow "f0" "api" "db"];
     dsl_controls := None |}.

(** Two of the three nodes name a zone the payload does not have. *)
Definition dangling_node_dsl : DSL :=
  mk_dsl [mk_zone "DMZ Zone" 0; mk_zone "data" 1]
         [mk_node "web" "DMZ Zone"; mk_node "db" "storage";
          mk_node "cache" "memory"]
         [mk_flow "f0" "web" "db"].

(** Three zones with three different ids; the first two both canonicalize to
    [internet], and the suffixed id of the second is the id of the third. *)
Definition suffix_collision_dsl : DSL :=
  mk_dsl [mk_zone "Internet" 0; mk_zone "external" 1; mk_zone "internet_1" 2]
         [mk_node "n0" "Internet"] [].

(** A graph whose only zone, node and flow already carry the ids the
    counters of the expansion start at. *)
Definition counter_collision_dsl : DSL :=
  mk_dsl [mk_zone "zone_1" 0] [mk_node "node_1" "zone_1"]
         [mk_flow "flow_1" "node_1" "node_1"].

(** A graph with one zone, named as the expansion names its second zone. *)
Definition renormalized_dsl : DSL :=
  mk_dsl [mk_zone "zone_1" 0] [mk_node "n0" "zone_1"] [].

(** A zone id that is an alias, and a node that refers to it. *)
Definition alias_dsl : DSL :=
  mk_dsl [mk_zone "DMZ Zone" 0] [mk_node "n0" "DMZ Zone"] [].

(** A payload whose zone has a field the schema does not define *)
Definition extra_zone_field_payload : Schema.json :=
  Schema.JObj
    [("zones",
      Schema.JList
        [Schema.JObj [("id", Schema.JStr "z0"); ("name", Schema.JStr "Edge");
                      ("order", Schema.JInt 0);
                      ("owner", Schema.JStr "ops")]]);
     ("nodes",
      Schema.JList
        [Schema.JObj [("id", Schema.JStr "n0");
                      ("label", Schema.JStr "Gateway");
                      ("zone", Schema.JStr "z0")]])].

(* ------------------------------------------------------------------------- *)
(** ** A payload as JSON, and [model_dump]                                    *)
(* ------------------------------------------------------------------------- *)

(** The [dict] of a payload as the JSON value the schema validates.  A field
    that is [None] is a missing key, but for the two fields that a payload
    holds as [None], the title and the label of a flow, which are [null];
    [.get] and the schema read a missing key and [null] the same way
    there. *)
Definition entry {A} (k : string) (f : A -> Schema.json) (o : option A)
    : list (string * Schema.json) :=
  match o with Some a => [(k, f a)] | None => [] end.

Definition nullable (o : option string) : Schema.json :=
  match o with Some s => Schema.JStr s | None => Schema.JNull end.

Definition json_of_strs (xs : list string) : Schema.json :=
  Schema.JList (map Schema.JStr xs).

Definition json_of_Zone (z : Zone) : Schema.json :=
  Schema.JObj
    ([("id", Schema.JStr (zone_id z))]
       ++ entry "name" Schema.JStr (zone_name z)
       ++ entry "order" Schema.JInt (zone_order z)
       ++ entry "color" Schema.JStr (zone_color z)).

Definition json_of_TrustBoundary (tb : TrustBoundary) : Schema.json :=
  Schema.JObj
    ([("id", Schema.JStr (tb_id tb))]
       ++ entry "label" Schema.JStr (tb_label tb)
       ++ entry "between_zones" json_of_strs (tb_between_zones tb)).

Definition json_of_Node (n : Node) : Schema.json :=
  Schema.JObj
    ([("id", Schema.JStr (node_id n))]
       ++ entry "label" Schema.JStr (node_label n)
       ++ entry "zone" Schema.JStr (node_zone n)
       ++ entry "type" Schema.JStr (node_type n)
       ++ [("tags", json_of_strs (node_tags n))]).

Definition json_of_Group (g : Group) : Schema.json :=
  Schema.JObj
    [("id", Schema.JStr (group_id g)); ("label", Schema.JStr (group_label g));
     ("zone", Schema.JStr (group_zone g));
     ("children", json_of_strs (group_children g))].

Definition json_of_Flow (f : Flow) : Schema.json :=
  Schema.JObj
    (entry "id" Schema.JStr (flow_id f)
       ++ entry "source" Schema.JStr (flow_source f)
       ++ entry "target" Schema.JStr (flow_target f)
       ++ entry "flow_type" Schema.JStr (flow_type f)
       ++ entry "protocol" Schema.JStr (flow_protocol f)
       ++ entry "auth" Schema.JStr (flow_auth f)
       ++ entry "data_class" Schema.JStr (flow_data_class f)
       ++ [("label", nullable (flow_label f))]).

Definition json_of_Control (c : Control) : Schema.json :=
  Schema.JObj
    [("id", Schema.JStr (control_id c));
     ("scope", json_of_strs (control_scope c));
     ("control_type", Schema.JStr (control_type c))].

Definition json_of_list {A} (f : A -> Schema.json) (xs : list A)
    : Schema.json :=
  Schema.JList (map f xs).

Definition json_of_DSL (d : DSL) : Schema.json :=
  Schema.JObj
    ([("title", nullable (dsl_title d))]
       ++ entry "zones" (json_of_list json_of_Zone) (dsl_zones d)
       ++ entry "trust_boundaries" (json_of_list json_of_TrustBoundary)
            (dsl_trust_boundaries d)
       ++ entry "groups" (json_of_list json_of_Group) (dsl_groups d)
       ++ entry "nodes" (json_of_list json_of_Node) (dsl_nodes d)
       ++ entry "flows" (json_of_list json_of_Flow) (dsl_flows d)
       ++ entry "controls" (json_of_list json_of_Control) (dsl_controls d)).

(** [model.model_dump(mode="json")] as a payload: every field of every model
    is a key of its [dict]. *)
Definition dumped_Zone (z : Schema.Zone) : Zone :=
  {| zone_id := Schema.Zone_id z; zone_name := Some (Schema.Zone_name z);
     zone_order := Some (Schema.Zone_order z);
     zone_color := Some (Schema.Zone_color z) |}.

Definition dumped_TrustBoundary (tb : Schema.TrustBoundary) : TrustBoundary :=
  {| tb_id := Schema.TrustBoundary_id tb;
     tb_label := Some (Schema.TrustBoundary_label tb);
     tb_between_zones := Some (Schema.TrustBoundary_between_zones tb) |}.

Definition dumped_Node (n : Schema.Node) : Node :=
  {| node_id := Schema.Node_id n; node_label := Some (Schema.Node_label n);
     node_zone := Some (Schema.Node_zone n);
     node_type := Some (Schema.Node_type n);
     node_tags := Schema.Node_tags n |}.

Definition dumped_Group (g : Schema.Group) : Group :=
  {| group_id := Schema.Group_id g; group_label := Schema.Group_label g;
     group_zone := Schema.Group_zone g;
     group_children := Schema.Group_children g |}.

Definition dumped_Flow (f : Schema.Flow) : Flow :=
  {| flow_id := Some (Schema.Flow_id f);
     flow_source := Some (Schema.Flow_source f);
     flow_target := Some (Schema.Flow_target f);
     flow_type := Some (Schema.Flow_flow_type f);
     flow_protocol := Some (Schema.Flow_protocol f);
     flow_auth := Some (Schema.Flow_auth f);
     flow_data_class := Some (Schema.Flow_data_class f);
     flow_label := Schema.Flow_label f |}.

Definition dumped_Control (c : Schema.Control) : Control :=
  {| control_id := Schema.Control_id c;
     control_scope := Schema.Control_scope c;
     control_type := Schema.Control_control_type c |}.

Definition dumped (m : Schema.ArchitectureDSL) : DSL :=
  {| dsl_title := Schema.ArchitectureDSL_title m;
     dsl_zones := Some (map dumped_Zone (Schema.ArchitectureDSL_zones m));
     dsl_trust_boundaries :=
       Some (map dumped_TrustBoundary
               (Schema.ArchitectureDSL_trust_boundaries m));
     dsl_groups := Some (map dumped_Group (Schema.ArchitectureDSL_groups m));
     dsl_nodes := Some (map dumped_Node (Schema.ArchitectureDSL_nodes m));
     dsl_flows := Some (map dumped_Flow (Schema.ArchitectureDSL_flows m));
     dsl_controls :=
       Some (map dumped_Control (Schema.ArchitectureDSL_controls m)) |}.

Definition model_dump (m : Schema.ArchitectureDSL) : Schema.json :=
  json_of_DSL (dumped m).

(** The constraints of the schema on a model *)
Definition constrained (m : Schema.ArchitectureDSL) : Prop :=
  Forall (fun z => 0 <= Schema.Zone_order z) (Schema.ArchitectureDSL_zones m)
  /\ Forall (fun n => Schema.Node_type n ∈ Schema.NodeType)
       (Schema.ArchitectureDSL_nodes m)
  /\ Forall (fun f => Schema.Flow_flow_type f ∈ Schema.FlowType)
       (Schema.ArchitectureDSL_flows m).

(** A result of validation that is not an error without a message *)
Definition reports {A} (v : Schema.validated A) : Prop := v <> inl [].

Definition extra_field_payload : Schema.json :=
  Schema.JObj [("zones", Schema.JList []); ("owner", Schema.JStr "team")].

(* ------------------------------------------------------------------------- *)
(** ** [text_to_dsl.py]                                                       *)
(* ------------------------------------------------------------------------- *)

Definition MAX_REPAIR_ATTEMPTS : Z := 2.

(** [xs[i]], also for a negative [i] *)
Definition subscript {A} (xs : list A) (i : Z) : result A :=
  if i <? 0 then
    if len xs + i <? 0 then Raise IndexError else item xs (len xs + i)
  else item xs i.

(** [e if xs else d] *)
Definition if_else {A B} (xs : list A) (e : result B) (d : B) : result B :=
  if is_nil xs then Ok d else e.

Definition zone_keywords : list (string * string * string) :=
  [("internet", "Internet", "#fff2cc");
   ("dmz", "DMZ", "#ffe6cc");
   ("cloud", "Cloud", "#dae8fc");
   ("tenant", "Tenant", "#e1d5e7");
   ("on-prem", "On-Premises", "#d5e8d4");
   ("internal", "Internal", "#d5e8d4");
   ("data", "Data Layer", "#f8cecc");
   ("identity", "Identity", "#e1d5e7");
   ("vendor", "Vendor / External", "#f5f5f5")].

(** The [dict] literals of the stub *)
Definition stub_zone (i : Z) (name color : string) : Zone :=
  {| zone_id := "z" +:+ pretty i; zone_name := Some name;
     zone_order := Some i; zone_color := Some color |}.

Definition stub_trust_boundary (i : Z) (between_zones : list string)
    : TrustBoundary :=
  {| tb_id := "tb" +:+ pretty (i + 1);
     tb_label := Some ("TB" +:+ pretty (i + 1));
     tb_between_zones := Some between_zones |}.

Definition stub_node (node_no : Z) (label zone type : string) : Node :=
  {| node_id := "n" +:+ pretty node_no; node_label := Some label;
     node_zone := Some zone; node_type := Some type; node_tags := [] |}.

Definition stub_flow (id source target flow_type protocol auth data_class
                        : string) : Flow :=
  {| flow_id := Some id; flow_source := Some source;
     flow_target := Some target; flow_type := Some flow_type;
     flow_protocol := Some protocol; flow_auth := Some auth;
     flow_data_class := Some data_class; flow_label := None |}.

(** [if cond: nodes_list.append({...}); node_id += 1]; the state is the list
    and the counter, which the source calls [node_id]. *)
Definition add_node (cond : bool) (label : string) (zone : result string)
    (type : string) (st : list Node * Z) : result (list Node * Z) :=
  if cond then
    z ← zone; Ok (st.1 ++ [stub_node st.2 label z type], st.2 + 1)
  else Ok st.

Definition _stub_dsl_from_text (text : string) : result DSL :=
  let t := lower (str_or text "") in
  let has (sub : string) : bool := str_contains t sub in
  (* Infer zones from keywords *)
  let zones_list :=
    fold_left
      (fun zones_list '(i, (kw, name, color)) =>
         if has kw || has (lower name)
         then zones_list ++ [stub_zone i name color]
         else zones_list)
      (enumerate zone_keywords) [] in
  let zones_list :=
    if is_nil zones_list then
      [stub_zone 0 "External" "#fff2cc"; stub_zone 1 "Perimeter" "#ffe6cc";
       stub_zone 2 "Internal" "#d5e8d4"]
    else zones_list in
  let zone_ids := map zone_id zones_list in
  (* Trust boundaries between consecutive zones *)
  trust_boundaries_list ←
    for_each
      (fun tbs i =>
         a ← subscript zone_ids i;
         b ← subscript zone_ids (i + 1);
         Ok (tbs ++ [stub_trust_boundary i [a; b]]))
      (seqZ 0 (len zone_ids - 1)) [];
  (* Nodes: infer from keywords *)
  st ← add_node (has "api" || has "gateway") "API Gateway"
         (subscript zone_ids (Z.min 1 (len zone_ids - 1))) "api" ([], 0);
  st ← add_node (has "waf" || has "firewall") "WAF / Firewall"
         (if_else zone_ids (subscript zone_ids 0) "z0") "security_control" st;
  st ← add_node (has "app" || has "application" || has "service")
         "Application Service"
         (if_else zone_ids (subscript zone_ids (-1)) "z2") "service" st;
  st ← add_node (has "database" || has "db" || has "store") "Database"
         (if_else zone_ids (subscript zone_ids (-1)) "z2") "data_store" st;
  st ← add_node (has "identity" || has "idp" || has "oauth")
         "Identity Provider"
         (if_else zone_ids
            (subscript zone_ids (Z.min 1 (len zone_ids - 1))) "z1")
         "identity" st;
  st ← add_node (has "user" || has "client") "User / Client"
         (if_else zone_ids (subscript zone_ids 0) "z0") "external" st;
  nodes_list ←
    (if is_nil st.1 then
       z0 ← subscript zone_ids 0;
       z1 ← subscript zone_ids (-1);
       z2 ← subscript zone_ids (-1);
       Ok [stub_node 0 "Client" z0 "external";
           stub_node 1 "Web App" z1 "service";
           stub_node 2 "Database" z2 "data_store"]
     else Ok st.1);
  (* Flows: connect first few nodes *)
  let node_ids := map node_id nodes_list in
  flows_list ←
    (if 2 <=? len node_ids then
       s ← subscript node_ids 0;
       t ← subscript node_ids 1;
       Ok [stub_flow "f0" s t "api" "HTTPS" "OAuth2" "PII"]
     else Ok []);
  flows_list ←
    (if 3 <=? len node_ids then
       s ← subscript node_ids 1;
       t ← subscript node_ids 2;
       Ok (flows_list
             ++ [stub_flow "f1" s t "data" "TLS" "mTLS" "Confidential"])
     else Ok flows_list);
  (* Optional controls *)
  let controls_list :=
    if has "encrypt" || has "tls" then
      [{| control_id := "c0";
          control_scope := if is_nil node_ids then [] else take 2 node_ids;
          control_type := "Encryption (TLS)" |}]
    else [] in
  Ok {| dsl_title := Some "Security Reference Architecture";
        dsl_zones := Some zones_list;
        dsl_trust_boundaries := Some trust_boundaries_list;
        dsl_groups := Some [];
        dsl_nodes := Some nodes_list;
        dsl_flows := Some flows_list;
        dsl_controls := Some controls_list |}.

(** [bool(s)] of a [str | None] *)
Definition truthy (o : option string) : bool :=
  match o with
  | Some (String _ _) => true
  | _ => false
  end.

(** [x is None] of a JSON value; [None] is [null]. *)
Definition is_None (v : Schema.json) : bool :=
  match v with Schema.JNull => true | _ => false end.

(** The variables of the repair loop *)
Record repair_state := {
  rs_dsl_dict : Schema.json;
  rs_model : option Schema.ArchitectureDSL;
  rs_validation_errors : list string;
  rs_attempt : Z }.

Section text_to_dsl.

(** What [text_to_dsl] takes from outside: [json.loads], which returns the
    value or raises [JSONDecodeError] with a message, and [json.dumps]; the
    schema of [get_json_schema]; the variable [OPENAI_API_KEY] of
    [os.environ]; and the two calls of the language model.  A call of the
    model may answer differently every time: the repair call is given the
    number of the attempt next to its arguments. *)
Context (json_loads : string -> string + Schema.json)
        (json_dumps : Schema.json -> string)
        (get_json_schema : Schema.json)
        (OPENAI_API_KEY : option string)
        (_call_llm_for_dsl :
           string -> string -> string -> Schema.json -> option string)
        (_repair_dsl_with_llm :
           Z -> string -> list string -> Schema.json -> option string).

Definition repair_cond (try_llm : bool) (st : repair_state) : bool :=
  match rs_model st with None => true | Some _ => false end
  && negb (is_nil (rs_validation_errors st))
  && try_llm
  && (rs_attempt st <? MAX_REPAIR_ATTEMPTS).

Definition repair_body (schema : Schema.json) (st : repair_state)
    : result repair_state :=
  let raw_json_str := json_dumps (rs_dsl_dict st) in
  let repaired :=
    _repair_dsl_with_llm (rs_attempt st) raw_json_str
      (rs_validation_errors st) schema in
  let '(dsl_dict, model, validation_errors) :=
    if truthy repaired then
      match json_loads (default "" repaired) with
      | inr dsl_dict =>
          let '(model, validation_errors) := Schema.validate_dsl dsl_dict in
          (dsl_dict, model, validation_errors)
      | inl _ =>
          (rs_dsl_dict st, rs_model st, ["Repair produced invalid JSON"])
      end
    else (rs_dsl_dict st, rs_model st, rs_validation_errors st) in
  Ok {| rs_dsl_dict := dsl_dict; rs_model := model;
        rs_validation_errors := validation_errors;
        rs_attempt := rs_attempt st + 1 |}.

Definition text_to_dsl (text profile detail_level : string)
    (use_llm : option bool) : result (Schema.json * list string) :=
  let errors : list string := [] in
  let schema := get_json_schema in
  let dsl_dict := Schema.JNull in
  let try_llm :=
    match use_llm with Some b => b | None => truthy OPENAI_API_KEY end in
  let '(dsl_dict, errors) :=
    if try_llm then
      let raw_json_str := _call_llm_for_dsl text profile detail_level schema in
      if truthy raw_json_str then
        match json_loads (default "" raw_json_str) with
        | inr v => (v, errors)
        | inl e =>
            (Schema.JNull, errors ++ ["LLM returned invalid JSON: " +:+ e])
        end
      else (dsl_dict, errors)
    else (dsl_dict, errors) in
  '(dsl_dict, errors) ←
    (if is_None dsl_dict && negb try_llm then
       stub ← _stub_dsl_from_text text; Ok (json_of_DSL stub, errors)
     else if is_None dsl_dict && try_llm then
       stub ← _stub_dsl_from_text text;
       Ok (json_of_DSL stub,
           errors ++ ["LLM unavailable or returned invalid response; "
                        +:+ "used stub generator."])
     else Ok (dsl_dict, errors));
  if is_None dsl_dict then
    Ok (Schema.JNull,
        if is_nil errors then ["Failed to produce DSL."] else errors)
  else
    (* Validation and optional repair loop *)
    let '(model, validation_errors) := Schema.validate_dsl dsl_dict in
    st ← while (rounds MAX_REPAIR_ATTEMPTS 0) (repair_cond try_llm)
           (repair_body schema)
           {| rs_dsl_dict := dsl_dict; rs_model := model;
              rs_validation_errors := validation_errors; rs_attempt := 0 |};
    match rs_model st with
    | None => Ok (rs_dsl_dict st, rs_validation_errors st)
    | Some model => Ok (model_dump model, [])
    end.

End text_to_dsl.

(** *** Vocabulary of the statements about the stub *)

(** The model whose dump a payload is, when every key is there *)
Definition model_of_Zone (z : Zone) : Schema.Zone :=
  {| Schema.Zone_id := zone_id z;
     Schema.Zone_name := default "" (zone_name z);
     Schema.Zone_order := default 0 (zone_order z);
     Schema.Zone_color := default "" (zone_color z) |}.

Definition model_of_TrustBoundary (tb : TrustBoundary) : Schema.TrustBoundary :=
  {| Schema.TrustBoundary_id := tb_id tb;
     Schema.TrustBoundary_label := default "" (tb_label tb);
     Schema.TrustBoundary_between_zones := default [] (tb_between_zones tb) |}.

Definition model_of_Node (n : Node) : Schema.Node :=
  {| Schema.Node_id := node_id n;
     Schema.Node_label := default "" (node_label n);
     Schema.Node_zone := default "" (node_zone n);
     Schema.Node_type := default "" (node_type n);
     Schema.Node_tags := node_tags n |}.

Definition model_of_Group (g : Group) : Schema.Group :=
  {| Schema.Group_id := group_id g; Schema.Group_label := group_label g;
     Schema.Group_zone := group_zone g;
     Schema.Group_children := group_children g |}.

Definition model_of_Flow (f : Flow) : Schema.Flow :=
  {| Schema.Flow_id := default "" (flow_id f);
     Schema.Flow_source := default "" (flow_source f);
     Schema.Flow_target := default "" (flow_target f);
     Schema.Flow_flow_type := default "" (flow_type f);
     Schema.Flow_protocol := default "" (flow_protocol f);
     Schema.Flow_auth := default "" (flow_auth f);
     Schema.Flow_data_class := default "" (flow_data_class f);
     Schema.Flow_label := flow_label f |}.

Definition model_of_Control (c : Control) : Schema.Control :=
  {| Schema.Control_id := control_id c;
     Schema.Control_scope := control_scope c;
     Schema.Control_control_type := control_type c |}.

Definition model_of (d : DSL) : Schema.ArchitectureDSL :=
  {| Schema.ArchitectureDSL_title := dsl_title d;
     Schema.ArchitectureDSL_zones :=
       map model_of_Zone (_ensure_list (dsl_zones d));
     Schema.ArchitectureDSL_trust_boundaries :=
       map model_of_TrustBoundary (_ensure_list (dsl_trust_boundaries d));
     Schema.ArchitectureDSL_groups :=
       map model_of_Group (_ensure_list (dsl_groups d));
     Schema.ArchitectureDSL_nodes :=
       map model_of_Node (_ensure_list (dsl_nodes d));
     Schema.ArchitectureDSL_flows :=
       map model_of_Flow (_ensure_list (dsl_flows d));
     Schema.ArchitectureDSL_controls :=
       map model_of_Control (_ensure_list (dsl_controls d)) |}.

(** The entries of a stub *)
Definition is_stub_zone (z : Zone) : Prop :=
  exists i name color, z = stub_zone i name color /\ 0 <= i.

Definition is_stub_trust_boundary (zone_ids : list string)
    (tb : TrustBoundary) : Prop :=
  exists i j a b,
    tb = stub_trust_boundary i [a; b]
    /\ zone_ids !! j = Some a /\ zone_ids !! S j = Some b.

Definition is_stub_node (zone_ids : list string) (n : Node) : Prop :=
  exists k label zone type,
    n = stub_node k label zone type
    /\ zone ∈ zone_ids /\ type ∈ Schema.NodeType.

Definition is_stub_flow (node_ids : list string) (f : Flow) : Prop :=
  exists id i s t type protocol auth data_class,
    f = stub_flow id s t type protocol auth data_class
    /\ node_ids !! i = Some s /\ node_ids !! S i = Some t
    /\ type ∈ Schema.FlowType.

(** The ids of the nodes of the stub, in order *)
Definition numbered (prefix : string) (n : Z) : list string :=
  (fun k => prefix +:+ pretty k) <$> seqZ 0 n.

(** An environment without a language model: no key, no answer; nothing
    parses. *)
Definition no_json (s : string) : string + Schema.json :=
  inl "Expecting value: line 1 column 1 (char 0)".

Definition no_answer (text profile detail_level : string)
    (schema : Schema.json) : option string := None.

Definition no_repair (attempt : Z) (current_json : string)
    (validation_errors : list string) (schema : Schema.json)
    : option string := None.

Definition sample_text : string :=
  "Users reach an API gateway in the DMZ; the application keeps a database.".

(* ------------------------------------------------------------------------- *)
(** ** Vocabulary of the further properties                                   *)
(* ------------------------------------------------------------------------- *)

(** *** Normal forms of zone ids *)

(** [s] is made of the characters [a-z0-9_] and has no two underscores in a
    row; when [after_underscore], it does not start with one either. *)
Fixpoint slug (after_underscore : bool) (s : string) : bool :=
  match s with
  | EmptyString => true
  | String c s' =>
      if is_underscore c then negb after_underscore && slug true s'
      else is_lower_alnum c && slug false s'
  end.

Fixpoint last_char (s : string) : option ascii :=
  match s with
  | EmptyString => None
  | String c EmptyString => Some c
  | String _ s' => last_char s'
  end.

(** Lowercase snake case: words of [a-z0-9] joined by single underscores *)
Definition snake_case (s : string) : Prop :=
  s <> "" /\ slug true s = true /\ last_char s <> Some "_"%char.

(** Every character of [s] satisfies [p]. *)
Fixpoint all_chars (p : ascii -> bool) (s : string) : bool :=
  match s with
  | EmptyString => true
  | String c s' => p c && all_chars p s'
  end.

(** *** The graph a call returns *)

(** The zones after the renaming loop, and the nodes after the node loop *)
Definition normalized_zones (dsl : DSL) : list Zone := (renamed_zones dsl).2.

Definition remapped_nodes (dsl : DSL) : list Node :=
  map (fun n => node_set_zone n (remapped_zone dsl n))
    (_ensure_list (dsl_nodes dsl)).

(** The graph as it stands before the density expansion *)
Definition normalized (dsl : DSL) : DSL :=
  dsl_with dsl (normalized_zones dsl) (remapped_nodes dsl)
    (_ensure_list (dsl_flows dsl)) (_ensure_list (dsl_trust_boundaries dsl)).

(** The zones a collection of [n] zones is filled up with to reach [goal] *)
Definition synthesized_zones (n goal : Z) : list Zone :=
  placeholder_zone <$> seqZ n (goal - n).

(** The nodes a collection of [n] nodes is filled up with: node [k] goes to
    the zone at position [k mod len zone_order]. *)
Definition round_robin_node (zone_order : list Zone) (k : Z) : Node :=
  placeholder_node k
    (from_option zone_id "" (zone_order !! Z.to_nat (k mod len zone_order))).

Definition synthesized_nodes (zone_order : list Zone) (n goal : Z)
    : list Node :=
  round_robin_node zone_order <$> seqZ n (goal - n).

(** The ids of [xs] without repetitions, each at its first occurrence: the
    keys of a [dict] that was assigned the ids in this order *)
Definition first_occurrences (xs : list string) : list string :=
  fold_left (fun ks k => if bool_decide (k ∈ ks) then ks else ks ++ [k]) xs [].

(** The flows a collection of [n] flows is filled up with: flow [k] joins the
    ids at positions [i] and [i + 1] of [node_list], for
    [i = k mod (len node_list - 1)]; none when there are fewer than two ids. *)
Definition consecutive_flow (node_list : list string) (k : Z) : Flow :=
  let i := Z.to_nat (k mod (len node_list - 1)) in
  placeholder_flow k (default "" (node_list !! i))
    (default "" (node_list !! S i)).

Definition synthesized_flows (node_list : list string) (n goal : Z)
    : list Flow :=
  if 2 <=? len node_list then consecutive_flow node_list <$> seqZ n (goal - n)
  else [].

(** [node_by_id] after the nodes [ns] were entered *)
Definition enter_nodes (ns : list Node) (node_by_id : odict.t Node)
    : odict.t Node :=
  fold_left (fun d n => odict.set (node_id n) n d) ns node_by_id.

(** A trust boundary between two zones that are neighbours in [zones] *)
Definition separates_neighbours (zones : list Zone) (tb : TrustBoundary)
    : Prop :=
  exists i za zb,
    zones !! i = Some za /\ zones !! S i = Some zb
    /\ tb_between_zones tb = Some [zone_id za; zone_id zb].

(** The message of the hard minimum *)
Definition too_few_nodes (min_nodes_hard found : Z) : string :=
  "At least " +:+ pretty min_nodes_hard +:+ " node(s) are required (found "
    +:+ pretty found +:+ ").".

Definition sparse (dsl : DSL) (min_zones min_nodes min_flows : Z) : bool :=
  (len (_ensure_list (dsl_zones dsl)) <? min_zones)
  || (len (_ensure_list (dsl_nodes dsl)) <? min_nodes)
  || (len (_ensure_list (dsl_flows dsl)) <? min_flows).

(** How many of the zones [zs] canonicalize to [c] *)
Definition canonical_count (c : string) (zs : list Zone) : Z :=
  len (filter (fun z => _canonical_zone_id (zone_id z) = c) zs).

(** The id a zone is given when the zones [earlier] were renamed before it:
    its canonical id, followed by [_k] when [k] earlier zones have the same
    canonical id *)
Definition renamed_id (earlier : list Zone) (z : Zone) : string :=
  let c := _canonical_zone_id (zone_id z) in
  let k := canonical_count c earlier in
  if k =? 0 then c else c +:+ "_" +:+ pretty k.

(** The graph the expansion starts from: nothing of the payload when its
    zone list is empty, the normalized payload otherwise *)
Definition expansion_base (dsl : DSL) : DSL :=
  if is_nil (_ensure_list (dsl_zones dsl)) then dsl_with dsl [] [] [] []
  else normalized dsl.

(** [g] is [base] with its collections filled up to the thresholds. *)
Definition filled_up (base : DSL) (min_zones min_nodes min_flows : Z)
    (g : DSL) : Prop :=
  let zones0 := _ensure_list (dsl_zones base) in
  let nodes0 := _ensure_list (dsl_nodes base) in
  let flows0 := _ensure_list (dsl_flows base) in
  let tbs0 := _ensure_list (dsl_trust_boundaries base) in
  let zones := zones0 ++ synthesized_zones (len zones0) min_zones in
  let nodes :=
    nodes0 ++ synthesized_nodes (sorted zones order_key) (len nodes0)
                min_nodes in
  let flows :=
    flows0 ++ synthesized_flows (first_occurrences (map node_id nodes))
                (len flows0) min_flows in
  (exists tbs,
     g = dsl_with base zones nodes flows (tbs0 ++ tbs)
     /\ Forall (separates_neighbours zones) tbs
     /\ len tbs = Z.max 0 (min_zones - Z.max 1 (len zones0)))
  /\ (len nodes0 < min_nodes -> zones <> []).

(** A node whose zone is neither an id of the zone list as the caller wrote
    it nor an id of the renamed zones *)
Definition names_unknown_zone (dsl : DSL) (n : Node) : Prop :=
  let zid := get_or (node_zone n) "" in
  (zid ∉ map zone_id (_ensure_list (dsl_zones dsl)))
  /\ (zid ∉ map zone_id (normalized_zones dsl)).

#[global] Instance names_unknown_zone_dec dsl n :
  Decision (names_unknown_zone dsl n).
Proof. unfold names_unknown_zone. apply _. Defined.

(** Two zones and no node *)
Definition no_node_dsl : DSL :=
  mk_dsl [mk_zone "edge" 0; mk_zone "core" 1] [] [].

(** Five zones, each with five nodes, and twenty flows between them *)
Definition dense_dsl : DSL :=
  let ks := seqZ 0 25 in
  mk_dsl ((fun k => mk_zone ("z" +:+ pretty k) k) <$> seqZ 0 5)
    ((fun k => mk_node ("n" +:+ pretty k) ("z" +:+ pretty (k mod 5))) <$> ks)
    ((fun k => mk_flow ("f" +:+ pretty k) ("n" +:+ pretty k)
                 ("n" +:+ pretty (k + 1))) <$> seqZ 0 20).

(** The record the call logs after an expansion *)
Definition expanded_record (g : DSL) : level * string :=
  (INFO, "DSL expanded to meet density: zones="
           +:+ pretty (len (_ensure_list (dsl_zones g)))
           +:+ ", nodes=" +:+ pretty (len (_ensure_list (dsl_nodes g)))
           +:+ ", flows=" +:+ pretty (len (_ensure_list (dsl_flows g)))).

(** Number of the nodes [ns] that sit in the zone [zid] *)
Definition nodes_in (zid : string) (ns : list Node) : Z :=
  len (filter (fun n => default "" (node_zone n) = zid) ns).

(** Two zones; every node sits in the first. *)
Definition idle_zone_dsl : DSL :=
  mk_dsl [mk_zone "Edge" 0; mk_zone "Core" 1]
         [mk_node "gw" "Edge"; mk_node "waf" "Edge"] [].

(** A flow from a node of the payload to an id that no node has *)
Definition stray_flow_dsl : DSL :=
  mk_dsl [mk_zone "z0" 0] [mk_node "n0" "z0"] [mk_flow "f0" "n0" "ghost"].

(** *** The cells of a document *)

(** [e.get(k)]: the attribute [k] of an element *)
Definition attr (k : string) (e : Element) : option string :=
  match e with
  | Elem _ attrib _ =>
      snd <$> List.find (fun kv => bool_decide (kv.1 = k)) attrib
  end.

Definition cell_id_of (e : Element) : string := default "" (attr "id" e).







(** The two cells of the root layer *)
Definition root_layer : list Element :=
  [Elem "mxCell" [("id", "0")] [];
   Elem "mxCell" [("id", "1"); ("parent", "0")] []].


(** The swimlane of a zone, the shape of a node and the edge of a flow, with
    whatever id, parent and position *)
Definition zone_cell (z : Zone) (c : Element) : Prop :=
  exists cell_id x y w h,
    c = _add_cell cell_id "1" (get_or (zone_name z) (zone_id z))
          ("swimlane;horizontal=1;startSize=" +:+ pretty ZONE_HEADER_HEIGHT
             +:+ ";fillColor=" +:+ strip (get_or (zone_color z) "#dae8fc")
             +:+ ";strokeColor=#6c8ebf;fontStyle=1;fontSize=12;"
             +:+ "whiteSpace=wrap;html=1;")
          true false x y w h "0" None None.

Definition node_cell (n : Node) (c : Element) : Prop :=
  exists cell_id parent_id x y,
    c = _add_cell cell_id parent_id (default (node_id n) (node_label n))
          (_node_style (default "app" (node_type n))) true false
          (Int x) (Int y) (Int NODE_W) (Int NODE_H) "1" None None.

Definition edge_cell (f : Flow) (c : Element) : Prop :=
  exists cell_id src_cell tgt_cell,
    c = _add_cell cell_id "1" (_flow_label f)
          (_flow_style (default "generic" (flow_type f))) false true
          (Int 0) (Int 0) (Int 0) (Int 0) "1" (Some src_cell) (Some tgt_cell).

(** The nodes [ns] each have a cell and an entry in [node_cell_ids]. *)
Definition nodes_drawn (ns : list Node) (st : cells_state) : Prop :=
  forall n, n ∈ ns ->
    (exists c, c ∈ cells st /\ node_cell n c)
    /\ is_Some (cell_ids st !! node_id n).

(** The heights of the bands above the [k]-th of [zones], summed *)
Definition band_top (nodes_in_zone : gmap string (list Node))
    (zones : list Zone) (k : nat) : Z :=
  foldr Z.add 0
    (map (fun z => zone_height_of nodes_in_zone (zone_id z)) (take k zones)).

(** The swimlane of the zone [z] when it is the [k]-th of [zones]: the
    [k]-th cell the counter numbers, as wide as the canvas, as high as its
    rows need, and right below the bands of the zones before it *)
Definition band_cell (nodes_in_zone : gmap string (list Node))
    (zones : list Zone) (k : nat) (z : Zone) : Element :=
  _add_cell ("zone-" +:+ pretty (Z.of_nat k + 1)) "1"
    (get_or (zone_name z) (zone_id z))
    ("swimlane;horizontal=1;startSize=" +:+ pretty ZONE_HEADER_HEIGHT
       +:+ ";fillColor=" +:+ strip (get_or (zone_color z) "#dae8fc")
       +:+ ";strokeColor=#6c8ebf;fontStyle=1;fontSize=12;"
       +:+ "whiteSpace=wrap;html=1;")
    true false (Int 0) (Float (band_top nodes_in_zone zones k))
    (Int zone_width) (Int (zone_height_of nodes_in_zone (zone_id z))) "0"
    None None.

(** The payload [dsl] with another title, other groups and other controls *)
Definition with_meta (dsl : DSL) (title : option string)
    (groups : option (list Group)) (controls : option (list Control)) : DSL :=
  {| dsl_title := title; dsl_zones := dsl_zones dsl;
     dsl_trust_boundaries := dsl_trust_boundaries dsl; dsl_groups := groups;
     dsl_nodes := dsl_nodes dsl; dsl_flows := dsl_flows dsl;
     dsl_controls := controls |}.

(* ------------------------------------------------------------------------- *)
(** ** Loops                                                                  *)
(* ------------------------------------------------------------------------- *)

Lemma bind_Ok {A B} (m : result A) (k : A -> result B) (b : B) :
  m ≫= k = Ok b -> exists a, m = Ok a /\ k a = Ok b.
Proof.
  destruct m as [a| |]; unfold mbind, result_bind;
    [eauto | discriminate | discriminate].
Qed.

Ltac inv_bind H :=
  let a := fresh "a" in
  let Ha := fresh "Ha" in
  apply bind_Ok in H; destruct H as (a & Ha & H).

Section while_loops.
Context {S : Type} (cond : S -> bool) (body : S -> result S).

(** What holds when a loop has ended *)
Lemma while_ok_inv (I : S -> Prop) fuel s s' :
  I s ->
  (forall s s', I s -> cond s = true -> body s = Ok s' -> I s') ->
  while fuel cond body s = Ok s' ->
  I s' /\ cond s' = false.
Proof.
  intros HI Hstep. revert s HI.
  induction fuel as [|fuel IH]; intros s HI; simpl;
    destruct (cond s) eqn:Hc; try discriminate.
  - intros [= <-]; auto.
  - intros H. inv_bind H. eauto.
  - intros [= <-]; auto.
Qed.

(** A loop whose body succeeds and lowers a measure ends within as many
    rounds as the measure counts. *)
Lemma while_enough_fuel (I : S -> Prop) (mu : S -> nat) fuel s :
  I s ->
  (forall s, I s -> cond s = true ->
             exists s', body s = Ok s' /\ I s' /\ (mu s' < mu s)%nat) ->
  (mu s <= fuel)%nat ->
  exists s', while fuel cond body s = Ok s'.
Proof.
  intros HI Hstep. revert s HI.
  induction fuel as [|fuel IH]; intros s HI Hmu; simpl;
    destruct (cond s) eqn:Hc; eauto.
  - destruct (Hstep s HI Hc) as (s' & _ & _ & Hlt). lia.
  - destruct (Hstep s HI Hc) as (s' & -> & HI' & Hlt). simpl.
    apply IH; [done | lia].
Qed.
End while_loops.

Section for_loops.
Context {S X : Type} (body : S -> X -> result S).

Lemma for_each_ok_inv (I : S -> Prop) xs s s' :
  I s ->
  (forall s x s', I s -> x ∈ xs -> body s x = Ok s' -> I s') ->
  for_each body xs s = Ok s' -> I s'.
Proof.
  revert s. induction xs as [|x xs IH]; intros s HI Hstep; simpl.
  - intros [= <-]; auto.
  - intros H. inv_bind H. eapply IH; [| |exact H].
    + eapply Hstep; [done | left | done].
    + intros ? ? ? ? ?. apply Hstep; [done | by right].
Qed.

(** [I done s]: holds of the state [s] reached after the entries [done] *)
Lemma for_each_total (I : list X -> S -> Prop) xs s :
  I [] s ->
  (forall done x s, I done s -> x ∈ xs ->
                    exists s', body s x = Ok s' /\ I (done ++ [x]) s') ->
  exists s', for_each body xs s = Ok s' /\ I xs s'.
Proof.
  intros HI Hstep.
  cut (forall rest done s,
         I done s -> (forall x, x ∈ rest -> x ∈ xs) ->
         exists s', for_each body rest s = Ok s' /\ I (done ++ rest) s').
  { intros H. apply (H xs [] s HI). auto. }
  clear s HI.
  induction rest as [|x rest IH]; intros done s HI Hin; simpl.
  - exists s. by rewrite app_nil_r.
  - destruct (Hstep done x s HI) as (s1 & -> & HI1); [apply Hin; left|].
    simpl. destruct (IH (done ++ [x]) s1 HI1) as (s2 & -> & HI2).
    { intros y Hy. apply Hin. by right. }
    exists s2. by rewrite <- app_assoc in HI2.
Qed.
End for_loops.

Lemma len_app {A} (l k : list A) : len (l ++ k) = len l + len k.
Proof. unfold len. rewrite length_app. lia. Qed.

Lemma len_nonneg {A} (l : list A) : 0 <= len l.
Proof. unfold len. lia. Qed.

(** *** The insertion-ordered dictionary *)

Lemma odict_keys_set {V} k (v : V) d :
  odict.keys (odict.set k v d) =
    if bool_decide (k ∈ odict.keys d) then odict.keys d
    else odict.keys d ++ [k].
Proof.
  unfold odict.keys. induction d as [|[k' v'] d IH]; simpl; [done|].
  destruct (decide (k' = k)) as [->|Hk].
  - rewrite !bool_decide_true; [done | apply list_elem_of_here | done].
  - rewrite (bool_decide_false (k' = k)) by done. simpl. rewrite IH.
    destruct (decide (k ∈ map fst d)) as [Hin|Hin].
    + rewrite !bool_decide_true; [done | by apply list_elem_of_further | done].
    + rewrite !bool_decide_false; [done | | done].
      intros [->|?]%elem_of_cons; done.
Qed.

Lemma odict_keys_set_elem {V} k (v : V) d x :
  x ∈ odict.keys (odict.set k v d) <-> x = k \/ x ∈ odict.keys d.
Proof.
  rewrite odict_keys_set. case_bool_decide; [naive_solver|].
  rewrite elem_of_app, list_elem_of_singleton. naive_solver.
Qed.

Lemma odict_keys_set_NoDup {V} k (v : V) d :
  NoDup (odict.keys d) -> NoDup (odict.keys (odict.set k v d)).
Proof.
  intros Hd. rewrite odict_keys_set. case_bool_decide; [done|].
  apply NoDup_app. split_and!; [done | | apply NoDup_singleton].
  intros x Hx ->%list_elem_of_singleton. done.
Qed.

Lemma odict_comprehension_keys {X V} (key : X -> string) (val : X -> V) xs :
  NoDup (odict.keys (odict.comprehension key val xs))
  /\ forall k, k ∈ odict.keys (odict.comprehension key val xs)
               <-> k ∈ map key xs.
Proof.
  unfold odict.comprehension.
  set (step := fun d x => odict.set (key x) (val x) d).
  cut (forall d, NoDup (odict.keys d) ->
         NoDup (odict.keys (fold_left step xs d))
         /\ forall k, k ∈ odict.keys (fold_left step xs d)
                      <-> k ∈ odict.keys d \/ k ∈ map key xs).
  { intros H. destruct (H [] (NoDup_nil_2)) as [H1 H2]. split; [done|].
    intros k. rewrite H2. simpl. rewrite elem_of_nil. naive_solver. }
  induction xs as [|x xs IH]; intros d Hd; simpl.
  - split; [done|]. intros k. rewrite elem_of_nil. naive_solver.
  - destruct (IH (step d x)) as [H1 H2].
    { by apply odict_keys_set_NoDup. }
    split; [done|]. intros k. rewrite H2. unfold step.
    rewrite odict_keys_set_elem, elem_of_cons. naive_solver.
Qed.

(** Two duplicate-free lists with the same elements have the same length. *)
Lemma len_NoDup_eq (l k : list string) :
  NoDup l -> NoDup k -> (forall x, x ∈ l <-> x ∈ k) -> len l = len k.
Proof.
  intros Hl Hk H. unfold len. f_equal.
  apply Permutation_length, NoDup_Permutation; auto.
Qed.

Lemma len_keys_distinct {V} (d : odict.t V) (ids : list string) :
  NoDup (odict.keys d) -> (forall x, x ∈ odict.keys d <-> x ∈ ids) ->
  len (odict.keys d) = len (remove_dups ids).
Proof.
  intros Hd H. apply len_NoDup_eq; [done | apply NoDup_remove_dups |].
  intros x. rewrite H. by rewrite elem_of_remove_dups.
Qed.

(** *** The bodies of the three loops of [_expand_dsl_to_density] *)

Lemma item_Ok {A} (xs : list A) i x :
  item xs i = Ok x <-> xs !! Z.to_nat i = Some x.
Proof. unfold item. destruct (xs !! Z.to_nat i); naive_solver. Qed.

Lemma item_total {A} (xs : list A) i :
  0 <= i < len xs -> exists x, item xs i = Ok x /\ x ∈ xs.
Proof.
  intros Hi. unfold item, len in *.
  destruct (lookup_lt_is_Some_2 xs (Z.to_nat i)) as [x Hx]; [lia|].
  rewrite Hx. eauto using list_elem_of_lookup_2.
Qed.

Lemma py_mod_Ok a b r : py_mod a b = Ok r <-> b <> 0 /\ r = a mod b.
Proof. unfold py_mod. destruct (Z.eqb_spec b 0); naive_solver. Qed.

Lemma zone_loop_body_total st :
  exists st', zone_loop_body st = Ok st'.
Proof.
  unfold zone_loop_body. fold (placeholder_zone (zl_next_z st)).
  set (zones := zl_zones st ++ [placeholder_zone (zl_next_z st)]).
  destruct (Z.leb_spec 2 (len zones)) as [H2|H2]; [|eauto].
  destruct (item_total zones (len zones - 2)) as (prev & -> & _); [lia|].
  simpl. eauto.
Qed.

Lemma zone_loop_body_Ok st st' :
  zone_loop_body st = Ok st' ->
  zl_zones st' = zl_zones st ++ [placeholder_zone (zl_next_z st)]
  /\ zl_next_z st' = zl_next_z st + 1.
Proof.
  unfold zone_loop_body. intros H. inv_bind H. by injection H as <-.
Qed.

Lemma node_loop_body_Ok zone_order st st' :
  node_loop_body zone_order st = Ok st' ->
  exists z, z ∈ zone_order
    /\ nl_nodes st' =
         nl_nodes st ++ [placeholder_node (nl_next_n st) (zone_id z)]
    /\ nl_node_by_id st' =
         odict.set ("node_" +:+ pretty (nl_next_n st))
           (placeholder_node (nl_next_n st) (zone_id z)) (nl_node_by_id st)
    /\ nl_next_n st' = nl_next_n st + 1.
Proof.
  unfold node_loop_body. intros H. inv_bind H. inv_bind H.
  injection H as <-. apply item_Ok in Ha0.
  exists a0. split; [by eapply list_elem_of_lookup_2|]. done.
Qed.

Lemma node_loop_body_total zone_order st :
  zone_order <> [] -> 0 <= nl_next_n st ->
  exists st', node_loop_body zone_order st = Ok st'.
Proof.
  intros Hne Hn. unfold node_loop_body, py_mod.
  assert (0 < len zone_order)
    by (destruct zone_order; [done | unfold len; simpl; lia]).
  destruct (Z.eqb_spec (len zone_order) 0) as [|_]; [lia|]. simpl.
  destruct (item_total zone_order (nl_next_n st mod len zone_order))
    as (z & -> & _); [apply Z.mod_pos_bound; lia|].
  simpl. eauto.
Qed.

Lemma flow_loop_body_Ok node_list st st' :
  flow_loop_body node_list st = Ok st' ->
  exists s t, s ∈ node_list /\ t ∈ node_list
    /\ fl_flows st' = fl_flows st ++ [placeholder_flow (fl_next_f st) s t]
    /\ fl_next_f st' = fl_next_f st + 1.
Proof.
  unfold flow_loop_body. intros H. inv_bind H. inv_bind H. inv_bind H.
  injection H as <-. apply item_Ok in Ha0, Ha1.
  exists a0, a1. split_and!; try done; by eapply list_elem_of_lookup_2.
Qed.

Lemma flow_loop_body_total node_list st :
  2 <= len node_list -> 0 <= fl_next_f st ->
  exists st', flow_loop_body node_list st = Ok st'.
Proof.
  intros Hne Hn. unfold flow_loop_body, py_mod.
  destruct (Z.eqb_spec (len node_list - 1) 0) as [|_]; [lia|]. simpl.
  pose proof (Z.mod_pos_bound (fl_next_f st) (len node_list - 1)).
  destruct (item_total node_list (fl_next_f st mod (len node_list - 1)))
    as (s & -> & _); [lia|]. simpl.
  destruct (item_total node_list (fl_next_f st mod (len node_list - 1) + 1))
    as (t & -> & _); [lia|]. simpl. eauto.
Qed.

(** *** [sorted] keeps the entries *)

Lemma insert_by_elem_of {A} (key : A -> Z) x y l :
  y ∈ insert_by key x l <-> y = x \/ y ∈ l.
Proof.
  induction l as [|z l IH]; simpl.
  - rewrite list_elem_of_singleton, elem_of_nil. naive_solver.
  - destruct (key x <=? key z); rewrite !elem_of_cons; [done|].
    rewrite IH. naive_solver.
Qed.

Lemma sorted_elem_of {A} (key : A -> Z) l x : x ∈ sorted l key <-> x ∈ l.
Proof.
  unfold sorted. induction l as [|y l IH]; simpl; [done|].
  rewrite insert_by_elem_of, elem_of_cons, IH. done.
Qed.

Lemma insert_by_length {A} (key : A -> Z) x l :
  length (insert_by key x l) = S (length l).
Proof.
  induction l as [|z l IH]; simpl; [done|].
  destruct (key x <=? key z); simpl; [done | by rewrite IH].
Qed.

Lemma sorted_length {A} (key : A -> Z) l : length (sorted l key) = length l.
Proof.
  unfold sorted. induction l as [|y l IH]; simpl; [done|].
  by rewrite insert_by_length, IH.
Qed.

Lemma sorted_nil_iff {A} (key : A -> Z) l : sorted l key = [] <-> l = [].
Proof.
  rewrite <- !length_zero_iff_nil. by rewrite sorted_length.
Qed.

Lemma is_nil_true {A} (l : list A) : is_nil l = true <-> l = [].
Proof. by destruct l. Qed.

Lemma is_nil_false {A} (l : list A) : is_nil l = false <-> l <> [].
Proof. by destruct l. Qed.

(** *** What [_expand_dsl_to_density] returns *)

Lemma node_loop_keeps_keys zone_order st st' :
  keyed_by_ids st -> node_loop_body zone_order st = Ok st' -> keyed_by_ids st'.
Proof.
  intros [Hnd Hk] (z & _ & Hn & Hd & _)%node_loop_body_Ok.
  unfold keyed_by_ids. rewrite Hn, Hd. split.
  - by apply odict_keys_set_NoDup.
  - intros x. rewrite odict_keys_set_elem, map_app, elem_of_app, Hk. simpl.
    rewrite list_elem_of_singleton. naive_solver.
Qed.

Lemma expand_density dsl zone_ids node_by_id min_zones min_nodes min_flows g :
  _expand_dsl_to_density dsl zone_ids node_by_id min_zones min_nodes min_flows
    = Ok g ->
  NoDup (odict.keys node_by_id) ->
  (forall x, x ∈ odict.keys node_by_id
             <-> x ∈ map node_id (default [] (dsl_nodes dsl))) ->
  min_zones <= len (_ensure_list (dsl_zones g))
  /\ min_nodes <= len (_ensure_list (dsl_nodes g))
  /\ (2 <= distinct_node_ids g
      -> min_flows <= len (_ensure_list (dsl_flows g))).
Proof.
  unfold _expand_dsl_to_density. intros H Hnd Hkeys.
  inv_bind H. rename a into zst, Ha into Hz.
  inv_bind H. rename a into nst, Ha into Hn.
  inv_bind H. rename a into fst_, Ha into Hf.
  injection H as <-. unfold distinct_node_ids, node_ids_of. simpl.
  apply (while_ok_inv _ _ (fun _ => True)) in Hz as [_ Hz]; [|done..].
  apply (while_ok_inv _ _ keyed_by_ids) in Hn as [[Hnd' Hk'] Hn];
    [|done|eauto using node_loop_keeps_keys].
  apply (while_ok_inv _ _ (fun _ => True)) in Hf as [_ Hf]; [|done..].
  apply Z.ltb_ge in Hz, Hn. split_and!; [done..|].
  intros H2. rewrite <- (len_keys_distinct _ _ Hnd' Hk') in H2.
  apply andb_false_iff in Hf as [Hf|Hf]; [by apply Z.ltb_ge in Hf|].
  apply Z.leb_gt in Hf. lia.
Qed.

(* ------------------------------------------------------------------------- *)
(** ** Density                                                                *)
(* ------------------------------------------------------------------------- *)

(** C2, as stated, fails.  With thresholds of one zone, one node and one
    flow, a graph of one zone and one node is returned with no flow; and with
    the default thresholds, so is a graph whose twenty-five nodes share one
    id.  The flow loop only runs when at least two node ids are known. *)
Lemma density_flows_counterexample :
  (exists g,
     returned (validate_and_prepare_dsl one_node_dsl 1 1 1 1 true)
       = Ok (Some g, [])
     /\ ~ (1 <= len (_ensure_list (dsl_zones g))
           /\ 1 <= len (_ensure_list (dsl_nodes g))
           /\ 1 <= len (_ensure_list (dsl_flows g))))
  /\ (exists g,
        returned (prepare repeated_id_dsl) = Ok (Some g, [])
        /\ ~ (MIN_ZONES <= len (_ensure_list (dsl_zones g))
              /\ MIN_NODES <= len (_ensure_list (dsl_nodes g))
              /\ MIN_FLOWS <= len (_ensure_list (dsl_flows g)))).
Proof.
  split.
  - eexists. split; [vm_compute; reflexivity|].
    vm_compute. intros (_ & _ & H). by apply H.
  - eexists. split; [vm_compute; reflexivity|].
    vm_compute. intros (_ & _ & H). by apply H.
Qed.

(** C2, amended: with expansion enabled, a returned graph has at least
    [min_zones] zones and [min_nodes] nodes, and at least [min_flows] flows
    whenever its nodes carry two different ids or more. *)
Theorem density_guarantee dsl min_zones min_nodes min_flows min_nodes_hard g :
  returned (validate_and_prepare_dsl dsl min_zones min_nodes min_flows
              min_nodes_hard true) = Ok (Some g, []) ->
  min_zones <= len (_ensure_list (dsl_zones g))
  /\ min_nodes <= len (_ensure_list (dsl_nodes g))
  /\ (2 <= distinct_node_ids g
      -> min_flows <= len (_ensure_list (dsl_flows g))).
Proof.
  unfold validate_and_prepare_dsl.
  destruct (is_nil (sorted (_ensure_list (dsl_zones dsl)) order_key)); simpl.
  { intros H. inv_bind H. injection H as <-.
    eapply expand_density; [exact Ha | apply NoDup_nil_2 | done]. }
  destruct (fold_left rename_zone _ _) as [[zone_id_map seen] zones].
  destruct (fold_left (remap_node _ _) _ _) as [nodes errors].
  destruct (is_nil errors); simpl; [|by destruct errors].
  destruct (len nodes <? min_nodes_hard); simpl; [discriminate|].
  destruct ((len zones <? min_zones) || (len nodes <? min_nodes)
            || (len (_ensure_list (dsl_flows dsl)) <? min_flows)) eqn:Hsparse.
  - destruct (_expand_dsl_to_density _ _ _ _ _ _) as [g'| |] eqn:Hexp;
      simpl; try discriminate.
    intros [= ->]. eapply expand_density; [exact Hexp|..];
      apply odict_comprehension_keys.
  - intros [= <-]. simpl.
    apply orb_false_iff in Hsparse as [[Hz Hn]%orb_false_iff Hf].
    apply Z.ltb_ge in Hz, Hn, Hf. done.
Qed.

Lemma density_guarantee_witness :
  exists g,
    returned (prepare two_zone_dsl) = Ok (Some g, [])
    /\ MIN_ZONES <= len (_ensure_list (dsl_zones g))
    /\ MIN_NODES <= len (_ensure_list (dsl_nodes g))
    /\ (2 <= distinct_node_ids g
        -> MIN_FLOWS <= len (_ensure_list (dsl_flows g))).
Proof.
  eexists. split; [vm_compute; reflexivity|].
  apply (density_guarantee two_zone_dsl MIN_ZONES MIN_NODES MIN_FLOWS
           MIN_NODES_HARD).
  vm_compute. reflexivity.
Defined.

(* ------------------------------------------------------------------------- *)
(** ** Expansion from an empty zone list                                      *)
(* ------------------------------------------------------------------------- *)

Lemma len_snoc {A} (l : list A) x : len (l ++ [x]) = len l + 1.
Proof. by rewrite len_app. Qed.

Lemma while_total_inv {S} (cond : S -> bool) (body : S -> result S)
    (I : S -> Prop) (mu : S -> nat) fuel s :
  I s ->
  (forall s, I s -> cond s = true ->
             exists s', body s = Ok s' /\ I s' /\ (mu s' < mu s)%nat) ->
  (mu s <= fuel)%nat ->
  exists s', while fuel cond body s = Ok s' /\ I s' /\ cond s' = false.
Proof.
  intros HI Hstep Hmu.
  destruct (while_enough_fuel cond body I mu fuel s) as [s' Hs']; [done..|].
  exists s'. split; [done|].
  eapply while_ok_inv; [exact HI| |exact Hs'].
  intros s1 s2 H1 Hc Hb. destruct (Hstep s1 H1 Hc) as (s3 & Hb' & H3 & _).
  congruence.
Qed.

Lemma expand_from_empty d min_zones min_nodes min_flows :
  0 < min_zones \/ min_nodes <= 0 ->
  exists zs ns fs tbs,
    _expand_dsl_to_density (dsl_with d [] [] [] []) [] []
      min_zones min_nodes min_flows = Ok (dsl_with d zs ns fs tbs)
    /\ Forall is_placeholder_zone zs
    /\ Forall (is_placeholder_node zs) ns
    /\ Forall (is_placeholder_flow ns) fs.
Proof.
  intros Hmin. unfold _expand_dsl_to_density. simpl.
  (* zones *)
  destruct (while_total_inv
              (fun st => len (zl_zones st) <? min_zones) zone_loop_body
              (fun st => Forall is_placeholder_zone (zl_zones st)
                         /\ zl_next_z st = len (zl_zones st))
              (fun st => rounds min_zones (len (zl_zones st)))
              (rounds min_zones (len (@nil Zone)))
              {| zl_zones := []; zl_trust_boundaries := [];
                 zl_zone_id_set := ∅; zl_next_z := len (@nil Zone) |})
    as (zst & -> & [Hzs _] & Hzc); [by split | | done |].
  { intros st [HF Hn] Hc. apply Z.ltb_lt in Hc.
    destruct (zone_loop_body_total st) as [st' Hst']. exists st'.
    split; [done|]. apply zone_loop_body_Ok in Hst' as [Hz' Hn'].
    rewrite Hz', Hn', len_snoc. unfold rounds.
    split_and!; [|lia|lia].
    apply Forall_app. split; [done|]. apply Forall_singleton.
    exists (zl_next_z st). split; [rewrite Hn; apply len_nonneg | done]. }
  apply Z.ltb_ge in Hzc. simpl.
  set (zs := zl_zones zst) in *.
  (* nodes *)
  destruct (while_total_inv
              (fun st => len (nl_nodes st) <? min_nodes)
              (node_loop_body (sorted zs order_key))
              (fun st => Forall (is_placeholder_node zs) (nl_nodes st)
                         /\ nl_next_n st = len (nl_nodes st)
                         /\ keyed_by_ids st)
              (fun st => rounds min_nodes (len (nl_nodes st)))
              (rounds min_nodes (len (@nil Node)))
              {| nl_nodes := []; nl_node_id_set := ∅;
                 nl_node_by_id := []; nl_next_n := len (@nil Node) |})
    as (nst & -> & (Hns & _ & Hkeyed) & _); [| | done |].
  { split_and!; [done | done |]. split; [apply NoDup_nil_2 | done]. }
  { intros st (HF & Hn & Hk) Hc. apply Z.ltb_lt in Hc.
    pose proof (len_nonneg (nl_nodes st)).
    destruct (node_loop_body_total (sorted zs order_key) st) as [st' Hst'].
    { rewrite sorted_nil_iff. intros Hnil. rewrite Hnil in Hzc.
      unfold len in Hzc. simpl in Hzc. lia. }
    { lia. }
    exists st'. split; [done|].
    pose proof (node_loop_keeps_keys _ _ _ Hk Hst') as Hk'.
    apply node_loop_body_Ok in Hst' as (z & Hz & Hn' & _ & Hnext).
    rewrite Hn', Hnext, len_snoc. unfold rounds.
    split_and!; [|lia|done|lia].
    apply Forall_app. split; [done|]. apply Forall_singleton.
    exists (nl_next_n st), z. rewrite sorted_elem_of in Hz.
    split_and!; [lia | done | done]. }
  simpl. set (ns := nl_nodes nst) in *.
  (* flows *)
  destruct (while_total_inv
              (fun st => (len (fl_flows st) <? min_flows)
                         && (2 <=? len (odict.keys (nl_node_by_id nst))))
              (flow_loop_body (odict.keys (nl_node_by_id nst)))
              (fun st => Forall (is_placeholder_flow ns) (fl_flows st)
                         /\ fl_next_f st = len (fl_flows st))
              (fun st => rounds min_flows (len (fl_flows st)))
              (rounds min_flows (len (@nil Flow)))
              {| fl_flows := []; fl_next_f := len (@nil Flow) |})
    as (fst_ & -> & (Hfs & _) & _); [by split | | done |].
  { intros st [HF Hn] [Hc H2]%andb_true_iff.
    apply Z.ltb_lt in Hc. apply Z.leb_le in H2.
    pose proof (len_nonneg (fl_flows st)).
    destruct (flow_loop_body_total (odict.keys (nl_node_by_id nst)) st)
      as [st' Hst']; [done | lia |].
    exists st'. split; [done|].
    apply flow_loop_body_Ok in Hst' as (s & t & Hs & Ht & Hf' & Hnext).
    rewrite Hf', Hnext, len_snoc. unfold rounds.
    split_and!; [|lia|lia].
    apply Forall_app. split; [done|]. apply Forall_singleton.
    destruct Hkeyed as [_ Hkeys].
    exists (fl_next_f st), s, t.
    split_and!; [lia | by apply Hkeys | by apply Hkeys | done]. }
  simpl. exists zs, ns, (fl_flows fst_), (zl_trust_boundaries zst). done.
Qed.

(** Where the thresholds ask for a zone, or for no node: with the zone list
    empty or missing and expansion enabled, the call succeeds, returns a graph
    whose zones, nodes and flows are placeholders only, logs nothing, and
    returns the same whatever nodes, flows and trust boundaries the payload
    held. *)
Theorem empty_zones_discard_input dsl min_zones min_nodes min_flows
    min_nodes_hard :
  _ensure_list (dsl_zones dsl) = [] ->
  0 < min_zones \/ min_nodes <= 0 ->
  let call d := validate_and_prepare_dsl d min_zones min_nodes min_flows
                  min_nodes_hard true in
  exists zs ns fs tbs,
    returned (call dsl) = Ok (Some (dsl_with dsl zs ns fs tbs), [])
    /\ logged (call dsl) = []
    /\ Forall is_placeholder_zone zs
    /\ Forall (is_placeholder_node zs) ns
    /\ Forall (is_placeholder_flow ns) fs
    /\ forall dsl',
         _ensure_list (dsl_zones dsl') = [] ->
         dsl_title dsl' = dsl_title dsl ->
         dsl_groups dsl' = dsl_groups dsl ->
         dsl_controls dsl' = dsl_controls dsl ->
         returned (call dsl') = returned (call dsl).
Proof.
  intros Hz Hmin call.
  destruct (expand_from_empty dsl min_zones min_nodes min_flows Hmin)
    as (zs & ns & fs & tbs & Hexp & Hzs & Hns & Hfs).
  assert (Hcall : forall d, _ensure_list (dsl_zones d) = [] ->
            call d = {| returned :=
                          g ← _expand_dsl_to_density (dsl_with d [] [] [] [])
                                [] [] min_zones min_nodes min_flows;
                          Ok (Some g, []);
                        logged := []; caller_dsl := d |}).
  { intros d Hd. unfold call, validate_and_prepare_dsl. by rewrite Hd. }
  exists zs, ns, fs, tbs. rewrite (Hcall dsl Hz). simpl. rewrite Hexp.
  split_and!; try done.
  intros dsl' Hz' Ht Hg Hc. rewrite (Hcall dsl' Hz'). simpl.
  replace (dsl_with dsl' [] [] [] []) with (dsl_with dsl [] [] [] []).
  - by rewrite Hexp.
  - unfold dsl_with. by rewrite Ht, Hg, Hc.
Qed.

Lemma empty_zones_discard_input_witness :
  exists zs ns fs tbs,
    returned (prepare no_zone_dsl)
      = Ok (Some (dsl_with no_zone_dsl zs ns fs tbs), [])
    /\ logged (prepare no_zone_dsl) = []
    /\ Forall is_placeholder_zone zs
    /\ Forall (is_placeholder_node zs) ns
    /\ Forall (is_placeholder_flow ns) fs.
Proof.
  destruct (empty_zones_discard_input no_zone_dsl MIN_ZONES MIN_NODES
              MIN_FLOWS MIN_NODES_HARD)
    as (zs & ns & fs & tbs & H1 & H2 & H3 & H4 & H5 & _).
  - reflexivity.
  - left. reflexivity.
  - exists zs, ns, fs, tbs. auto.
Defined.

(** A loop whose condition is false at the start leaves the state as it is. *)
Lemma while_done {S} fuel (cond : S -> bool) (body : S -> result S) s :
  cond s = false -> while fuel cond body s = Ok s.
Proof. intros H. destruct fuel; simpl; by rewrite H. Qed.

(** C10: with the zone list empty or missing and expansion enabled, the call
    does not succeed for every threshold setting.  When the thresholds ask for
    no zone and for at least one node, no zone is added, [zone_order] is empty
    and the first round of the node loop divides by its length: the call
    raises [ZeroDivisionError], whatever the payload holds.  The flow loop
    guards the same division with [len(node_list) >= 2]; the node loop has no
    guard. *)
Theorem empty_zones_zero_division dsl min_zones min_nodes min_flows
    min_nodes_hard :
  _ensure_list (dsl_zones dsl) = [] ->
  min_zones <= 0 ->
  0 < min_nodes ->
  returned (validate_and_prepare_dsl dsl min_zones min_nodes min_flows
              min_nodes_hard true)
  = Raise ZeroDivisionError.
Proof.
  intros Hz Hmz Hmn. unfold validate_and_prepare_dsl. rewrite Hz. simpl.
  unfold _expand_dsl_to_density. simpl.
  rewrite while_done by (apply Z.ltb_ge; done).
  simpl. unfold rounds. change (len []) with 0. rewrite !Z.sub_0_r.
  destruct (Z.to_nat min_nodes) as [|fuel] eqn:Hfuel; [lia|].
  cbn [while nl_nodes]. change (len []) with 0.
  by assert ((0 <? min_nodes) = true) as -> by lia.
Qed.

Lemma empty_zones_zero_division_witness :
  returned (validate_and_prepare_dsl no_zone_dsl 0 1 0 MIN_NODES_HARD true)
  = Raise ZeroDivisionError.
Proof.
  apply empty_zones_zero_division; [reflexivity | lia | lia].
Defined.

(* ------------------------------------------------------------------------- *)
(** ** Termination                                                            *)
(* ------------------------------------------------------------------------- *)

(** *** No loop of the embedding is cut short *)

Lemma while_no_timeout {S} (cond : S -> bool) (body : S -> result S)
    (mu : S -> nat) fuel s :
  (forall s, body s <> Timeout) ->
  (forall s, cond s = true -> (0 < mu s)%nat) ->
  (forall s s', cond s = true -> body s = Ok s' -> (mu s' < mu s)%nat) ->
  (mu s <= fuel)%nat ->
  while fuel cond body s <> Timeout.
Proof.
  intros Hbody Hpos Hstep. revert s.
  induction fuel as [|fuel IH]; intros s Hmu; simpl;
    destruct (cond s) eqn:Hc; try done.
  - specialize (Hpos s Hc). lia.
  - destruct (body s) as [s'| |] eqn:Hb; [|done|by apply Hbody in Hb].
    simpl. apply IH. specialize (Hstep s s' Hc Hb). lia.
Qed.

Lemma item_no_timeout {A} (xs : list A) i : item xs i <> Timeout.
Proof. unfold item. by destruct (xs !! Z.to_nat i). Qed.

Lemma zone_loop_body_no_timeout st : zone_loop_body st <> Timeout.
Proof. by destruct (zone_loop_body_total st) as [st' ->]. Qed.

Lemma bind_no_timeout {A B} (m : result A) (k : A -> result B) :
  m <> Timeout -> (forall a, k a <> Timeout) -> m ≫= k <> Timeout.
Proof. destruct m; unfold mbind, result_bind; auto. Qed.

Lemma py_mod_no_timeout a b : py_mod a b <> Timeout.
Proof. unfold py_mod. by destruct (b =? 0). Qed.

Lemma node_loop_body_no_timeout zone_order st :
  node_loop_body zone_order st <> Timeout.
Proof.
  unfold node_loop_body.
  apply bind_no_timeout; [apply py_mod_no_timeout|]. intros i.
  apply bind_no_timeout; [apply item_no_timeout | done].
Qed.

Lemma flow_loop_body_no_timeout node_list st :
  flow_loop_body node_list st <> Timeout.
Proof.
  unfold flow_loop_body.
  apply bind_no_timeout; [apply py_mod_no_timeout|]. intros i.
  apply bind_no_timeout; [apply item_no_timeout|]. intros src.
  apply bind_no_timeout; [apply item_no_timeout | done].
Qed.

(** The fuel [_expand_dsl_to_density] gives its loops is enough: every call
    returns or raises. *)
Lemma expand_no_timeout dsl zone_ids node_by_id min_zones min_nodes min_flows :
  _expand_dsl_to_density dsl zone_ids node_by_id min_zones min_nodes min_flows
  <> Timeout.
Proof.
  unfold _expand_dsl_to_density.
  apply bind_no_timeout.
  { apply (while_no_timeout _ _
             (fun st => rounds min_zones (len (zl_zones st))));
      [apply zone_loop_body_no_timeout | | | done].
    - intros st Hc%Z.ltb_lt. unfold rounds. lia.
    - intros st st' Hc%Z.ltb_lt [Hzs _]%zone_loop_body_Ok.
      rewrite Hzs, len_snoc. unfold rounds. lia. }
  intros zst. apply bind_no_timeout.
  { apply (while_no_timeout _ _
             (fun st => rounds min_nodes (len (nl_nodes st))));
      [apply node_loop_body_no_timeout | | | done].
    - intros st Hc%Z.ltb_lt. unfold rounds. lia.
    - intros st st' Hc%Z.ltb_lt (z & _ & Hns & _)%node_loop_body_Ok.
      rewrite Hns, len_snoc. unfold rounds. lia. }
  intros nst. apply bind_no_timeout; [|done].
  apply (while_no_timeout _ _
           (fun st => rounds min_flows (len (fl_flows st))));
    [apply flow_loop_body_no_timeout | | | done].
  - intros st [Hc%Z.ltb_lt _]%andb_true_iff. unfold rounds. lia.
  - intros st st' [Hc%Z.ltb_lt _]%andb_true_iff
      (s & t & _ & _ & Hfs & _)%flow_loop_body_Ok.
    rewrite Hfs, len_snoc. unfold rounds. lia.
Qed.

Lemma validate_no_timeout dsl min_zones min_nodes min_flows min_nodes_hard
    expand_to_meet_density :
  returned (validate_and_prepare_dsl dsl min_zones min_nodes min_flows
              min_nodes_hard expand_to_meet_density) <> Timeout.
Proof.
  unfold validate_and_prepare_dsl.
  destruct (is_nil _), expand_to_meet_density; simpl; try done.
  { destruct (_expand_dsl_to_density _ _ _ _ _ _) eqn:He; try done.
    by apply expand_no_timeout in He. }
  all: destruct (fold_left rename_zone _ _) as [[? ?] zones];
    destruct (fold_left (remap_node _ _) _ _) as [nodes errors];
    destruct (is_nil errors); simpl; try done;
    destruct (len nodes <? min_nodes_hard); simpl; try done.
  destruct (_ || _); [|done].
  destruct (_expand_dsl_to_density _ _ _ _ _ _) eqn:He; try done.
  by apply expand_no_timeout in He.
Qed.

(** *** Expansion returns whenever a node has a zone to go to *)

Lemma expand_total dsl zone_ids node_by_id min_zones min_nodes min_flows :
  0 < min_zones \/ default [] (dsl_zones dsl) <> [] ->
  exists g,
    _expand_dsl_to_density dsl zone_ids node_by_id min_zones min_nodes
      min_flows = Ok g.
Proof.
  intros Hzones. unfold _expand_dsl_to_density.
  set (zones0 := default [] (dsl_zones dsl)) in *.
  destruct (while_total_inv
              (fun st => len (zl_zones st) <? min_zones) zone_loop_body
              (fun st => len zones0 <= len (zl_zones st))
              (fun st => rounds min_zones (len (zl_zones st)))
              (rounds min_zones (len zones0))
              {| zl_zones := zones0;
                 zl_trust_boundaries := default [] (dsl_trust_boundaries dsl);
                 zl_zone_id_set := list_to_set (map zone_id zones0);
                 zl_next_z := len zones0 |})
    as (zst & -> & Hkeep & Hzc); [simpl; lia | | done |].
  { intros st Hst Hc%Z.ltb_lt.
    destruct (zone_loop_body_total st) as [st' Hst']. exists st'.
    split; [done|]. apply zone_loop_body_Ok in Hst' as [-> _].
    rewrite len_snoc. unfold rounds. lia. }
  apply Z.ltb_ge in Hzc. simpl in Hkeep. simpl.
  assert (Hne : sorted (zl_zones zst) order_key <> []).
  { rewrite sorted_nil_iff. intros Hnil. rewrite Hnil in Hzc, Hkeep.
    unfold len in Hzc, Hkeep. simpl in Hzc, Hkeep.
    destruct Hzones as [?|Hz0]; [lia|].
    destruct zones0; [done | simpl in Hkeep; lia]. }
  destruct (while_total_inv
              (fun st => len (nl_nodes st) <? min_nodes)
              (node_loop_body (sorted (zl_zones zst) order_key))
              (fun st => 0 <= nl_next_n st)
              (fun st => rounds min_nodes (len (nl_nodes st)))
              (rounds min_nodes (len (default [] (dsl_nodes dsl))))
              {| nl_nodes := default [] (dsl_nodes dsl);
                 nl_node_id_set :=
                   list_to_set (map node_id (default [] (dsl_nodes dsl)));
                 nl_node_by_id := node_by_id;
                 nl_next_n := len (default [] (dsl_nodes dsl)) |})
    as (nst & -> & _ & _); [apply len_nonneg | | done |].
  { intros st Hst Hc%Z.ltb_lt.
    destruct (node_loop_body_total _ st Hne Hst) as [st' Hst']. exists st'.
    split; [done|].
    apply node_loop_body_Ok in Hst' as (z & _ & -> & _ & ->).
    rewrite len_snoc. unfold rounds. split; lia. }
  simpl.
  destruct (while_total_inv
              (fun st => (len (fl_flows st) <? min_flows)
                         && (2 <=? len (odict.keys (nl_node_by_id nst))))
              (flow_loop_body (odict.keys (nl_node_by_id nst)))
              (fun st => 0 <= fl_next_f st)
              (fun st => rounds min_flows (len (fl_flows st)))
              (rounds min_flows (len (default [] (dsl_flows dsl))))
              {| fl_flows := default [] (dsl_flows dsl);
                 fl_next_f := len (default [] (dsl_flows dsl)) |})
    as (fst_ & -> & _ & _); [apply len_nonneg | | done |].
  { intros st Hst [Hc%Z.ltb_lt H2%Z.leb_le]%andb_true_iff.
    destruct (flow_loop_body_total _ st H2 Hst) as [st' Hst']. exists st'.
    split; [done|].
    apply flow_loop_body_Ok in Hst' as (s & t & _ & _ & -> & ->).
    rewrite len_snoc. unfold rounds. split; lia. }
  simpl. eauto.
Qed.

(** With a threshold of at least one zone the normalizer returns, for every
    payload. *)
Lemma validate_returns dsl min_zones min_nodes min_flows min_nodes_hard
    expand_to_meet_density :
  0 < min_zones ->
  exists r,
    returned (validate_and_prepare_dsl dsl min_zones min_nodes min_flows
                min_nodes_hard expand_to_meet_density) = Ok r.
Proof.
  intros Hmin. unfold validate_and_prepare_dsl.
  destruct (is_nil _), expand_to_meet_density; simpl; eauto.
  { destruct (expand_total (dsl_with dsl [] [] [] []) [] [] min_zones
                min_nodes min_flows) as [g ->]; [by left|]. simpl. eauto. }
  all: destruct (fold_left rename_zone _ _) as [[zone_id_map seen] zones];
    destruct (fold_left (remap_node _ _) _ _) as [nodes errors];
    destruct (is_nil errors); simpl; eauto;
    destruct (len nodes <? min_nodes_hard); simpl; eauto.
  destruct (_ || _); [|simpl; eauto].
  destruct (expand_total
              (dsl_with dsl zones nodes (_ensure_list (dsl_flows dsl))
                 (_ensure_list (dsl_trust_boundaries dsl)))
              (map zone_id zones) (odict.comprehension node_id id nodes)
              min_zones min_nodes min_flows) as [g ->]; [by left|].
  simpl. eauto.
Qed.

(* ------------------------------------------------------------------------- *)
(** ** Nodes that reference no zone                                           *)
(* ------------------------------------------------------------------------- *)

Lemma node_loop_result dsl nodes visited errors :
  fold_left (remap_node (final_zone_id_map dsl) (final_zone_ids dsl)) nodes
    (visited, errors)
  = (visited ++ map (fun n => node_set_zone n (remapped_zone dsl n)) nodes,
     errors ++ map (invalid_zone_error dsl) (filter (dangling dsl) nodes)).
Proof.
  revert visited errors.
  induction nodes as [|n nodes IH]; intros visited errors; simpl.
  { by rewrite !app_nil_r. }
  fold (remapped_zone dsl n). rewrite IH. rewrite <- app_assoc. simpl.
  rewrite filter_cons. unfold dangling at 2.
  destruct (decide (remapped_zone dsl n ∈ final_zone_ids dsl)) as [Hin|Hin].
  - rewrite bool_decide_true by done. by rewrite decide_False by auto.
  - rewrite bool_decide_false by done. rewrite decide_True by done.
    simpl. fold (invalid_zone_error dsl n). by rewrite <- app_assoc.
Qed.

(** C3: when the zone list is not empty and some node's remapped zone is not
    among the final zone ids, [validate_and_prepare_dsl] returns no graph and
    one message for each such node, in the order of the nodes, and
    [dsl_to_drawio] raises [ValueError] with these messages. *)
Theorem invalid_zone_is_fatal dsl min_zones min_nodes min_flows
    min_nodes_hard expand_to_meet_density :
  _ensure_list (dsl_zones dsl) <> [] ->
  (exists n, n ∈ _ensure_list (dsl_nodes dsl) /\ dangling dsl n) ->
  let offending := filter (dangling dsl) (_ensure_list (dsl_nodes dsl)) in
  let errors := map (invalid_zone_error dsl) offending in
  returned (validate_and_prepare_dsl dsl min_zones min_nodes min_flows
              min_nodes_hard expand_to_meet_density) = Ok (None, errors)
  /\ length errors = length offending
  /\ errors <> []
  /\ dsl_to_drawio dsl
     = Raise (ValueError ("DSL validation failed: " +:+ join "; " errors)).
Proof.
  intros Hzones (n & Hn & Hdangling) offending errors.
  assert (Herrors : errors <> []).
  { assert (n ∈ offending) as Hin by (by apply list_elem_of_filter).
    unfold errors. destruct offending; [by apply elem_of_nil in Hin | done]. }
  assert (Hcall : forall mz mn mf mh ex,
            returned (validate_and_prepare_dsl dsl mz mn mf mh ex)
            = Ok (None, errors)).
  { intros. unfold validate_and_prepare_dsl.
    assert (is_nil (sorted (_ensure_list (dsl_zones dsl)) order_key) = false)
      as -> by (by rewrite is_nil_false, sorted_nil_iff).
    simpl.
    pose proof (node_loop_result dsl (_ensure_list (dsl_nodes dsl)) [] [])
      as Hloop.
    unfold final_zone_ids, final_zone_id_map, renamed_zones in Hloop.
    destruct (fold_left rename_zone _ _) as [[zone_id_map seen] zones].
    simpl in Hloop. rewrite Hloop. fold offending. fold errors.
    by destruct errors. }
  split_and!; [apply Hcall | apply length_map | done |].
  unfold dsl_to_drawio. by rewrite Hcall.
Qed.

Lemma invalid_zone_is_fatal_witness :
  returned (prepare dangling_node_dsl)
    = Ok (None, ["Node 'db' references invalid zone 'storage'.";
                 "Node 'cache' references invalid zone 'memory'."])
  /\ dsl_to_drawio dangling_node_dsl
     = Raise (ValueError
               ("DSL validation failed: "
                +:+ "Node 'db' references invalid zone 'storage'.; "
                +:+ "Node 'cache' references invalid zone 'memory'.")).
Proof.
  destruct (invalid_zone_is_fatal dangling_node_dsl MIN_ZONES MIN_NODES
              MIN_FLOWS MIN_NODES_HARD true) as (H1 & _ & _ & H2).
  - discriminate.
  - exists (mk_node "db" "storage"). split; [|by vm_compute].
    apply list_elem_of_further, list_elem_of_here.
  - split; [exact H1 | exact H2].
Defined.

(* ------------------------------------------------------------------------- *)
(** ** The grid layout                                                        *)
(* ------------------------------------------------------------------------- *)

Lemma cols_max_eq : cols_max = 6.
Proof. reflexivity. Qed.

(** The core of the layout: a grid of [zone_cols] columns puts each of the
    nodes of a zone inside the band whose height is computed from the number
    of rows. *)
Lemma grid_in_bounds {A} (n_list : list A) (i : Z) :
  0 <= i < len n_list ->
  let rows := if len n_list =? 0 then 1 else ceil_div (len n_list) cols_max in
  let '(x, y) := node_xy (zone_cols n_list) i in
  0 <= x /\ 0 <= y
  /\ x + NODE_W <= content_width
  /\ content_width <= zone_width
  /\ y + NODE_H <= PADDING + rows * (NODE_H + GAP_Y).
Proof.
  intros Hi. unfold node_xy, zone_cols.
  destruct n_list as [|a l]; [unfold len in Hi; simpl in Hi; lia|].
  set (n := len (a :: l)) in *. simpl is_nil. cbv iota.
  destruct (Z.eqb_spec n 0) as [|_]; [lia|].
  rewrite cols_max_eq. unfold ceil_div, content_width, zone_width, CANVAS_WIDTH,
    PADDING, NODE_W, NODE_H, GAP_X, GAP_Y.
  destruct (Z.le_gt_cases n 6) as [Hn|Hn].
  - rewrite Z.min_r, Z.max_r by lia.
    rewrite Z.mod_small, Z.div_small by lia.
    assert (- n / 6 = -1) as ->
      by (symmetry; apply Z.div_unique with (6 - n); lia).
    lia.
  - rewrite Z.min_l, Z.max_r by lia.
    pose proof (Z.div_mod i 6). pose proof (Z.mod_pos_bound i 6).
    pose proof (Z.div_mod (- n) 6). pose proof (Z.mod_pos_bound (- n) 6).
    lia.
Qed.

Lemma in_bounds_Ok x y w h :
  0 <= x -> 0 <= y -> x + NODE_W <= w -> y + NODE_H <= h ->
  in_bounds x y w h = Ok ().
Proof.
  intros. unfold in_bounds, assert.
  destruct (Z.leb_spec 0 x), (Z.leb_spec 0 y); try lia. simpl.
  destruct (Z.leb_spec (x + NODE_W) w), (Z.leb_spec (y + NODE_H) h); try lia.
  done.
Qed.

Lemma elem_of_enumerate {A} (xs : list A) i x :
  (i, x) ∈ enumerate xs -> 0 <= i < len xs.
Proof.
  unfold enumerate. intros (j & y & [= -> ->] & Hj)%elem_of_lookup_imap.
  apply lookup_lt_Some in Hj. unfold len. lia.
Qed.

Section layout.
Context (nodes_in_zone : gmap string (list Node)).

Lemma zone_heights_spec zones (m0 : gmap string Z) :
  (forall k v, m0 !! k = Some v -> v = zone_height_of nodes_in_zone k) ->
  let m := fold_left (zone_height_body nodes_in_zone) zones m0 in
  (forall k v, m !! k = Some v -> v = zone_height_of nodes_in_zone k)
  /\ (forall k, is_Some (m0 !! k) -> is_Some (m !! k))
  /\ (forall z, z ∈ zones -> is_Some (m !! zone_id z)).
Proof.
  revert m0. induction zones as [|z zones IH]; intros m0 H0; simpl.
  { split_and!; [done | done |]. by intros z ?%elem_of_nil. }
  destruct (IH (zone_height_body nodes_in_zone m0 z)) as (H1 & H2 & H3).
  { unfold zone_height_body. intros k v.
    destruct (decide (zone_id z = k)) as [<-|Hk].
    - rewrite lookup_insert_eq. by intros [= <-].
    - rewrite lookup_insert_ne by done. apply H0. }
  split_and!; [done | |].
  - intros k Hk. apply H2. unfold zone_height_body.
    destruct (decide (zone_id z = k)) as [<-|Hne].
    + rewrite lookup_insert_eq. eauto.
    + by rewrite lookup_insert_ne.
  - intros z' [->|Hz']%elem_of_cons; [|by apply H3].
    apply H2. unfold zone_height_body. rewrite lookup_insert_eq. eauto.
Qed.

Lemma zone_geometry_total zones :
  let zone_heights := fold_left (zone_height_body nodes_in_zone) zones ∅ in
  exists y_cursor zone_geometry,
    for_each (zone_geometry_body zone_heights) zones (Float 0, ∅)
      = Ok (y_cursor, zone_geometry)
    /\ (forall k g, zone_geometry !! k = Some g -> band nodes_in_zone k g)
    /\ (forall z, z ∈ zones -> is_Some (zone_geometry !! zone_id z)).
Proof.
  intros zone_heights.
  destruct (zone_heights_spec zones ∅) as (Hh & _ & Hdom); [done|].
  fold zone_heights in Hh, Hdom.
  destruct (for_each_total (zone_geometry_body zone_heights)
              (fun done st =>
                 (forall k g, st.2 !! k = Some g -> band nodes_in_zone k g)
                 /\ (forall z, z ∈ done -> is_Some (st.2 !! zone_id z)))
              zones (Float 0, ∅)) as ([y geo] & Hrun & Hband & Hall).
  - split; [done|]. by intros z ?%elem_of_nil.
  - intros done z [y geo] [Hband Hdone] Hz. simpl in *.
    destruct (Hdom z Hz) as [h Hh'].
    unfold zone_geometry_body, getitem. rewrite Hh'. simpl.
    eexists. split; [done|]. simpl. split.
    + intros k g. destruct (decide (zone_id z = k)) as [<-|Hk].
      * rewrite lookup_insert_eq. intros [= <-]. exists y.
        by rewrite (Hh _ _ Hh').
      * rewrite lookup_insert_ne by done. apply Hband.
    + intros z' [Hz'| ->%list_elem_of_singleton]%elem_of_app.
      * destruct (decide (zone_id z = zone_id z')) as [->|Hk].
        -- rewrite lookup_insert_eq. eauto.
        -- rewrite lookup_insert_ne by done. by apply Hdone.
      * rewrite lookup_insert_eq. eauto.
  - exists y, geo. done.
Qed.

Lemma zone_cells_total (zone_geometry : gmap string geometry) zones st0 :
  (forall z, z ∈ zones -> is_Some (zone_geometry !! zone_id z)) ->
  exists st,
    for_each (zone_cell_body zone_geometry) zones st0 = Ok st
    /\ forall z, z ∈ zones -> is_Some (cell_ids st !! zone_id z).
Proof.
  intros Hgeo.
  destruct (for_each_total (zone_cell_body zone_geometry)
              (fun done st =>
                 forall z, z ∈ done -> is_Some (cell_ids st !! zone_id z))
              zones st0) as (st & Hrun & Hall).
  - by intros z ?%elem_of_nil.
  - intros done z st Hdone Hz.
    destruct (Hgeo z Hz) as [[[[x y] w] h] Hg].
    unfold zone_cell_body, getitem. rewrite Hg. simpl.
    eexists. split; [done|]. simpl.
    intros z' [Hz'| ->%list_elem_of_singleton]%elem_of_app.
    + destruct (decide (zone_id z = zone_id z')) as [->|Hk].
      * rewrite lookup_insert_eq. eauto.
      * rewrite lookup_insert_ne by done. by apply Hdone.
    + rewrite lookup_insert_eq. eauto.
  - eauto.
Qed.

Lemma zone_nodes_total (zone_cell_ids : gmap string string)
    (zone_geometry : gmap string geometry) zones st0 :
  (forall k g, zone_geometry !! k = Some g -> band nodes_in_zone k g) ->
  (forall z, z ∈ zones -> is_Some (zone_geometry !! zone_id z)) ->
  (forall z, z ∈ zones -> is_Some (zone_cell_ids !! zone_id z)) ->
  exists st,
    for_each (zone_nodes_body zone_cell_ids zone_geometry nodes_in_zone)
      zones st0 = Ok st.
Proof.
  intros Hband Hgeo Hcells.
  destruct (for_each_total
              (zone_nodes_body zone_cell_ids zone_geometry nodes_in_zone)
              (fun _ _ => True) zones st0) as (st & Hrun & _);
    [done | | eauto].
  intros _ z st _ Hz.
  destruct (Hcells z Hz) as [parent_id Hp].
  destruct (Hgeo z Hz) as [g Hg].
  destruct (Hband _ _ Hg) as [y0 ->].
  unfold zone_nodes_body, getitem. rewrite Hp, Hg. simpl.
  set (n_list := default [] (nodes_in_zone !! zone_id z)).
  destruct (for_each_total
              (node_cell_body parent_id (zone_cols n_list) zone_width
                 (zone_height_of nodes_in_zone (zone_id z)
                  - ZONE_HEADER_HEIGHT))
              (fun _ _ => True) (enumerate n_list) st) as (st' & Hrun & _);
    [done | | eauto].
  intros _ [i n] st1 _ Hi%elem_of_enumerate.
  pose proof (grid_in_bounds n_list i Hi) as Hgrid.
  unfold node_cell_body. destruct (node_xy _ _) as [x y].
  destruct Hgrid as (Hx & Hy & Hw & Hcw & Hh).
  rewrite in_bounds_Ok; [simpl; eauto|done|done|lia|].
  unfold zone_height_of. fold n_list. lia.
Qed.
End layout.

Lemma tb_cells_total zone_geometry tbs st0 :
  exists st, for_each (tb_cell_body zone_geometry) tbs st0 = Ok st.
Proof.
  destruct (for_each_total (tb_cell_body zone_geometry) (fun _ _ => True)
              tbs st0) as (st & Hrun & _); [done | | eauto].
  intros _ [i tb] st _ _. unfold tb_cell_body.
  destruct (default [] (tb_between_zones tb)) as [|z0 [|z1 ?]]; eauto.
  destruct (zone_geometry !! z0) as [[[[??]?]?]|]; eauto.
  destruct (zone_geometry !! z1); eauto.
Qed.

Lemma flow_cells_total node_cell_ids flows st0 :
  exists st, for_each (flow_cell_body node_cell_ids) flows st0 = Ok st.
Proof.
  destruct (for_each_total (flow_cell_body node_cell_ids) (fun _ _ => True)
              flows st0) as (st & Hrun & _); [done | | eauto].
  intros _ f st _ _. unfold flow_cell_body.
  destruct (flow_source f ≫= _); eauto.
  destruct (flow_target f ≫= _); eauto.
Qed.

(** The layout and the cell loops raise nothing. *)
Lemma render_total g : exists root_elem, render g = Ok root_elem.
Proof.
  unfold render.
  set (zones := sorted (_ensure_list (dsl_zones g)) order_key).
  set (nodes_in_zone := group_nodes (_ensure_list (dsl_nodes g))).
  destruct (zone_geometry_total nodes_in_zone zones)
    as (y_cursor & zone_geometry & -> & Hband & Hgeo).
  simpl.
  destruct (zone_cells_total zone_geometry zones
              {| ctr := 1;
                 cells := [Elem "mxCell" [("id", "0")] [];
                           Elem "mxCell" [("id", "1"); ("parent", "0")] []];
                 cell_ids := ∅ |} Hgeo) as (st1 & -> & Hcells).
  simpl.
  destruct (zone_nodes_total nodes_in_zone (cell_ids st1) zone_geometry zones
              {| ctr := ctr st1; cells := cells st1; cell_ids := ∅ |}
              Hband Hgeo Hcells) as (st2 & ->).
  simpl.
  destruct (tb_cells_total zone_geometry
              (enumerate (_ensure_list (dsl_trust_boundaries g))) st2)
    as (st3 & ->).
  simpl.
  destruct (flow_cells_total (cell_ids st2) (_ensure_list (dsl_flows g)) st3)
    as (st4 & ->).
  simpl. eauto.
Qed.

(* ------------------------------------------------------------------------- *)
(** ** Where a [<] can stand in the serialized text                           *)
(* ------------------------------------------------------------------------- *)

Lemma app_cons c s t : String c s +:+ t = String c (s +:+ t).
Proof. reflexivity. Qed.

Lemma app_nil t : "" +:+ t = t.
Proof. reflexivity. Qed.

Lemma app_assoc_str s t u : (s +:+ t) +:+ u = s +:+ (t +:+ u).
Proof. induction s as [|c s IH]; [done|]. by rewrite !app_cons, IH. Qed.

Lemma diverges_app p t u : diverges p t = true -> diverges p (t +:+ u) = true.
Proof.
  revert t. induction p as [|a p IH]; intros [|b t]; simpl; try done.
  destruct (Ascii.eqb a b); auto.
Qed.

Lemma diverges_starts_with p t :
  diverges p t = true -> starts_with p t = false.
Proof.
  revert t. induction p as [|a p IH]; intros [|b t]; simpl; try done.
  destruct (Ascii.eqb a b); simpl; auto.
Qed.

Lemma lt_safe_app p s t :
  lt_safe p s = true -> lt_safe p t = true -> lt_safe p (s +:+ t) = true.
Proof.
  induction s as [|c s IH]; [done|]. rewrite app_cons. simpl.
  intros [Hc Hs]%andb_true_iff Ht. rewrite IH by done.
  destruct (Ascii.eqb c "<"); [|done]. by rewrite diverges_app.
Qed.

Lemma no_lt_safe p s : no_char "<" s = true -> lt_safe p s = true.
Proof.
  induction s as [|c s IH]; [done|]. simpl.
  intros [Hc Hs]%andb_true_iff. rewrite IH by done.
  by destruct (Ascii.eqb c "<").
Qed.

Lemma no_char_app c s t :
  no_char c s = true -> no_char c t = true -> no_char c (s +:+ t) = true.
Proof.
  induction s as [|a s IH]; [done|]. rewrite app_cons. simpl.
  intros [Ha Hs]%andb_true_iff Ht. by rewrite Ha, IH.
Qed.

(** Text that is safe holds no occurrence of [<p], whatever follows it. *)
Lemma count_from_safe_prefix p s t :
  lt_safe p s = true ->
  count_from (String "<" p) 0 (s +:+ t) = count_from (String "<" p) 0 t.
Proof.
  induction s as [|c s IH]; [done|]. rewrite app_cons.
  intros [Hc Hs]%andb_true_iff.
  cbn [count_from starts_with]. rewrite (Ascii.eqb_sym "<" c).
  destruct (Ascii.eqb c "<"); simpl; [|auto].
  rewrite diverges_starts_with; [auto|]. by apply diverges_app.
Qed.

Lemma count_from_safe p s :
  lt_safe p s = true -> count_from (String "<" p) 0 s = 0.
Proof.
  intros H. pose proof (count_from_safe_prefix p s "" H) as Hc.
  assert (s +:+ "" = s) as Hs.
  { clear. induction s as [|c s IH]; [done|]. by rewrite app_cons, IH. }
  by rewrite Hs in Hc.
Qed.

Lemma count_from_skip sub s t :
  count_from sub (String.length s) (s +:+ t) = count_from sub 0 t.
Proof.
  induction s as [|c s IH]; [by destruct t|]. rewrite app_cons. simpl. done.
Qed.

Lemma starts_with_app p t : starts_with p (p +:+ t) = true.
Proof.
  induction p as [|a p IH]; [done|]. rewrite app_cons. simpl.
  by rewrite Ascii.eqb_refl.
Qed.

(** A text that opens with [sub] and goes on safely holds [sub] once. *)
Lemma count_one p t :
  lt_safe p t = true ->
  count_from (String "<" p) 0 (String "<" p +:+ t) = 1.
Proof.
  intros Ht. rewrite app_cons.
  cbn [count_from]. rewrite <- app_cons, starts_with_app.
  replace (String.length (String "<" p) - 1)%nat with (String.length p)
    by (simpl; lia).
  rewrite count_from_skip, count_from_safe by done. done.
Qed.

Lemma str_find_app sub t : str_find (sub +:+ t) sub = Some 0.
Proof.
  destruct sub as [|a sub]; [by destruct t|].
  rewrite app_cons. cbn [str_find]. rewrite <- app_cons.
  by rewrite starts_with_app.
Qed.

(** *** Escaped attribute values hold no [<] *)

Lemma no_char_replace_self c r s :
  no_char c r = true -> no_char c (replace_char c r s) = true.
Proof.
  intros Hr. induction s as [|a s IH]; [done|]. simpl.
  destruct (Ascii.eqb a c) eqn:Ha.
  - by apply no_char_app.
  - simpl. by rewrite Ha, IH.
Qed.

Lemma no_char_replace_other c d r s :
  no_char c r = true -> no_char c s = true ->
  no_char c (replace_char d r s) = true.
Proof.
  intros Hr. induction s as [|a s IH]; [done|]. simpl.
  intros [Ha Hs]%andb_true_iff.
  destruct (Ascii.eqb a d).
  - apply no_char_app; auto.
  - simpl. by rewrite Ha, IH.
Qed.

Lemma escape_attrib_no_lt text : no_char "<" (_escape_attrib text) = true.
Proof.
  unfold _escape_attrib.
  do 5 (apply no_char_replace_other; [reflexivity|]).
  by apply no_char_replace_self.
Qed.

Lemma write_attrib_no_lt k v :
  no_char "<" k = true -> no_char "<" (write_attrib (k, v)) = true.
Proof.
  intros Hk. unfold write_attrib, dquote. simpl.
  repeat (apply no_char_app; try done). apply escape_attrib_no_lt.
Qed.

(** *** Trees whose tags diverge from [p] serialize to safe text *)

Lemma Element_ind' (P : Element -> Prop) :
  (forall tag attrib children,
      Forall P children -> P (Elem tag attrib children)) ->
  forall e, P e.
Proof.
  intros H. fix IH 1. intros [tag attrib children]. apply H.
  induction children as [|c cs IHcs]; constructor; [apply IH | apply IHcs].
Qed.

Section safe_serialization.
Context (p : string) (Hslash : diverges p "/" = true).

Lemma attribs_safe attrib :
  forallb (fun kv => no_char "<" kv.1) attrib = true ->
  lt_safe p (concat_str (map write_attrib attrib)) = true.
Proof.
  induction attrib as [|[k v] attrib IH]; [done|]. simpl.
  intros [Hk Hrest]%andb_true_iff.
  apply lt_safe_app; [|by apply IH].
  by apply no_lt_safe, write_attrib_no_lt.
Qed.

Lemma children_safe children :
  Forall (fun e => lt_safe p (_serialize_xml e) = true) children ->
  lt_safe p (concat_str (map _serialize_xml children)) = true.
Proof.
  induction 1 as [|c cs Hc _ IH]; [done|]. simpl. by apply lt_safe_app.
Qed.

Lemma after_tag_safe tag attrib children :
  no_char "<" tag = true ->
  forallb (fun kv => no_char "<" kv.1) attrib = true ->
  Forall (fun e => lt_safe p (_serialize_xml e) = true) children ->
  lt_safe p (after_tag tag attrib children) = true.
Proof.
  intros Htag Hattrib Hchildren. unfold after_tag.
  apply lt_safe_app; [by apply attribs_safe|].
  destruct (is_nil children); [done|].
  rewrite app_cons, app_nil. simpl.
  apply lt_safe_app; [by apply children_safe|].
  rewrite !app_cons, app_nil. simpl.
  change (String "/" (tag +:+ ">")) with ("/" +:+ (tag +:+ ">")).
  rewrite diverges_app by done. simpl.
  apply no_lt_safe, no_char_app; done.
Qed.

Lemma serialize_unfold tag attrib children :
  _serialize_xml (Elem tag attrib children)
  = "<" +:+ tag +:+ after_tag tag attrib children.
Proof. reflexivity. Qed.

Lemma serialize_safe e :
  plain_tags p e = true -> lt_safe p (_serialize_xml e) = true.
Proof.
  induction e as [tag attrib children IH] using Element_ind'.
  cbn [plain_tags].
  intros [[[Htag Hdiv]%andb_true_iff Hattrib]%andb_true_iff
            Hchildren]%andb_true_iff.
  rewrite serialize_unfold, app_cons, app_nil. cbn [lt_safe].
  rewrite Ascii.eqb_refl, diverges_app by done. simpl.
  apply lt_safe_app; [by apply no_lt_safe|].
  apply after_tag_safe; [done..|].
  rewrite forallb_forall in Hchildren.
  rewrite Forall_forall in IH |- *. intros c Hc.
  apply IH; [done|]. apply Hchildren. by apply list_elem_of_In.
Qed.
End safe_serialization.

(** *** The tree [render] builds *)

Section plain_cells.
Context (p : string).
Context (Hcell : diverges p "mxCell" = true).
Context (Hgeom : diverges p "mxGeometry" = true).

Lemma add_cell_plain cell_id parent_id value style vertex edge x y width
    height relative source target :
  plain_tags p (_add_cell cell_id parent_id value style vertex edge x y
                  width height relative source target) = true.
Proof.
  unfold _add_cell.
  destruct (is_nil (String.list_ascii_of_string value)),
    (is_nil (String.list_ascii_of_string style)), vertex, edge, source,
    target; simpl; rewrite Hcell, Hgeom; reflexivity.
Qed.

Lemma cells_plain_snoc (cs : list Element) e :
  forallb (plain_tags p) cs = true -> plain_tags p e = true ->
  forallb (plain_tags p) (cs ++ [e]) = true.
Proof. intros Hcs He. rewrite forallb_app. simpl. by rewrite Hcs, He. Qed.

Lemma zone_cell_body_plain zone_geometry st z st' :
  cells_plain p st -> zone_cell_body zone_geometry st z = Ok st' ->
  cells_plain p st'.
Proof.
  unfold zone_cell_body, cells_plain. intros Hst H. inv_bind H.
  destruct a as [[[x y] w] h]. injection H as <-. simpl.
  apply cells_plain_snoc; [done | apply add_cell_plain].
Qed.

Lemma node_cell_body_plain parent_id cols w h st ix st' :
  cells_plain p st -> node_cell_body parent_id cols w h st ix = Ok st' ->
  cells_plain p st'.
Proof.
  unfold node_cell_body, cells_plain. intros Hst H.
  destruct ix as [i n]. destruct (node_xy cols i) as [x y].
  inv_bind H. injection H as <-. simpl.
  apply cells_plain_snoc; [done | apply add_cell_plain].
Qed.

Lemma zone_nodes_body_plain zone_cell_ids zone_geometry nodes_in_zone st z
    st' :
  cells_plain p st ->
  zone_nodes_body zone_cell_ids zone_geometry nodes_in_zone st z = Ok st' ->
  cells_plain p st'.
Proof.
  unfold zone_nodes_body. intros Hst H. inv_bind H. inv_bind H.
  destruct a0 as [[[zx zy] zw] zh].
  eapply (for_each_ok_inv _ (cells_plain p)); [exact Hst | | exact H].
  intros. by eapply node_cell_body_plain.
Qed.

Lemma tb_cell_body_plain zone_geometry st itb st' :
  cells_plain p st -> tb_cell_body zone_geometry st itb = Ok st' ->
  cells_plain p st'.
Proof.
  unfold tb_cell_body, cells_plain. intros Hst H. destruct itb as [i tb].
  destruct (default [] (tb_between_zones tb)) as [|z0 [|z1 ?]];
    try (by injection H as <-).
  destruct (zone_geometry !! z0) as [[[[??]?]?]|];
    try (by injection H as <-).
  destruct (zone_geometry !! z1); try (by injection H as <-).
  injection H as <-. cbn [cells].
  rewrite forallb_app, Hst. cbn [forallb andb]. by rewrite !add_cell_plain.
Qed.

Lemma flow_cell_body_plain node_cell_ids st f st' :
  cells_plain p st -> flow_cell_body node_cell_ids st f = Ok st' ->
  cells_plain p st'.
Proof.
  unfold flow_cell_body, cells_plain. intros Hst H.
  destruct (flow_source f ≫= _); try (by injection H as <-).
  destruct (flow_target f ≫= _); try (by injection H as <-).
  injection H as <-. simpl.
  apply cells_plain_snoc; [done | apply add_cell_plain].
Qed.

(** [render] returns the fixed frame around cells with plain tags. *)
Lemma render_shape g root_elem :
  render g = Ok root_elem ->
  exists cs, root_elem = mxfile cs /\ forallb (plain_tags p) cs = true.
Proof.
  unfold render. intros H.
  inv_bind H. destruct a as [y_cursor zone_geometry].
  inv_bind H. rename a into st1, Ha0 into H1.
  inv_bind H. rename a into st2, Ha0 into H2.
  inv_bind H. rename a into st3, Ha0 into H3.
  inv_bind H. rename a into st4, Ha0 into H4.
  injection H as <-. eexists. split; [reflexivity|].
  apply (for_each_ok_inv _ (cells_plain p)) in H1;
    [|unfold cells_plain; simpl; by rewrite Hcell
     |intros; by eapply zone_cell_body_plain].
  apply (for_each_ok_inv _ (cells_plain p)) in H2;
    [|done|intros; by eapply zone_nodes_body_plain].
  apply (for_each_ok_inv _ (cells_plain p)) in H3;
    [|done|intros; by eapply tb_cell_body_plain].
  apply (for_each_ok_inv _ (cells_plain p)) in H4;
    [|done|intros; by eapply flow_cell_body_plain].
  apply cells_plain_snoc; [done | apply add_cell_plain].
Qed.
End plain_cells.

Lemma XML_DECLARATION_shape :
  exists tail,
    XML_DECLARATION = "<?xml" +:+ tail /\ no_char "<" tail = true.
Proof.
  exists (drop_str 5 XML_DECLARATION). split; vm_compute; reflexivity.
Qed.

(** The text of the tree: one [<mxfile], then text in which no [<] starts
    another, and nowhere a [<?xml]. *)
Lemma tostring_mxfile cs :
  forallb (plain_tags "mxfile") cs = true ->
  forallb (plain_tags "?xml") cs = true ->
  exists rest,
    tostring (mxfile cs) = "<mxfile" +:+ rest
    /\ lt_safe "mxfile" rest = true
    /\ lt_safe "?xml" (tostring (mxfile cs)) = true.
Proof.
  intros Hm Hx. unfold tostring, mxfile.
  eexists. split; [apply serialize_unfold|]. split.
  - apply after_tag_safe; [done..|].
    apply Forall_singleton, serialize_safe; [done|].
    simpl. by rewrite Hm.
  - apply serialize_safe; [done|]. simpl. by rewrite Hx.
Qed.

(** With one declaration in the text, the safety strip is not entered. *)
Lemma serialize_xml_safe_Ok root_elem out :
  str_count (XML_DECLARATION +:+ tostring root_elem) "<?xml" = 1 ->
  _serialize_xml_safe root_elem = Ok out ->
  out = XML_DECLARATION +:+ tostring root_elem.
Proof.
  unfold _serialize_xml_safe. intros Hcount H. rewrite Hcount in H.
  change (1 <? 1) with false in H. cbv iota in H.
  inv_bind H. injection Ha as <-.
  inv_bind H. inv_bind H. inv_bind H. by injection H.
Qed.

(** C1: a string [dsl_to_drawio] returns holds [<?xml] at most once, and at
    offset 0 if at all, and holds [<mxfile] exactly once. *)
Theorem single_declaration dsl out :
  dsl_to_drawio dsl = Ok out ->
  str_count out "<?xml" <= 1
  /\ (str_contains out "<?xml" = true -> str_find out "<?xml" = Some 0)
  /\ str_count out "<mxfile" = 1.
Proof.
  unfold dsl_to_drawio. intros H. inv_bind H.
  destruct a as [[g|] val_errors]; [|discriminate].
  inv_bind H. rename a into root_elem, Ha0 into Hrender.
  destruct (render_shape "mxfile" eq_refl eq_refl g root_elem Hrender)
    as (cs & -> & Hm).
  destruct (render_shape "?xml" eq_refl eq_refl g (mxfile cs) Hrender)
    as (cs' & [= <-] & Hx).
  destruct (tostring_mxfile cs Hm Hx) as (rest & Hrough & Hrest & Hsafe).
  destruct XML_DECLARATION_shape as (tail & Hdecl & Htail).
  assert (Hcount : str_count (XML_DECLARATION +:+ tostring (mxfile cs)) "<?xml"
                   = 1).
  { unfold str_count. rewrite Hdecl, app_assoc_str.
    apply count_one, lt_safe_app; [by apply no_lt_safe | done]. }
  assert (Hfind : str_find (XML_DECLARATION +:+ tostring (mxfile cs)) "<?xml"
                  = Some 0).
  { rewrite Hdecl, app_assoc_str. apply str_find_app. }
  assert (Hroot : str_count (XML_DECLARATION +:+ tostring (mxfile cs)) "<mxfile"
                  = 1).
  { unfold str_count. rewrite count_from_safe_prefix by (by vm_compute).
    rewrite Hrough. by apply count_one. }
  apply (serialize_xml_safe_Ok _ _ Hcount) in H as ->.
  rewrite Hcount, Hroot. done.
Qed.

Lemma single_declaration_witness :
  exists out,
    dsl_to_drawio two_zone_dsl = Ok out
    /\ str_count out "<?xml" <= 1
    /\ str_count out "<mxfile" = 1.
Proof.
  eexists. split; [vm_compute; reflexivity|].
  split; eapply (single_declaration two_zone_dsl); vm_compute; reflexivity.
Defined.

(** *** The document is always produced *)

Lemma str_find_after s sub t : is_Some (str_find (s +:+ sub +:+ t) sub).
Proof.
  induction s as [|c s IH].
  { rewrite app_nil, str_find_app. eauto. }
  rewrite app_cons. cbn [str_find].
  destruct (starts_with sub _); [eauto|].
  destruct IH as [i ->]. simpl. eauto.
Qed.

(** The assertions of [_serialize_xml_safe] pass on every tree [render]
    builds. *)
Lemma serialize_xml_safe_total cs :
  forallb (plain_tags "mxfile") cs = true ->
  forallb (plain_tags "?xml") cs = true ->
  _serialize_xml_safe (mxfile cs)
  = Ok (XML_DECLARATION +:+ tostring (mxfile cs)).
Proof.
  intros Hm Hx.
  destruct (tostring_mxfile cs Hm Hx) as (rest & Hrough & Hrest & Hsafe).
  destruct XML_DECLARATION_shape as (tail & Hdecl & Htail).
  set (out := XML_DECLARATION +:+ tostring (mxfile cs)).
  assert (Hcount : str_count out "<?xml" = 1).
  { unfold str_count, out. rewrite Hdecl, app_assoc_str.
    apply count_one, lt_safe_app; [by apply no_lt_safe | done]. }
  assert (Hindex : str_index out "<?xml" 0 = Ok 0).
  { unfold str_index, out. simpl drop_str.
    rewrite Hdecl, app_assoc_str, str_find_app. done. }
  assert (Hroot : str_contains out "<mxfile" = true).
  { unfold str_contains, out. rewrite Hrough.
    apply bool_decide_eq_true, str_find_after. }
  unfold _serialize_xml_safe. fold out. rewrite Hcount.
  change (1 <? 1) with false. cbv iota.
  unfold mbind at 1, result_bind. rewrite Hcount, Hindex, Hroot. done.
Qed.

(** [dsl_to_drawio] returns a document or raises the [ValueError] of a
    failed validation: none of its assertions fires. *)
Lemma dsl_to_drawio_total dsl :
  (exists out, dsl_to_drawio dsl = Ok out)
  \/ (exists msg, dsl_to_drawio dsl = Raise (ValueError msg)).
Proof.
  unfold dsl_to_drawio.
  destruct (validate_returns dsl MIN_ZONES MIN_NODES MIN_FLOWS MIN_NODES_HARD
              true) as [[[g|] val_errors] ->]; [done | | by right; eexists].
  left. destruct (render_total g) as [root_elem Hrender].
  unfold mbind at 1, result_bind. rewrite Hrender.
  unfold mbind, result_bind.
  destruct (render_shape "mxfile" eq_refl eq_refl g root_elem Hrender)
    as (cs & -> & Hm).
  destruct (render_shape "?xml" eq_refl eq_refl g (mxfile cs) Hrender)
    as (cs' & [= <-] & Hx).
  rewrite serialize_xml_safe_total by done. eauto.
Qed.

(** *** Every node lies inside its zone *)

(** C6: in every graph validation accepts, each node of each zone gets a grid
    position with [x >= 0], [y >= 0], [x + NODE_W] within the zone's content
    width and [y + NODE_H] within the zone's content height.  So the two
    assertions of the node loop pass: the layout and the cell loops end
    without raising, and [dsl_to_drawio] raises no [AssertionError]. *)
Theorem node_grid_in_bounds dsl g :
  accepted (prepare dsl) = Some g ->
  let zones := sorted (_ensure_list (dsl_zones g)) order_key in
  let nodes_in_zone := group_nodes (_ensure_list (dsl_nodes g)) in
  let zone_heights := fold_left (zone_height_body nodes_in_zone) zones ∅ in
  (exists root_elem, render g = Ok root_elem)
  /\ (forall msg, dsl_to_drawio dsl <> Raise (AssertionError msg))
  /\ forall z i,
       z ∈ zones ->
       let n_list := default [] (nodes_in_zone !! zone_id z) in
       0 <= i < len n_list ->
       exists zh,
         zone_heights !! zone_id z = Some zh
         /\ let zone_content_w := zone_width in
            let zone_content_h := zh - ZONE_HEADER_HEIGHT in
            let '(x, y) := node_xy (zone_cols n_list) i in
            0 <= x /\ 0 <= y
            /\ x + NODE_W <= zone_content_w
            /\ y + NODE_H <= zone_content_h
            /\ in_bounds x y zone_content_w zone_content_h = Ok ().
Proof.
  intros _ zones nodes_in_zone zone_heights.
  split; [apply render_total|]. split.
  { intros msg.
    destruct (dsl_to_drawio_total dsl) as [[out ->]|[msg' ->]]; discriminate. }
  intros z i Hz n_list Hi.
  destruct (zone_heights_spec nodes_in_zone zones ∅) as (Hh & _ & Hdom);
    [done|].
  destruct (Hdom z Hz) as [zh Hzh]. exists zh. split; [done|].
  apply Hh in Hzh. subst zh.
  pose proof (grid_in_bounds n_list i Hi) as Hgrid. cbv zeta in *.
  destruct (node_xy (zone_cols n_list) i) as [x y].
  destruct Hgrid as (Hx & Hy & Hw & Hcw & Hrows).
  assert (y + NODE_H
          <= zone_height_of nodes_in_zone (zone_id z) - ZONE_HEADER_HEIGHT)
    by (unfold zone_height_of; fold n_list; lia).
  split_and!; [done | done | lia | done |].
  apply in_bounds_Ok; [done | done | lia | done].
Qed.

Lemma node_grid_in_bounds_witness :
  exists g,
    accepted (prepare two_zone_dsl) = Some g
    /\ (exists root_elem, render g = Ok root_elem)
    /\ forall msg, dsl_to_drawio two_zone_dsl <> Raise (AssertionError msg).
Proof.
  eexists. split; [vm_compute; reflexivity|].
  split.
  - refine (proj1 (node_grid_in_bounds two_zone_dsl _ _)).
    vm_compute. reflexivity.
  - refine (proj1 (proj2 (node_grid_in_bounds two_zone_dsl _ _))).
    vm_compute. reflexivity.
Defined.

(* ------------------------------------------------------------------------- *)
(** ** Identifiers after normalization                                        *)
(* ------------------------------------------------------------------------- *)

(** C4 at [suffix_collision_dsl]: the graph is accepted and two of its zones
    carry the id [internet_1]. *)
Lemma suffixed_zone_id_collides :
  exists g,
    accepted (prepare suffix_collision_dsl) = Some g
    /\ zone_ids_of g
       = ["internet"; "internet_1"; "internet_1"; "zone_3"; "zone_4"]
    /\ ~ NoDup (zone_ids_of g).
Proof.
  eexists. split; [vm_compute; reflexivity|]. split; [vm_compute; reflexivity|].
  intros Hnd. apply NoDup_cons in Hnd as [_ Hnd].
  apply NoDup_cons in Hnd as [Hnotin _]. apply Hnotin. left.
Qed.

(** C8 at [counter_collision_dsl]: the first zone, node and flow the
    expansion appends repeat the ids of the entries of the input. *)
Lemma synthesized_ids_collide :
  exists g,
    accepted (prepare counter_collision_dsl) = Some g
    /\ zone_ids_of g = ["zone_1"; "zone_1"; "zone_2"; "zone_3"; "zone_4"]
    /\ take 3 (node_ids_of g) = ["node_1"; "node_1"; "node_2"]
    /\ take 3 (flow_ids_of g) = [Some "flow_1"; Some "flow_1"; Some "flow_2"].
Proof.
  eexists. split; [vm_compute; reflexivity|].
  split_and!; vm_compute; reflexivity.
Qed.

(** C7 at [renormalized_dsl]: normalizing the returned graph once more
    succeeds, with the same counts, and renames one of its zones. *)
Lemma renormalizing_renames_a_zone :
  exists g g',
    accepted (prepare renormalized_dsl) = Some g
    /\ accepted (prepare g) = Some g'
    /\ zone_ids_of g = ["zone_1"; "zone_1"; "zone_2"; "zone_3"; "zone_4"]
    /\ zone_ids_of g' = ["zone_1"; "zone_1_1"; "zone_2"; "zone_3"; "zone_4"]
    /\ length (node_ids_of g') = length (node_ids_of g)
    /\ length (flow_ids_of g') = length (flow_ids_of g).
Proof.
  eexists. eexists. split; [vm_compute; reflexivity|].
  split; [vm_compute; reflexivity|].
  split_and!; vm_compute; reflexivity.
Qed.

(* ------------------------------------------------------------------------- *)
(** ** The caller's payload                                                   *)
(* ------------------------------------------------------------------------- *)

(** C9 at [alias_dsl]: after the call, the caller's node has the zone [dmz];
    the caller's zone still has the id [DMZ Zone]. *)
Lemma caller_node_zone_is_rewritten :
  let after := caller_dsl (prepare alias_dsl) in
  map node_zone (_ensure_list (dsl_nodes alias_dsl)) = [Some "DMZ Zone"]
  /\ map node_zone (_ensure_list (dsl_nodes after)) = [Some "dmz"]
  /\ map zone_id (_ensure_list (dsl_zones after)) = ["DMZ Zone"]
  /\ after <> alias_dsl.
Proof.
  split_and!; try (vm_compute; reflexivity).
  vm_compute. discriminate.
Qed.

(** What a call does to the caller's payload, in full: with an empty zone
    list nothing, and otherwise it assigns every node its remapped zone,
    whether the call then returns a graph or errors. *)
Lemma caller_payload_after dsl min_zones min_nodes min_flows min_nodes_hard
    expand_to_meet_density :
  caller_dsl (validate_and_prepare_dsl dsl min_zones min_nodes min_flows
                min_nodes_hard expand_to_meet_density)
  = if is_nil (_ensure_list (dsl_zones dsl)) then dsl
    else dsl_nodes_assigned dsl
           (map (fun n => node_set_zone n (remapped_zone dsl n))
              (_ensure_list (dsl_nodes dsl))).
Proof.
  unfold validate_and_prepare_dsl.
  destruct (is_nil (_ensure_list (dsl_zones dsl))) eqn:Hnil.
  { apply is_nil_true in Hnil. rewrite Hnil. simpl.
    by destruct expand_to_meet_density. }
  assert (is_nil (sorted (_ensure_list (dsl_zones dsl)) order_key) = false)
    as -> by (rewrite is_nil_false, sorted_nil_iff; by apply is_nil_false).
  pose proof (node_loop_result dsl (_ensure_list (dsl_nodes dsl)) [] [])
    as Hloop.
  unfold final_zone_ids, final_zone_id_map, renamed_zones in Hloop.
  destruct (fold_left rename_zone _ _) as [[zone_id_map seen] zones].
  simpl in Hloop. rewrite Hloop. cbn [andb].
  repeat match goal with
         | |- context [if ?c then _ else _] => destruct c
         | |- context [match ?r with Ok _ => _ | _ => _ end] => destruct r
         end; reflexivity.
Qed.

(* ------------------------------------------------------------------------- *)
(** ** Strictness of the schema                                               *)
(* ------------------------------------------------------------------------- *)

(** C5 at [extra_zone_field_payload]: the payload validates, and the typed
    graph has dropped the field. *)
Lemma entity_extra_field_is_accepted :
  Schema.validate_dsl extra_zone_field_payload
  = (Some {| Schema.ArchitectureDSL_title := None;
             Schema.ArchitectureDSL_zones :=
               [{| Schema.Zone_id := "z0"; Schema.Zone_name := "Edge"; Schema.Zone_order := 0;
                   Schema.Zone_color := "#dae8fc" |}];
             Schema.ArchitectureDSL_trust_boundaries := [];
             Schema.ArchitectureDSL_groups := [];
             Schema.ArchitectureDSL_nodes :=
               [{| Schema.Node_id := "n0"; Schema.Node_label := "Gateway";
                   Schema.Node_zone := "z0"; Schema.Node_type := "app"; Schema.Node_tags := [] |}];
             Schema.ArchitectureDSL_flows := [];
             Schema.ArchitectureDSL_controls := [] |}, []).
Proof. vm_compute. reflexivity. Qed.

(** The part of C5 the code keeps: a field the schema does not define at
    the top level of the payload is rejected. *)
Lemma top_level_extra_field_is_rejected obj k v :
  (k, v) ∈ obj ->
  k ∉ ["title"; "zones"; "trust_boundaries"; "groups"; "nodes"; "flows";
        "controls"] ->
  exists errors, Schema.validate_dsl (Schema.JObj obj) = (None, errors) /\ errors <> [].
Proof.
  intros Hin Hk. unfold Schema.validate_dsl, Schema.model_validate, Schema.model.
  set (names := ["title"; "zones"; "trust_boundaries"; "groups"; "nodes";
                 "flows"; "controls"]) in *.
  assert (Hextra : Schema.extra_errors Schema.ArchitectureDSL_model_config names obj <> []).
  { unfold Schema.extra_errors. simpl. clear -Hin Hk.
    induction obj as [|[k' v'] obj IH]; [by apply elem_of_nil in Hin|].
    apply elem_of_cons in Hin as [[= <- <-]|Hin]; simpl.
    - by rewrite bool_decide_false.
    - destruct (bool_decide (k' ∈ names)); [by apply IH | done]. }
  destruct (Schema.extra_errors _ _ _) as [|e extras] eqn:He; [done|].
  destruct (Schema.ap _ _) as [errs|a]; (eexists; split; [reflexivity|]).
  all: rewrite map_app; simpl; by destruct (map _ _).
Qed.

(* ------------------------------------------------------------------------- *)
(** ** The normalizer of zone ids                                             *)
(* ------------------------------------------------------------------------- *)

Lemma alnum_not_underscore c : is_lower_alnum c = true -> is_underscore c = false.
Proof.
  intros H. unfold is_underscore. apply bool_decide_eq_false. intros ->.
  vm_compute in H. discriminate.
Qed.

Lemma is_underscore_eq c : is_underscore c = true -> c = "_"%char.
Proof. unfold is_underscore. by intros ?%bool_decide_eq_true. Qed.

Lemma slug_head b c s :
  slug b (String c s) = true ->
  (c = "_"%char /\ b = false /\ slug true s = true)
  \/ (is_underscore c = false /\ is_lower_alnum c = true /\ slug false s = true).
Proof.
  simpl. destruct (is_underscore c) eqn:Hc.
  - intros [Hb Hs]%andb_true_iff. left. apply is_underscore_eq in Hc.
    by destruct b.
  - intros [Ha Hs]%andb_true_iff. by right.
Qed.

Lemma slug_sub_non_alnum b s : slug b (sub_non_alnum b s) = true.
Proof.
  revert b. induction s as [|c s IH]; intros b; [done|]. simpl.
  destruct (is_lower_alnum c) eqn:Hc.
  - simpl. by rewrite (alnum_not_underscore c Hc), Hc, IH.
  - destruct b; [apply IH|]. simpl. apply IH.
Qed.

Lemma sub_underscores_slug b s : slug b s = true -> sub_underscores b s = s.
Proof.
  revert b. induction s as [|c s IH]; intros b H; [done|].
  apply slug_head in H as [(-> & -> & Hs)|(Hc & _ & Hs)]; simpl.
  - by rewrite (IH true Hs).
  - by rewrite Hc, (IH false Hs).
Qed.

Lemma sub_non_alnum_slug b s : slug b s = true -> sub_non_alnum b s = s.
Proof.
  revert b. induction s as [|c s IH]; intros b H; [done|].
  apply slug_head in H as [(-> & -> & Hs)|(_ & Hc & Hs)]; simpl.
  - by rewrite (IH true Hs).
  - by rewrite Hc, (IH false Hs).
Qed.

Lemma slug_weaken b s : slug true s = true -> slug b s = true.
Proof.
  destruct s as [|c s]; [done|]. simpl.
  destruct (is_underscore c); [done|]. done.
Qed.

Lemma alnum_not_upper c : is_lower_alnum c = true -> is_upper c = false.
Proof.
  unfold is_lower_alnum, is_upper. intros H.
  apply andb_false_iff.
  apply orb_true_iff in H as [H|H]; apply andb_true_iff in H as [H1 H2];
    apply N.leb_le in H1, H2; [right | left]; apply N.leb_gt; lia.
Qed.

Lemma alnum_not_space c : is_lower_alnum c = true -> Ascii.is_space c = false.
Proof.
  intros H. destruct c as [[] [] [] [] [] [] [] []]; try done;
    vm_compute in H; discriminate.
Qed.

Lemma lower_slug b s : slug b s = true -> lower s = s.
Proof.
  revert b. induction s as [|c s IH]; intros b H; [done|].
  apply slug_head in H as [(-> & -> & Hs)|(_ & Hc & Hs)]; simpl.
  - by rewrite (IH true Hs).
  - unfold lower_char. by rewrite (alnum_not_upper c Hc), (IH false Hs).
Qed.

Lemma rstrip_by_last p s :
  (forall c, last_char s = Some c -> p c = false) -> rstrip_by p s = s.
Proof.
  induction s as [|c s IH]; intros H; [done|]. simpl.
  destruct s as [|d s].
  - simpl. by rewrite (H c).
  - rewrite IH by (intros c' Hc'; by apply H). done.
Qed.

Lemma lstrip_by_head p c s : p c = false -> lstrip_by p (String c s) = String c s.
Proof. intros H. simpl. by rewrite H. Qed.

Lemma last_char_slug b s c :
  slug b s = true -> last_char s = Some c ->
  c = "_"%char \/ is_lower_alnum c = true.
Proof.
  revert b. induction s as [|d s IH]; intros b H Hl; [done|].
  destruct s as [|e s].
  - injection Hl as <-.
    apply slug_head in H as [(-> & _)|(_ & Hc & _)]; eauto.
  - apply slug_head in H as [(-> & _ & Hs)|(_ & _ & Hs)]; eapply IH; eauto.
Qed.

Lemma strip_snake_case s : snake_case s -> strip s = s.
Proof.
  intros (Hne & Hs & Hl). unfold strip, strip_by.
  destruct s as [|c s]; [done|].
  pose proof Hs as Hs'.
  apply slug_head in Hs' as [(_ & [=] & _)|(_ & Hc & _)].
  rewrite lstrip_by_head by by apply alnum_not_space.
  apply rstrip_by_last. intros d Hd.
  destruct (last_char_slug _ _ _ Hs Hd) as [->|Hd']; [done|].
  by apply alnum_not_space.
Qed.

Lemma strip_underscores_snake_case s :
  snake_case s -> strip_by is_underscore s = s.
Proof.
  intros (Hne & Hs & Hl). unfold strip_by.
  destruct s as [|c s]; [done|].
  pose proof Hs as Hs'.
  apply slug_head in Hs' as [(_ & [=] & _)|(Hc & _ & _)].
  rewrite lstrip_by_head by done.
  apply rstrip_by_last. intros d Hd. unfold is_underscore.
  apply bool_decide_eq_false. intros ->. done.
Qed.

Lemma slug_lstrip b s : slug b s = true -> slug true (lstrip_by is_underscore s) = true.
Proof.
  revert b. induction s as [|c s IH]; intros b H; [done|].
  pose proof H as H'.
  apply slug_head in H' as [(-> & -> & Hs)|(Hc & Ha & Hs)].
  - simpl. by apply (IH true).
  - simpl lstrip_by. rewrite Hc. simpl. by rewrite Hc, Ha, Hs.
Qed.

Lemma slug_rstrip b s :
  slug b s = true -> slug b (rstrip_by is_underscore s) = true.
Proof.
  revert b. induction s as [|c s IH]; intros b H; [done|].
  apply slug_head in H as [(-> & -> & Hs)|(Hc & Ha & Hs)].
  - simpl rstrip_by. pose proof (IH true Hs) as Hr.
    destruct (rstrip_by is_underscore s) as [|d r]; [done|].
    change (slug false (String "_" (String d r)))
      with (negb false && slug true (String d r)). done.
  - simpl rstrip_by. pose proof (IH false Hs) as Hr.
    destruct (rstrip_by is_underscore s) as [|d r].
    + rewrite Hc. simpl. by rewrite Hc, Ha.
    + simpl. rewrite Hc, Ha. simpl in Hr. by rewrite Hr.
Qed.

Lemma last_char_rstrip p s c :
  last_char (rstrip_by p s) = Some c -> p c = false.
Proof.
  revert c. induction s as [|d s IH]; intros c; [done|]. simpl.
  destruct (rstrip_by p s) as [|e r] eqn:Hr.
  - destruct (p d) eqn:Hd; [done|]. by intros [= <-].
  - intros H. by apply IH.
Qed.

Lemma normalize_zone_id_snake raw : snake_case (_normalize_zone_id raw).
Proof.
  unfold _normalize_zone_id.
  set (s0 := sub_non_alnum false (lower (strip raw))).
  assert (H0 : slug false s0 = true) by apply slug_sub_non_alnum.
  rewrite (sub_underscores_slug false s0 H0).
  set (s := strip_by is_underscore s0).
  assert (Hs : slug true s = true).
  { unfold s, strip_by. apply slug_rstrip. by apply (slug_lstrip false). }
  assert (Hl : last_char s <> Some "_"%char).
  { intros Hl. by apply last_char_rstrip in Hl. }
  destruct s as [|c s']; [|done].
  split_and!; done.
Qed.

Lemma normalize_snake_case s : snake_case s -> _normalize_zone_id s = s.
Proof.
  intros H. pose proof H as (Hne & Hs & Hl).
  unfold _normalize_zone_id.
  rewrite (strip_snake_case s H), (lower_slug true s Hs).
  rewrite (sub_non_alnum_slug false s) by by apply slug_weaken.
  rewrite (sub_underscores_slug false s) by by apply slug_weaken.
  rewrite (strip_underscores_snake_case s H).
  by destruct s.
Qed.

Lemma slug_all_chars b s :
  slug b s = true ->
  all_chars (fun c => is_lower_alnum c || is_underscore c) s = true.
Proof.
  revert b. induction s as [|c s IH]; intros b H; [done|].
  apply slug_head in H as [(-> & -> & Hs)|(_ & Hc & Hs)]; simpl.
  - by apply (IH true).
  - rewrite Hc. by apply (IH false).
Qed.

Lemma slug_no_leading_underscore s :
  slug true s = true -> starts_with "_" s = false.
Proof.
  destruct s as [|c s]; [done|]. intros H.
  apply slug_head in H as [(_ & [=] & _)|(Hc & _ & _)].
  apply bool_decide_eq_false in Hc. cbn [starts_with].
  destruct (Ascii.eqb_spec "_" c) as [Heq|]; [by subst|done].
Qed.

Lemma slug_no_double_underscore b s :
  slug b s = true -> str_find s "__" = None.
Proof.
  revert b. induction s as [|c s IH]; intros b H; [done|].
  cbn [str_find].
  change (starts_with "__" (String c s))
    with (Ascii.eqb "_" c && starts_with "_" s).
  apply slug_head in H as [(-> & -> & Hs)|(Hc & _ & Hs)].
  - rewrite (IH true Hs), (slug_no_leading_underscore s Hs).
    by rewrite andb_false_r.
  - rewrite (IH false Hs). apply bool_decide_eq_false in Hc.
    destruct (Ascii.eqb_spec "_" c) as [Heq|]; [by subst|done].
Qed.

(** X1: whatever the raw id, the normalized id is not empty, is made of the
    characters [a-z0-9_] only, neither starts nor ends with an underscore
    and has no two underscores in a row. *)
Theorem normalize_zone_id_shape raw :
  let s := _normalize_zone_id raw in
  s <> ""
  /\ all_chars (fun c => is_lower_alnum c || is_underscore c) s = true
  /\ starts_with "_" s = false
  /\ last_char s <> Some "_"%char
  /\ str_contains s "__" = false.
Proof.
  intros s. destruct (normalize_zone_id_snake raw) as (Hne & Hs & Hl).
  fold s in Hne, Hs, Hl. split_and!; [done | by eapply slug_all_chars | | done |].
  - by apply slug_no_leading_underscore.
  - unfold str_contains. rewrite (slug_no_double_underscore true s Hs).
    apply bool_decide_eq_false. by intros [].
Qed.

(** X2: the ids the normalizer leaves as they are are exactly the
    snake-case ones; so normalizing twice is normalizing once. *)
Theorem normalize_zone_id_fixed_points s :
  (_normalize_zone_id s = s <-> snake_case s)
  /\ _normalize_zone_id (_normalize_zone_id s) = _normalize_zone_id s.
Proof.
  split.
  - split; [|apply normalize_snake_case].
    intros <-. apply normalize_zone_id_snake.
  - apply normalize_snake_case, normalize_zone_id_snake.
Qed.

Lemma alias_cases k v :
  ZONE_ALIASES !! k = Some v ->
  (k, v) ∈ [("dmz_zone", "dmz"); ("dmz", "dmz"); ("internet", "internet");
            ("external", "internet"); ("perimeter", "dmz");
            ("internal", "internal"); ("on_prem", "on_prem");
            ("on-prem", "on_prem"); ("onprem", "on_prem"); ("cloud", "cloud");
            ("tenant", "tenant"); ("data", "data"); ("data_layer", "data");
            ("identity", "identity"); ("vendor", "vendor")].
Proof. intros H. by apply elem_of_list_to_map_2 in H. Qed.

(** X3: a canonical id is its own canonical id: every value of the alias
    table is a key that maps to itself, and an id that is no alias is a
    fixed point of the normalizer. *)
Theorem canonical_zone_id_idempotent raw :
  _canonical_zone_id (_canonical_zone_id raw) = _canonical_zone_id raw
  /\ _normalize_zone_id (_canonical_zone_id raw) = _canonical_zone_id raw.
Proof.
  remember (_canonical_zone_id raw) as c eqn:Hc.
  unfold _canonical_zone_id in Hc.
  destruct (ZONE_ALIASES !! _normalize_zone_id raw) as [v|] eqn:Hv;
    simpl in Hc; subst c.
  - apply alias_cases in Hv.
    repeat (apply elem_of_cons in Hv as [[= _ ->]|Hv];
            [split; vm_compute; reflexivity|]).
    by apply elem_of_nil in Hv.
  - unfold _canonical_zone_id.
    rewrite (normalize_snake_case _ (normalize_zone_id_snake raw)).
    by rewrite Hv.
Qed.

(** X4: of the keys of the alias table, all but [on-prem] are normal forms
    some raw id normalizes to; [on-prem] is never looked up, since no
    normalized id holds a hyphen. *)
Theorem alias_key_reachable k :
  is_Some (ZONE_ALIASES !! k) ->
  (exists raw, _normalize_zone_id raw = k) <-> k <> "on-prem".
Proof.
  intros [v Hv]. split.
  - intros [raw <-] Heq.
    destruct (normalize_zone_id_snake raw) as (_ & Hs & _).
    rewrite Heq in Hs. vm_compute in Hs. discriminate.
  - intros Hk. exists k. apply alias_cases in Hv.
    repeat (apply elem_of_cons in Hv as [[= -> _]|Hv];
            [first [done | vm_compute; reflexivity]|]).
    by apply elem_of_nil in Hv.
Qed.

Lemma alias_key_reachable_witness :
  (exists raw, _normalize_zone_id raw = "data_layer")
  <-> "data_layer" <> "on-prem".
Proof. apply (alias_key_reachable "data_layer"). vm_compute. eauto. Defined.

(* ------------------------------------------------------------------------- *)
(** ** The expansion and the validation in closed form                        *)
(* ------------------------------------------------------------------------- *)

Lemma seqZ_snoc m j : 0 <= j -> seqZ m (j + 1) = seqZ m j ++ [m + j].
Proof. intros Hj. rewrite seqZ_app by lia. done. Qed.

Lemma item_lookup {A} (xs : list A) i x :
  item xs i = Ok x -> xs !! Z.to_nat i = Some x.
Proof. apply item_Ok. Qed.

(** *** The zone loop *)

Lemma zone_loop_body_tbs st st' :
  zone_loop_body st = Ok st' ->
  zl_next_z st = len (zl_zones st) ->
  (zl_zones st = [] /\ zl_trust_boundaries st' = zl_trust_boundaries st)
  \/ (zl_zones st <> [] /\ exists tb,
        zl_trust_boundaries st' = zl_trust_boundaries st ++ [tb]
        /\ separates_neighbours (zl_zones st') tb).
Proof.
  intros H Hn. pose proof (zone_loop_body_Ok _ _ H) as [Hz _].
  unfold zone_loop_body in H. fold (placeholder_zone (zl_next_z st)) in H.
  rewrite len_snoc in H.
  destruct (zl_zones st) as [|z0 zs0] eqn:Hzs.
  - left. split; [done|]. simpl in H. by injection H as <-.
  - right. split; [done|]. rewrite <- Hzs in *.
    assert ((2 <=? len (zl_zones st) + 1) = true) as Hc.
    { apply Z.leb_le. rewrite Hzs. unfold len. simpl. lia. }
    rewrite Hc in H. inv_bind H. rename a into tbs, Ha into Htbs.
    injection H as <-. inv_bind Htbs. rename a into prev.
    injection Htbs as <-. simpl.
    eexists. split; [done|]. apply item_lookup in Ha.
    exists (Z.to_nat (len (zl_zones st) + 1 - 2)), prev,
      (placeholder_zone (zl_next_z st)).
    split_and!; [done| |done].
    replace (S (Z.to_nat (len (zl_zones st) + 1 - 2)))
      with (length (zl_zones st)).
    + by rewrite lookup_app_r, Nat.sub_diag by lia.
    + unfold len. rewrite Hzs. simpl. lia.
Qed.

Lemma separates_neighbours_app zones zs tb :
  separates_neighbours zones tb -> separates_neighbours (zones ++ zs) tb.
Proof.
  intros (i & za & zb & Ha & Hb & Htb). exists i, za, zb.
  split_and!; [| |done]; by apply lookup_app_l_Some.
Qed.

Lemma len_fmap_seqZ {A} (f : Z -> A) m j : 0 <= j -> len (f <$> seqZ m j) = j.
Proof. intros. unfold len. rewrite length_fmap, length_seqZ. lia. Qed.

Lemma zone_loop_closed_form zones0 tbs0 ids mz zst :
  while (rounds mz (len zones0)) (fun st => len (zl_zones st) <? mz)
    zone_loop_body
    {| zl_zones := zones0; zl_trust_boundaries := tbs0;
       zl_zone_id_set := ids; zl_next_z := len zones0 |} = Ok zst ->
  zl_zones zst = zones0 ++ synthesized_zones (len zones0) mz
  /\ exists tbs,
       zl_trust_boundaries zst = tbs0 ++ tbs
       /\ Forall (separates_neighbours (zl_zones zst)) tbs
       /\ len tbs = Z.max 0 (mz - Z.max 1 (len zones0)).
Proof.
  set (n0 := len zones0). intros H.
  pose proof (len_nonneg zones0) as Hn0. fold n0 in Hn0.
  apply (while_ok_inv _ _
    (fun st => exists j,
       0 <= j
       /\ zl_zones st = zones0 ++ (placeholder_zone <$> seqZ n0 j)
       /\ zl_next_z st = n0 + j
       /\ (j = 0 \/ n0 + j <= mz)
       /\ exists tbs,
            zl_trust_boundaries st = tbs0 ++ tbs
            /\ Forall (separates_neighbours (zl_zones st)) tbs
            /\ len tbs = Z.max 0 (n0 + j - Z.max 1 n0))) in H.
  - destruct H as [(j & Hj & Hz & _ & Hle & tbs & Htbs & Hsep & Hlen) Hc].
    apply Z.ltb_ge in Hc. rewrite Hz, len_app, len_fmap_seqZ in Hc by done.
    fold n0 in Hc. unfold synthesized_zones.
    assert (seqZ n0 (mz - n0) = seqZ n0 j) as ->.
    { destruct Hle as [->|Hle]; [by rewrite seqZ_nil by lia|].
      f_equal. lia. }
    split; [done|]. exists tbs. split_and!; [done..|].
    rewrite Hlen. destruct Hle as [->|Hle]; lia.
  - exists 0. simpl. rewrite app_nil_r. split_and!; [done..|lia|by left|].
    exists []. rewrite app_nil_r. split_and!; [done|done|].
    unfold len at 1. simpl. lia.
  - clear H. intros st st' (j & Hj & Hz & Hn & Hle & tbs & Htbs & Hsep & Hlen)
      Hc Hb.
    apply Z.ltb_lt in Hc. rewrite Hz, len_app, len_fmap_seqZ in Hc by done.
    fold n0 in Hc.
    assert (Hnext : zl_next_z st = len (zl_zones st)).
    { rewrite Hz, len_app, len_fmap_seqZ by done. done. }
    pose proof (zone_loop_body_tbs _ _ Hb Hnext) as Htb.
    apply zone_loop_body_Ok in Hb as [Hz' Hn'].
    exists (j + 1). split_and!; [lia| | lia | right; lia |].
    { rewrite Hz', Hz, Hn, seqZ_snoc, fmap_app, app_assoc by done. done. }
    destruct Htb as [[Hnil Hsame]|[Hne (tb & Happ & Htb)]].
    + exists tbs. rewrite Hsame. split_and!; [done| |].
      * rewrite Hz'. eapply Forall_impl; [exact Hsep|].
        intros tb. apply separates_neighbours_app.
      * rewrite Hz in Hnil. apply app_eq_nil in Hnil as [Hnil0 Hnil1].
        assert (n0 = 0) by (unfold n0; by rewrite Hnil0).
        assert (j = 0).
        { apply (f_equal length) in Hnil1.
          rewrite length_fmap, length_seqZ in Hnil1. simpl in Hnil1. lia. }
        lia.
    + exists (tbs ++ [tb]). rewrite Happ, Htbs, app_assoc.
      split_and!; [done| |].
      * apply Forall_app. split; [|by apply Forall_singleton].
        rewrite Hz'. eapply Forall_impl; [exact Hsep|].
        intros tb'. apply separates_neighbours_app.
      * rewrite len_snoc, Hlen.
        assert (0 < n0 + j).
        { rewrite <- Hn, Hnext. destruct (zl_zones st); [done|].
          unfold len. simpl. lia. }
        lia.
Qed.

(** *** The node loop *)

Lemma node_loop_body_exact zone_order st st' :
  node_loop_body zone_order st = Ok st' ->
  let n := round_robin_node zone_order (nl_next_n st) in
  nl_nodes st' = nl_nodes st ++ [n]
  /\ nl_node_by_id st' = odict.set (node_id n) n (nl_node_by_id st)
  /\ nl_next_n st' = nl_next_n st + 1.
Proof.
  unfold node_loop_body. intros H. inv_bind H. rename a into i, Ha into Hi.
  inv_bind H. rename a into z, Ha into Hz. injection H as <-.
  apply py_mod_Ok in Hi as [_ ->]. apply item_lookup in Hz.
  unfold round_robin_node. rewrite Hz. done.
Qed.

Lemma node_loop_closed_form zone_order nodes0 ids node_by_id mn nst :
  while (rounds mn (len nodes0)) (fun st => len (nl_nodes st) <? mn)
    (node_loop_body zone_order)
    {| nl_nodes := nodes0; nl_node_id_set := ids;
       nl_node_by_id := node_by_id; nl_next_n := len nodes0 |} = Ok nst ->
  let ns := synthesized_nodes zone_order (len nodes0) mn in
  nl_nodes nst = nodes0 ++ ns
  /\ nl_node_by_id nst = enter_nodes ns node_by_id
  /\ (len nodes0 < mn -> zone_order <> []).
Proof.
  set (n0 := len nodes0). intros H.
  pose proof (len_nonneg nodes0) as Hn0. fold n0 in Hn0.
  assert (Hne : n0 < mn -> zone_order <> []).
  { intros Hlt ->. unfold rounds in H. fold n0 in H.
    destruct (Z.to_nat (mn - n0)) as [|fuel] eqn:Hfuel; [lia|].
    cbn [while nl_nodes] in H. fold n0 in H.
    assert ((n0 <? mn) = true) as Hc by by apply Z.ltb_lt.
    rewrite Hc in H. unfold node_loop_body in H at 1.
    cbn in H. discriminate. }
  cbv zeta. apply and_assoc. split; [|done].
  apply (while_ok_inv _ _
    (fun st => exists j,
       0 <= j
       /\ nl_nodes st = nodes0 ++ (round_robin_node zone_order <$> seqZ n0 j)
       /\ nl_next_n st = n0 + j
       /\ (j = 0 \/ n0 + j <= mn)
       /\ nl_node_by_id st
          = enter_nodes (round_robin_node zone_order <$> seqZ n0 j)
              node_by_id)) in H.
  - destruct H as [(j & Hj & Hn & _ & Hle & Hd) Hc].
    apply Z.ltb_ge in Hc. rewrite Hn, len_app, len_fmap_seqZ in Hc by done.
    fold n0 in Hc. unfold synthesized_nodes.
    assert (seqZ n0 (mn - n0) = seqZ n0 j) as ->; [|done].
    destruct Hle as [->|Hle]; [by rewrite seqZ_nil by lia|]. f_equal. lia.
  - exists 0. simpl. rewrite app_nil_r. split_and!; [done..|lia|by left|done].
  - clear H. intros st st' (j & Hj & Hn & Hnext & Hle & Hd) Hc Hb.
    apply Z.ltb_lt in Hc. rewrite Hn, len_app, len_fmap_seqZ in Hc by done.
    fold n0 in Hc. apply node_loop_body_exact in Hb as (Hn' & Hd' & Hnext').
    exists (j + 1). rewrite seqZ_snoc, fmap_app by done.
    split_and!; [lia| | lia | right; lia |].
    + rewrite Hn', Hn, Hnext, app_assoc. done.
    + rewrite Hd', Hd, Hnext. unfold enter_nodes. by rewrite fold_left_app.
Qed.

(** *** The flow loop *)

Lemma flow_loop_body_exact node_list st st' :
  flow_loop_body node_list st = Ok st' ->
  fl_flows st' = fl_flows st ++ [consecutive_flow node_list (fl_next_f st)]
  /\ fl_next_f st' = fl_next_f st + 1.
Proof.
  unfold flow_loop_body. intros H. inv_bind H. rename a into i, Ha into Hi.
  inv_bind H. rename a into src, Ha into Hsrc.
  inv_bind H. rename a into tgt, Ha into Htgt. injection H as <-.
  apply py_mod_Ok in Hi as [Hne ->]. apply item_lookup in Hsrc, Htgt.
  assert (0 <= fl_next_f st mod (len node_list - 1)).
  { pose proof (len_nonneg node_list).
    destruct (decide (len node_list = 0)) as [H0|H0].
    - unfold len in H0. destruct node_list; [done | simpl in H0; lia].
    - apply Z.mod_pos_bound. lia. }
  rewrite Z2Nat.inj_add, Nat.add_1_r in Htgt by lia.
  unfold consecutive_flow. simpl. by rewrite Hsrc, Htgt.
Qed.

Lemma flow_loop_closed_form node_list flows0 mf fst_ :
  while (rounds mf (len flows0))
    (fun st => (len (fl_flows st) <? mf) && (2 <=? len node_list))
    (flow_loop_body node_list)
    {| fl_flows := flows0; fl_next_f := len flows0 |} = Ok fst_ ->
  fl_flows fst_ = flows0 ++ synthesized_flows node_list (len flows0) mf.
Proof.
  set (n0 := len flows0). intros H.
  pose proof (len_nonneg flows0) as Hn0. fold n0 in Hn0.
  apply (while_ok_inv _ _
    (fun st => exists j,
       0 <= j
       /\ fl_flows st = flows0 ++ (consecutive_flow node_list <$> seqZ n0 j)
       /\ fl_next_f st = n0 + j
       /\ (j = 0 \/ (n0 + j <= mf /\ 2 <= len node_list)))) in H.
  - destruct H as [(j & Hj & Hf & _ & Hle) Hc]. unfold synthesized_flows.
    rewrite Hf, len_app, len_fmap_seqZ in Hc by done. fold n0 in Hc.
    apply andb_false_iff in Hc as [Hc|Hc].
    + apply Z.ltb_ge in Hc.
      assert (seqZ n0 (mf - n0) = seqZ n0 j) as ->.
      { destruct Hle as [->|[Hle _]]; [by rewrite seqZ_nil by lia|].
        f_equal. lia. }
      destruct (2 <=? len node_list) eqn:H2; [done|].
      apply Z.leb_gt in H2. destruct Hle as [->|[_ ?]]; [done|lia].
    + rewrite Hc. apply Z.leb_gt in Hc.
      destruct Hle as [->|[_ ?]]; [done|lia].
  - exists 0. simpl. rewrite app_nil_r. split_and!; [done..|lia|by left].
  - clear H. intros st st' (j & Hj & Hf & Hnext & Hle)
      [Hc H2]%andb_true_iff Hb.
    apply Z.ltb_lt in Hc. apply Z.leb_le in H2.
    rewrite Hf, len_app, len_fmap_seqZ in Hc by done. fold n0 in Hc.
    apply flow_loop_body_exact in Hb as [Hf' Hnext'].
    exists (j + 1). rewrite seqZ_snoc, fmap_app by done.
    split_and!; [lia| | lia | right; lia].
    rewrite Hf', Hf, Hnext, app_assoc. done.
Qed.

(** *** [node_by_id] lists each id once, at its first occurrence *)

Lemma keys_enter_nodes ns d :
  odict.keys (enter_nodes ns d)
  = fold_left (fun ks k => if bool_decide (k ∈ ks) then ks else ks ++ [k])
      (map node_id ns) (odict.keys d).
Proof.
  revert d. induction ns as [|n ns IH]; intros d; [done|].
  simpl. rewrite IH. by rewrite odict_keys_set.
Qed.

Lemma keys_comprehension_enter nodes0 ns :
  odict.keys (enter_nodes ns (odict.comprehension node_id id nodes0))
  = first_occurrences (map node_id (nodes0 ++ ns)).
Proof.
  unfold odict.comprehension. fold (enter_nodes nodes0 []).
  unfold first_occurrences.
  rewrite map_app, fold_left_app, !keys_enter_nodes. done.
Qed.

(** *** [_expand_dsl_to_density] in closed form *)

Lemma expand_closed_form dsl zone_ids mz mn mf g :
  let zones0 := default [] (dsl_zones dsl) in
  let nodes0 := default [] (dsl_nodes dsl) in
  let flows0 := default [] (dsl_flows dsl) in
  let tbs0 := default [] (dsl_trust_boundaries dsl) in
  _expand_dsl_to_density dsl zone_ids
    (odict.comprehension node_id id nodes0) mz mn mf = Ok g ->
  let zones := zones0 ++ synthesized_zones (len zones0) mz in
  let nodes :=
    nodes0 ++ synthesized_nodes (sorted zones order_key) (len nodes0) mn in
  let flows :=
    flows0 ++ synthesized_flows (first_occurrences (map node_id nodes))
                (len flows0) mf in
  (exists tbs,
     g = dsl_with dsl zones nodes flows (tbs0 ++ tbs)
     /\ Forall (separates_neighbours zones) tbs
     /\ len tbs = Z.max 0 (mz - Z.max 1 (len zones0)))
  /\ (len nodes0 < mn -> zones <> []).
Proof.
  intros zones0 nodes0 flows0 tbs0 H. unfold _expand_dsl_to_density in H.
  fold zones0 nodes0 flows0 tbs0 in H.
  inv_bind H. rename a into zst, Ha into Hz.
  inv_bind H. rename a into nst, Ha into Hn.
  inv_bind H. rename a into fst_, Ha into Hf. injection H as <-.
  apply zone_loop_closed_form in Hz as (Hz & tbs & Htbs & Hsep & Hlen).
  rewrite Hz in *.
  apply node_loop_closed_form in Hn as (Hn & Hd & Hne). rewrite Hd in Hf.
  rewrite keys_comprehension_enter in Hf.
  apply flow_loop_closed_form in Hf. rewrite Hn in *.
  split; [exists tbs; by rewrite Hf, Htbs|].
  intros Hlt. apply Hne in Hlt. by rewrite sorted_nil_iff in Hlt.
Qed.

(** *** [validate_and_prepare_dsl] on a payload with zones *)

Lemma is_nil_sorted_zones dsl :
  _ensure_list (dsl_zones dsl) <> [] ->
  is_nil (sorted (_ensure_list (dsl_zones dsl)) order_key) = false.
Proof. intros H. by rewrite is_nil_false, sorted_nil_iff. Qed.

Lemma validate_with_zones dsl mz mn mf mh ex :
  _ensure_list (dsl_zones dsl) <> [] ->
  let errors :=
    map (invalid_zone_error dsl)
      (filter (dangling dsl) (_ensure_list (dsl_nodes dsl))) in
  let base := normalized dsl in
  returned (validate_and_prepare_dsl dsl mz mn mf mh ex)
  = if negb (is_nil errors) then Ok (None, errors)
    else if len (remapped_nodes dsl) <? mh then
      Ok (None, [too_few_nodes mh (len (remapped_nodes dsl))])
    else if ex && sparse base mz mn mf then
      g ← _expand_dsl_to_density base (map zone_id (normalized_zones dsl))
             (odict.comprehension node_id id (remapped_nodes dsl)) mz mn mf;
      Ok (Some g, [])
    else Ok (Some base, []).
Proof.
  intros Hz errors base. unfold validate_and_prepare_dsl.
  rewrite (is_nil_sorted_zones dsl Hz). cbn [andb].
  pose proof (node_loop_result dsl (_ensure_list (dsl_nodes dsl)) [] [])
    as Hloop.
  change (fold_left rename_zone _ (∅, ∅, [])) with (renamed_zones dsl).
  assert (Hm : final_zone_id_map dsl = (renamed_zones dsl).1.1) by done.
  assert (Hnz : normalized_zones dsl = (renamed_zones dsl).2) by done.
  assert (Hids : final_zone_ids dsl
                 = list_to_set (map zone_id (renamed_zones dsl).2)) by done.
  destruct (renamed_zones dsl) as [[zone_id_map seen] zones].
  cbn [fst snd] in Hm, Hnz, Hids. subst zone_id_map zones.
  rewrite <- Hids, Hloop. cbn [app].
  fold (remapped_nodes dsl). fold errors.
  destruct (negb (is_nil errors)) eqn:He; [done|].
  apply negb_false_iff, is_nil_true in He. rewrite He.
  destruct (len _ <? mh); [done|].
  unfold base, sparse, normalized.
  cbn [dsl_with dsl_zones dsl_nodes dsl_flows _ensure_list default].
  destruct (ex && _); [|done].
  by destruct (_expand_dsl_to_density _ _ _ _ _ _).
Qed.

(** *** The renaming loop *)

Lemma rename_zone_unfold m seen acc z :
  rename_zone (m, seen, acc) z
  = let c := _canonical_zone_id (zone_id z) in
    let new_id := match seen !! c with
                  | Some k => c +:+ "_" +:+ pretty (k + 1)
                  | None => c
                  end in
    (<[zone_id z := new_id]> m,
     <[c := match seen !! c with Some k => k + 1 | None => 0 end]> seen,
     acc ++ [zone_with_id z new_id]).
Proof. unfold rename_zone. by destruct (seen !! _). Qed.

Lemma canonical_count_snoc c zs z :
  canonical_count c (zs ++ [z])
  = canonical_count c zs
    + (if decide (_canonical_zone_id (zone_id z) = c) then 1 else 0).
Proof.
  unfold canonical_count. rewrite filter_app, len_app. f_equal.
  rewrite filter_cons, filter_nil. by destruct (decide _).
Qed.

Lemma canonical_count_nonneg c zs : 0 <= canonical_count c zs.
Proof. apply len_nonneg. Qed.

Lemma rename_fold zs earlier m seen acc :
  (forall c, seen !! c = if canonical_count c earlier =? 0 then None
                         else Some (canonical_count c earlier - 1)) ->
  (fold_left rename_zone zs (m, seen, acc)).2
  = acc ++ imap (fun i z =>
                   zone_with_id z (renamed_id (earlier ++ take i zs) z)) zs.
Proof.
  revert earlier m seen acc.
  induction zs as [|z zs IH]; intros earlier m seen acc Hseen.
  { simpl. by rewrite app_nil_r. }
  cbn [fold_left]. rewrite rename_zone_unfold. cbv zeta.
  set (c := _canonical_zone_id (zone_id z)).
  rewrite (IH (earlier ++ [z])).
  - rewrite <- app_assoc. f_equal. cbn [imap take app]. rewrite app_nil_r.
    f_equal.
    + f_equal. unfold renamed_id. fold c. rewrite (Hseen c).
      pose proof (canonical_count_nonneg c earlier).
      destruct (canonical_count c earlier =? 0) eqn:Hk; [done|].
      apply Z.eqb_neq in Hk. do 3 f_equal. lia.
    + apply imap_ext. intros i z' _. cbn [compose take].
      by rewrite <- app_assoc.
  - intros c'. rewrite canonical_count_snoc. fold c.
    pose proof (canonical_count_nonneg c' earlier).
    destruct (decide (c = c')) as [<-|Hne].
    + rewrite lookup_insert_eq, (Hseen c).
      destruct (canonical_count c earlier =? 0) eqn:Hk.
      * apply Z.eqb_eq in Hk. rewrite Hk. done.
      * apply Z.eqb_neq in Hk.
        destruct (canonical_count c earlier + 1 =? 0) eqn:Hk'; [lia|].
        f_equal. lia.
    + rewrite lookup_insert_ne by done. rewrite Z.add_0_r. apply Hseen.
Qed.

(** The zone-id map sends every raw id that was renamed to an id of the
    renamed zones, and nothing else to anything. *)
Lemma rename_fold_map zs m seen acc :
  let '(m', _, acc') := fold_left rename_zone zs (m, seen, acc) in
  (forall k, is_Some (m' !! k)
             <-> is_Some (m !! k) \/ k ∈ map zone_id zs)
  /\ (forall k v, m' !! k = Some v ->
        v ∈ map zone_id acc' \/ (m !! k = Some v /\ k ∉ map zone_id zs))
  /\ exists more, acc' = acc ++ more /\ length more = length zs.
Proof.
  revert m seen acc. induction zs as [|z zs IH]; intros m seen acc.
  { simpl. split_and!; [set_solver | set_solver |].
    exists []. by rewrite app_nil_r. }
  cbn [fold_left]. rewrite rename_zone_unfold. cbv zeta.
  set (c := _canonical_zone_id (zone_id z)).
  set (new_id := match seen !! c with
                 | Some k => c +:+ "_" +:+ pretty (k + 1)
                 | None => c
                 end).
  specialize (IH (<[zone_id z := new_id]> m)
                (<[c := match seen !! c with Some k => k + 1 | None => 0 end]>
                   seen)
                (acc ++ [zone_with_id z new_id])).
  destruct (fold_left rename_zone zs _) as [[m' seen'] acc'].
  destruct IH as (Hdom & Hval & more & -> & Hlen). split_and!.
  - intros k. rewrite Hdom, lookup_insert_is_Some. simpl.
    rewrite elem_of_cons.
    destruct (decide (zone_id z = k)) as [Heq|Hne];
      intuition (auto; congruence).
  - intros k v Hk. apply Hval in Hk as [Hin|[Hk Hnot]]; [by left|].
    destruct (decide (zone_id z = k)) as [<-|Hne].
    + rewrite lookup_insert_eq in Hk. injection Hk as <-. left.
      rewrite !map_app, !elem_of_app. left. right. simpl. left.
    + rewrite lookup_insert_ne in Hk by done. right. split; [done|].
      simpl. rewrite elem_of_cons. intros [Heq|Hin]; [congruence | done].
  - exists (zone_with_id z new_id :: more). rewrite <- app_assoc.
    split; [done|]. simpl. by rewrite Hlen.
Qed.

Lemma normalized_zones_length dsl :
  length (normalized_zones dsl) = length (_ensure_list (dsl_zones dsl)).
Proof.
  unfold normalized_zones, renamed_zones.
  pose proof (rename_fold_map (sorted (_ensure_list (dsl_zones dsl)) order_key)
                ∅ ∅ []) as H.
  destruct (fold_left rename_zone _ _) as [[m seen] acc].
  destruct H as (_ & _ & more & -> & Hlen). simpl.
  by rewrite Hlen, sorted_length.
Qed.

(** A node that names a zone by an id of the zone list does not dangle. *)
Lemma listed_zone_not_dangling dsl n z :
  z ∈ _ensure_list (dsl_zones dsl) -> node_zone n = Some (zone_id z) ->
  ~ dangling dsl n.
Proof.
  intros Hz Hn. unfold dangling, remapped_zone, final_zone_ids,
    final_zone_id_map, renamed_zones.
  pose proof (rename_fold_map (sorted (_ensure_list (dsl_zones dsl)) order_key)
                ∅ ∅ []) as H.
  destruct (fold_left rename_zone _ _) as [[m seen] acc].
  destruct H as (Hdom & Hval & _). cbn [fst snd].
  rewrite Hn. replace (get_or (Some (zone_id z)) "") with (zone_id z)
    by by destruct (zone_id z).
  destruct (proj2 (Hdom (zone_id z))) as [v Hv].
  { right. apply list_elem_of_fmap. exists z. by rewrite sorted_elem_of. }
  rewrite Hv. simpl. intros Hnot. apply Hnot, elem_of_list_to_set.
  apply Hval in Hv as [Hin|[Hv _]]; [done|by rewrite lookup_empty in Hv].
Qed.

Lemma synthesized_zones_nil n goal : goal <= n -> synthesized_zones n goal = [].
Proof. intros. unfold synthesized_zones. by rewrite seqZ_nil by lia. Qed.

Lemma synthesized_nodes_nil zo n goal :
  goal <= n -> synthesized_nodes zo n goal = [].
Proof. intros. unfold synthesized_nodes. by rewrite seqZ_nil by lia. Qed.

Lemma synthesized_flows_nil nl n goal :
  goal <= n -> synthesized_flows nl n goal = [].
Proof.
  intros. unfold synthesized_flows. rewrite seqZ_nil by lia.
  by destruct (2 <=? len nl).
Qed.

Lemma normalized_zones_nonempty dsl :
  _ensure_list (dsl_zones dsl) <> [] -> normalized_zones dsl <> [].
Proof.
  intros H Hnil. apply (f_equal length) in Hnil.
  rewrite normalized_zones_length in Hnil.
  by destruct (_ensure_list (dsl_zones dsl)).
Qed.

Lemma no_offenders dsl :
  is_nil (map (invalid_zone_error dsl)
            (filter (dangling dsl) (_ensure_list (dsl_nodes dsl)))) = true
  <-> Forall (fun n => ~ dangling dsl n) (_ensure_list (dsl_nodes dsl)).
Proof.
  rewrite is_nil_true. split.
  - intros H%fmap_nil_inv. apply Forall_forall. intros n Hn Hd.
    assert (n ∈ filter (dangling dsl) (_ensure_list (dsl_nodes dsl)))
      as Hin by by apply list_elem_of_filter.
    rewrite H in Hin. by apply elem_of_nil in Hin.
  - intros H.
    assert (filter (dangling dsl) (_ensure_list (dsl_nodes dsl)) = []) as ->;
      [|done].
    induction H as [|n ns Hn _ IH]; [done|].
    by rewrite filter_cons, decide_False.
Qed.

Lemma remapped_nodes_length dsl :
  len (remapped_nodes dsl) = len (_ensure_list (dsl_nodes dsl)).
Proof. unfold remapped_nodes, len. by rewrite length_map. Qed.

(** With a zone list that is not empty, the call returns a graph exactly
    when no node dangles and the hard minimum is met; the graph is the
    normalized payload, filled up when expansion is enabled. *)
Lemma accepted_with_zones dsl mz mn mf mh ex :
  _ensure_list (dsl_zones dsl) <> [] ->
  let call := validate_and_prepare_dsl dsl mz mn mf mh ex in
  (Forall (fun n => ~ dangling dsl n) (_ensure_list (dsl_nodes dsl))
   /\ mh <= len (_ensure_list (dsl_nodes dsl)) ->
   exists g, returned call = Ok (Some g, [])
             /\ if ex then filled_up (normalized dsl) mz mn mf g
                else g = normalized dsl)
  /\ (forall g, returned call = Ok (Some g, []) ->
        Forall (fun n => ~ dangling dsl n) (_ensure_list (dsl_nodes dsl))
        /\ mh <= len (_ensure_list (dsl_nodes dsl))).
Proof.
  intros Hz call. unfold call. rewrite (validate_with_zones _ _ _ _ _ _ Hz).
  rewrite remapped_nodes_length.
  set (errors := map _ _). pose proof (no_offenders dsl) as Hoff.
  fold errors in Hoff. split.
  - intros [Hclean Hhard]. apply Hoff in Hclean. rewrite Hclean. cbn [negb].
    assert ((len (_ensure_list (dsl_nodes dsl)) <? mh) = false) as ->
      by by apply Z.ltb_ge.
    pose proof (normalized_zones_nonempty dsl Hz) as Hnz.
    destruct ex; cbn [andb]; [|eauto].
    destruct (sparse (normalized dsl) mz mn mf) eqn:Hsparse.
    + destruct (expand_total (normalized dsl)
                  (map zone_id (normalized_zones dsl))
                  (odict.comprehension node_id id (remapped_nodes dsl))
                  mz mn mf) as [g Hg]; [by right|].
      rewrite Hg. exists g. split; [done|].
      by apply expand_closed_form in Hg.
    + eexists. split; [done|].
      unfold sparse in Hsparse.
      apply orb_false_iff in Hsparse as [[H1 H2]%orb_false_iff H3].
      apply Z.ltb_ge in H1, H2, H3. unfold filled_up.
      rewrite synthesized_zones_nil, synthesized_nodes_nil,
        synthesized_flows_nil by done.
      rewrite !app_nil_r. split; [|done].
      exists []. rewrite !app_nil_r. split_and!; [done|done|].
      assert (0 < len (_ensure_list (dsl_zones (normalized dsl)))).
      { simpl. destruct (normalized_zones dsl); [done|].
        unfold len. simpl. lia. }
      change (len []) with 0. lia.
  - intros g. destruct (is_nil errors) eqn:He; cbn [negb]; [|done].
    destruct (len _ <? mh) eqn:Hh; [done|]. intros _.
    apply Z.ltb_ge in Hh. split; [by apply Hoff | done].
Qed.

Lemma accepted_without_zones dsl mz mn mf mh :
  _ensure_list (dsl_zones dsl) = [] ->
  forall g,
    returned (validate_and_prepare_dsl dsl mz mn mf mh true) = Ok (Some g, [])
    -> filled_up (dsl_with dsl [] [] [] []) mz mn mf g.
Proof.
  intros Hz g. unfold validate_and_prepare_dsl. rewrite Hz. cbn.
  intros H. inv_bind H. injection H as <-.
  by apply (expand_closed_form (dsl_with dsl [] [] [] []) []) in Ha.
Qed.

Lemma accepted_filled_up dsl mz mn mf mh g :
  returned (validate_and_prepare_dsl dsl mz mn mf mh true) = Ok (Some g, []) ->
  filled_up (expansion_base dsl) mz mn mf g.
Proof.
  intros H. unfold expansion_base.
  destruct (is_nil (_ensure_list (dsl_zones dsl))) eqn:Hnil.
  - apply is_nil_true in Hnil. by eapply accepted_without_zones.
  - apply is_nil_false in Hnil.
    destruct (accepted_with_zones dsl mz mn mf mh true Hnil) as [Hex Hall].
    destruct (Hex (Hall g H)) as (g' & Hg' & Hfill).
    rewrite H in Hg'. by injection Hg' as <-.
Qed.

Lemma accepted_Some (o : outcome (option DSL * list string)) g :
  accepted o = Some g <-> returned o = Ok (Some g, []).
Proof.
  unfold accepted. destruct (returned o) as [[[g'|] [|e es]]| |]; naive_solver.
Qed.

(* ------------------------------------------------------------------------- *)
(** ** What [validate_and_prepare_dsl] accepts and returns                    *)
(* ------------------------------------------------------------------------- *)

(** *** Ids at their first occurrence *)

Lemma first_occurrences_spec xs :
  NoDup (first_occurrences xs)
  /\ forall x, x ∈ first_occurrences xs <-> x ∈ xs.
Proof.
  unfold first_occurrences.
  enough (forall ks, NoDup ks ->
            let r := fold_left
                       (fun ks k => if bool_decide (k ∈ ks) then ks
                                    else ks ++ [k]) xs ks in
            NoDup r /\ forall x, x ∈ r <-> x ∈ ks \/ x ∈ xs) as H.
  { destruct (H [] (NoDup_nil_2)) as [Hnd Hel]. split; [done|].
    intros x. rewrite Hel. set_solver. }
  induction xs as [|k xs IH]; intros ks Hks; simpl.
  { split; [done|]. set_solver. }
  case_bool_decide as Hin.
  - destruct (IH ks Hks) as [Hnd Hel]. split; [done|].
    intros x. rewrite Hel. set_solver.
  - destruct (IH (ks ++ [k])) as [Hnd Hel].
    { apply NoDup_app. split_and!; [done| |apply NoDup_singleton].
      intros x Hx ->%list_elem_of_singleton. done. }
    split; [done|]. intros x. rewrite Hel. set_solver.
Qed.

Lemma len_first_occurrences xs :
  len (first_occurrences xs) = len (remove_dups xs).
Proof.
  destruct (first_occurrences_spec xs) as [Hnd Hel].
  apply len_NoDup_eq; [done | apply NoDup_remove_dups |].
  intros x. by rewrite Hel, elem_of_remove_dups.
Qed.

(** *** The renaming of zones *)

(** X5: the renaming loop gives each zone, in the order of [order], its
    canonical id, and appends [_k] to it when [k] zones before it have the
    same canonical id; nothing else of a zone changes. *)
Theorem zone_renaming dsl :
  let zones := sorted (_ensure_list (dsl_zones dsl)) order_key in
  normalized_zones dsl
  = imap (fun i z => zone_with_id z (renamed_id (take i zones) z)) zones.
Proof.
  intros zones. unfold normalized_zones, renamed_zones. fold zones.
  rewrite (rename_fold zones []); [done|].
  intros c. by rewrite lookup_empty.
Qed.

(** The node loop finds a node's remapped zone missing exactly when the zone
    the node names is unknown before and after the renaming. *)
Lemma dangling_names_unknown_zone dsl n :
  dangling dsl n <-> names_unknown_zone dsl n.
Proof.
  unfold names_unknown_zone. set (zid := get_or (node_zone n) "").
  unfold dangling, remapped_zone, final_zone_ids,
    final_zone_id_map, normalized_zones, renamed_zones. fold zid.
  pose proof (rename_fold_map (sorted (_ensure_list (dsl_zones dsl)) order_key)
                ∅ ∅ []) as H.
  destruct (fold_left rename_zone _ _) as [[m seen] acc].
  destruct H as (Hdom & Hval & _). cbn [fst snd].
  assert (Hraw : zid ∈ map zone_id (_ensure_list (dsl_zones dsl))
                 <-> is_Some (m !! zid)).
  { rewrite Hdom, lookup_empty, is_Some_alt.
    rewrite !list_elem_of_fmap. setoid_rewrite sorted_elem_of. naive_solver. }
  rewrite elem_of_list_to_set.
  destruct (m !! zid) as [v|] eqn:Hv; simpl.
  - apply Hval in Hv as [Hin|[Hv _]]; [|by rewrite lookup_empty in Hv].
    split; [done|]. intros [Hnraw _]. destruct Hnraw. apply Hraw. eauto.
  - split; [|naive_solver]. intros Hnin. split; [|done].
    rewrite Hraw. by intros [].
Qed.

(** X6: for a payload with a non-empty zone list, the nodes the call reports
    are exactly those that name a zone which is neither an id of the zone
    list as the caller wrote it nor an id of the renamed zones.  When there
    are such nodes the call returns no graph and one message for each of
    them, in the order of the payload, and nothing else; when there is none,
    no node is reported: the call returns the message about too few nodes
    alone, or a graph and no error. *)
Theorem invalid_zones_are_reported dsl min_zones min_nodes min_flows
    min_nodes_hard expand_to_meet_density :
  let call := validate_and_prepare_dsl dsl min_zones min_nodes min_flows
                min_nodes_hard expand_to_meet_density in
  let nodes := _ensure_list (dsl_nodes dsl) in
  let offenders := filter (names_unknown_zone dsl) nodes in
  _ensure_list (dsl_zones dsl) <> [] ->
  if is_nil offenders then
    if len nodes <? min_nodes_hard then
      returned call
      = Ok (None, [too_few_nodes min_nodes_hard (len nodes)])
    else exists g, returned call = Ok (Some g, [])
  else returned call = Ok (None, map (invalid_zone_error dsl) offenders).
Proof.
  intros call nodes offenders Hz.
  assert (Hoff : offenders = filter (dangling dsl) nodes).
  { apply list_filter_iff. intros n. symmetry.
    apply dangling_names_unknown_zone. }
  rewrite Hoff. clear Hoff offenders. subst call nodes.
  set (nodes := _ensure_list (dsl_nodes dsl)).
  pose proof (validate_with_zones dsl min_zones min_nodes min_flows
                min_nodes_hard expand_to_meet_density Hz) as Hcall.
  cbv zeta in Hcall. fold nodes in Hcall.
  rewrite remapped_nodes_length in Hcall. fold nodes in Hcall.
  destruct (is_nil (filter (dangling dsl) nodes)) eqn:Hnil.
  - apply is_nil_true in Hnil.
    destruct (len nodes <? min_nodes_hard) eqn:Hhard.
    + by rewrite Hcall, Hnil.
    + destruct (accepted_with_zones dsl min_zones min_nodes min_flows
                  min_nodes_hard expand_to_meet_density Hz) as [Hex _].
      destruct Hex as (g & Hg & _); [|by exists g].
      split; [|fold nodes; lia].
      apply no_offenders. fold nodes. by rewrite Hnil.
  - rewrite Hcall. by destruct (filter (dangling dsl) nodes).
Qed.

Lemma invalid_zones_are_reported_witness :
  returned (prepare dangling_node_dsl)
  = Ok (None, ["Node 'db' references invalid zone 'storage'.";
               "Node 'cache' references invalid zone 'memory'."]).
Proof.
  assert (Hz : _ensure_list (dsl_zones dangling_node_dsl) <> []) by done.
  pose proof (invalid_zones_are_reported dangling_node_dsl MIN_ZONES MIN_NODES
                MIN_FLOWS MIN_NODES_HARD true Hz) as H.
  vm_compute in H. vm_compute. exact H.
Defined.

(** *** Which payloads are accepted *)

(** X7: when the thresholds ask for a zone, or for no node, the call returns
    a graph in exactly two cases: the zone list is empty and expansion is
    enabled; or the zone list is not empty, no node dangles and the hard
    minimum of nodes is met.  Flows, trust boundaries, groups and controls
    have no part in it. *)
Theorem accepted_iff dsl min_zones min_nodes min_flows min_nodes_hard
    expand_to_meet_density :
  0 < min_zones \/ min_nodes <= 0 ->
  is_Some (accepted (validate_and_prepare_dsl dsl min_zones min_nodes
                       min_flows min_nodes_hard expand_to_meet_density))
  <-> if is_nil (_ensure_list (dsl_zones dsl)) then
        expand_to_meet_density = true
      else
        Forall (fun n => ~ dangling dsl n) (_ensure_list (dsl_nodes dsl))
        /\ min_nodes_hard <= len (_ensure_list (dsl_nodes dsl)).
Proof.
  intros Hmin. destruct (is_nil _) eqn:Hnil.
  - apply is_nil_true in Hnil. destruct expand_to_meet_density.
    + destruct (expand_from_empty dsl min_zones min_nodes min_flows Hmin)
        as (zs & ns & fs & tbs & Hexp & _).
      unfold accepted, validate_and_prepare_dsl. rewrite Hnil. cbn.
      rewrite Hexp. cbn. split; eauto.
    + unfold accepted, validate_and_prepare_dsl. rewrite Hnil. cbn.
      split; [by intros [] | done].
  - apply is_nil_false in Hnil.
    destruct (accepted_with_zones dsl min_zones min_nodes min_flows
                min_nodes_hard expand_to_meet_density Hnil) as [Hex Hall].
    split.
    + intros [g Hg%accepted_Some]. eauto.
    + intros H. destruct (Hex H) as (g & Hg & _). exists g.
      by apply accepted_Some.
Qed.

Lemma accepted_iff_witness :
  is_Some (accepted (prepare two_zone_dsl))
  <-> Forall (fun n => ~ dangling two_zone_dsl n)
        (_ensure_list (dsl_nodes two_zone_dsl))
      /\ MIN_NODES_HARD <= len (_ensure_list (dsl_nodes two_zone_dsl)).
Proof.
  apply (accepted_iff two_zone_dsl MIN_ZONES MIN_NODES MIN_FLOWS
           MIN_NODES_HARD true).
  left. reflexivity.
Defined.

(** X8: a payload with zones, without a dangling node and with fewer nodes
    than the hard minimum is turned down with one message that names the
    minimum and the number found; [dsl_to_drawio], whose hard minimum is one
    node, raises [ValueError] for every payload that has zones and no node. *)
Theorem too_few_nodes_is_fatal dsl :
  _ensure_list (dsl_zones dsl) <> [] ->
  (forall min_zones min_nodes min_flows min_nodes_hard expand_to_meet_density,
     Forall (fun n => ~ dangling dsl n) (_ensure_list (dsl_nodes dsl)) ->
     len (_ensure_list (dsl_nodes dsl)) < min_nodes_hard ->
     returned (validate_and_prepare_dsl dsl min_zones min_nodes min_flows
                 min_nodes_hard expand_to_meet_density)
     = Ok (None,
           ["At least " +:+ pretty min_nodes_hard
              +:+ " node(s) are required (found "
              +:+ pretty (len (_ensure_list (dsl_nodes dsl))) +:+ ")."]))
  /\ (_ensure_list (dsl_nodes dsl) = [] ->
      dsl_to_drawio dsl
      = Raise (ValueError
                 ("DSL validation failed: "
                  +:+ "At least 1 node(s) are required (found 0)."))).
Proof.
  intros Hz.
  assert (Hcall : forall mz mn mf mh ex,
            Forall (fun n => ~ dangling dsl n) (_ensure_list (dsl_nodes dsl)) ->
            len (_ensure_list (dsl_nodes dsl)) < mh ->
            returned (validate_and_prepare_dsl dsl mz mn mf mh ex)
            = Ok (None,
                  [too_few_nodes mh (len (_ensure_list (dsl_nodes dsl)))])).
  { intros mz mn mf mh ex Hclean Hfew.
    rewrite (validate_with_zones _ _ _ _ _ _ Hz).
    apply no_offenders in Hclean. rewrite Hclean. cbn [negb].
    rewrite remapped_nodes_length.
    by assert ((len (_ensure_list (dsl_nodes dsl)) <? mh) = true) as ->
      by by apply Z.ltb_lt. }
  split; [exact Hcall|].
  intros Hnodes. unfold dsl_to_drawio. rewrite Hcall.
  - by rewrite Hnodes.
  - rewrite Hnodes. constructor.
  - by rewrite Hnodes.
Qed.

Lemma too_few_nodes_is_fatal_witness :
  dsl_to_drawio no_node_dsl
  = Raise (ValueError
             ("DSL validation failed: "
              +:+ "At least 1 node(s) are required (found 0).")).
Proof.
  apply (too_few_nodes_is_fatal no_node_dsl); [discriminate | reflexivity].
Defined.

(** A graph comes with no error. *)
Lemma graph_without_errors dsl mz mn mf mh ex g errs :
  returned (validate_and_prepare_dsl dsl mz mn mf mh ex) = Ok (Some g, errs) ->
  errs = [].
Proof.
  destruct (is_nil (_ensure_list (dsl_zones dsl))) eqn:Hnil.
  - apply is_nil_true in Hnil. unfold validate_and_prepare_dsl.
    rewrite Hnil. destruct ex; cbn; [|done].
    intros H. inv_bind H. by injection H.
  - apply is_nil_false in Hnil.
    rewrite (validate_with_zones _ _ _ _ _ _ Hnil).
    repeat (match goal with
            | |- context [if ?c then _ else _] => destruct c
            end); try congruence.
    intros H. inv_bind H. by injection H.
Qed.

Lemma dsl_to_drawio_Ok dsl :
  (exists out, dsl_to_drawio dsl = Ok out)
  <-> exists g, returned (prepare dsl) = Ok (Some g, []).
Proof.
  split.
  - intros [out H]. unfold dsl_to_drawio in H. inv_bind H.
    destruct a as [[g|] errs]; [|done]. fold (prepare dsl) in Ha.
    pose proof Ha as ->%graph_without_errors. eauto.
  - intros [g Hg]. unfold dsl_to_drawio. fold (prepare dsl). rewrite Hg.
    destruct (render_total g) as [root_elem Hrender].
    unfold mbind at 1, result_bind. rewrite Hrender.
    unfold mbind, result_bind.
    destruct (render_shape "mxfile" eq_refl eq_refl g root_elem Hrender)
      as (cs & -> & Hm).
    destruct (render_shape "?xml" eq_refl eq_refl g (mxfile cs) Hrender)
      as (cs' & [= <-] & Hx).
    rewrite serialize_xml_safe_total by done. eauto.
Qed.

(** X9: for a payload of the shape the payload records describe (every zone
    and every node carries an id, every field has its type), [dsl_to_drawio]
    returns a document exactly when the zone list is empty, or there is at
    least one node and no node names an unknown zone. *)
Theorem dsl_to_drawio_returns_iff dsl :
  (exists out, dsl_to_drawio dsl = Ok out)
  <-> _ensure_list (dsl_zones dsl) = []
      \/ (Forall (fun n => ~ dangling dsl n) (_ensure_list (dsl_nodes dsl))
          /\ 1 <= len (_ensure_list (dsl_nodes dsl))).
Proof.
  rewrite dsl_to_drawio_Ok. unfold prepare.
  destruct (is_nil (_ensure_list (dsl_zones dsl))) eqn:Hnil.
  - apply is_nil_true in Hnil. split; [by left|]. intros _.
    destruct (expand_from_empty dsl MIN_ZONES MIN_NODES MIN_FLOWS)
      as (zs & ns & fs & tbs & Hexp & _); [by left|].
    unfold validate_and_prepare_dsl. rewrite Hnil. cbn.
    rewrite Hexp. cbn. eauto.
  - apply is_nil_false in Hnil.
    destruct (accepted_with_zones dsl MIN_ZONES MIN_NODES MIN_FLOWS
                MIN_NODES_HARD true Hnil) as [Hex Hall].
    split.
    + intros [g Hg]. right. by apply (Hall g).
    + intros [?|H]; [done|]. destruct (Hex H) as (g & Hg & _). eauto.
Qed.

(** *** What the expansion adds *)

(** X10: with expansion enabled, a returned graph is the normalized payload
    (nothing of the payload when its zone list is empty) with entries
    appended: zones [zone_k] for [k] from the number of zones up to the
    threshold, nodes [node_k] placed round robin over the zones sorted by
    [order], flows [flow_k] between ids that are neighbours among the node
    ids at their first occurrence, and trust boundaries between neighbour
    zones.  Title, groups and controls are the payload's. *)
Theorem expansion_appends dsl min_zones min_nodes min_flows min_nodes_hard g :
  accepted (validate_and_prepare_dsl dsl min_zones min_nodes min_flows
              min_nodes_hard true) = Some g ->
  filled_up (expansion_base dsl) min_zones min_nodes min_flows g
  /\ dsl_title g = dsl_title dsl
  /\ dsl_groups g = dsl_groups dsl
  /\ dsl_controls g = dsl_controls dsl.
Proof.
  intros H%accepted_Some. pose proof (accepted_filled_up _ _ _ _ _ _ H) as Hf.
  split; [done|]. destruct Hf as [(tbs & -> & _) _].
  unfold expansion_base. by destruct (is_nil _).
Qed.

Lemma expansion_appends_witness :
  exists g,
    accepted (prepare two_zone_dsl) = Some g
    /\ filled_up (expansion_base two_zone_dsl) MIN_ZONES MIN_NODES MIN_FLOWS g.
Proof.
  eexists. split; [vm_compute; reflexivity|].
  refine (proj1 (expansion_appends two_zone_dsl MIN_ZONES MIN_NODES MIN_FLOWS
                   MIN_NODES_HARD _ _)).
  vm_compute. reflexivity.
Defined.

Lemma len_synthesized_zones n goal :
  len (synthesized_zones n goal) = Z.max 0 (goal - n).
Proof.
  unfold synthesized_zones, len. rewrite length_fmap, length_seqZ. lia.
Qed.

Lemma len_synthesized_nodes zo n goal :
  len (synthesized_nodes zo n goal) = Z.max 0 (goal - n).
Proof.
  unfold synthesized_nodes, len. rewrite length_fmap, length_seqZ. lia.
Qed.

Lemma len_synthesized_flows nl n goal :
  len (synthesized_flows nl n goal)
  = if 2 <=? len nl then Z.max 0 (goal - n) else 0.
Proof.
  unfold synthesized_flows. destruct (2 <=? len nl); [|done].
  unfold len. rewrite length_fmap, length_seqZ. lia.
Qed.

(** X11: the expansion stops at the thresholds.  A returned graph has
    [max] of the threshold and the number it started from of zones and of
    nodes, and of flows when its nodes carry two different ids or more;
    with fewer ids it gains no flow. *)
Theorem expansion_counts dsl min_zones min_nodes min_flows min_nodes_hard g :
  accepted (validate_and_prepare_dsl dsl min_zones min_nodes min_flows
              min_nodes_hard true) = Some g ->
  let base := expansion_base dsl in
  len (_ensure_list (dsl_zones g))
  = Z.max min_zones (len (_ensure_list (dsl_zones base)))
  /\ len (_ensure_list (dsl_nodes g))
     = Z.max min_nodes (len (_ensure_list (dsl_nodes base)))
  /\ len (_ensure_list (dsl_flows g))
     = (if 2 <=? distinct_node_ids g
        then Z.max min_flows (len (_ensure_list (dsl_flows base)))
        else len (_ensure_list (dsl_flows base)))
  /\ len (_ensure_list (dsl_trust_boundaries g))
     = len (_ensure_list (dsl_trust_boundaries base))
       + Z.max 0 (min_zones
                  - Z.max 1 (len (_ensure_list (dsl_zones base)))).
Proof.
  intros H%accepted_Some base.
  destruct (accepted_filled_up _ _ _ _ _ _ H) as [(tbs & -> & _ & Htbs) _].
  fold base. unfold distinct_node_ids, node_ids_of.
  cbn [dsl_with dsl_zones dsl_nodes dsl_flows dsl_trust_boundaries
       _ensure_list from_option id].
  rewrite !len_app, len_synthesized_zones, len_synthesized_nodes,
    len_synthesized_flows, len_first_occurrences, Htbs.
  split_and!; [lia | lia | | done].
  destruct (2 <=? _); lia.
Qed.

Lemma expansion_counts_witness :
  exists g,
    accepted (prepare one_node_dsl) = Some g
    /\ len (_ensure_list (dsl_zones g)) = 5
    /\ len (_ensure_list (dsl_nodes g)) = 25
    /\ len (_ensure_list (dsl_flows g)) = 20
    /\ len (_ensure_list (dsl_trust_boundaries g)) = 4.
Proof.
  eexists. split; [vm_compute; reflexivity|].
  refine (expansion_counts one_node_dsl MIN_ZONES MIN_NODES MIN_FLOWS
            MIN_NODES_HARD _ _).
  vm_compute. reflexivity.
Defined.

(** X12: a payload with zones that is accepted with expansion disabled, or
    that already meets the three thresholds, is returned normalized and
    nothing more: the zones renamed, the nodes remapped, flows and trust
    boundaries as they were. *)
Theorem dense_graph_is_only_normalized dsl min_zones min_nodes min_flows
    min_nodes_hard expand_to_meet_density g :
  _ensure_list (dsl_zones dsl) <> [] ->
  accepted (validate_and_prepare_dsl dsl min_zones min_nodes min_flows
              min_nodes_hard expand_to_meet_density) = Some g ->
  expand_to_meet_density = false
  \/ (min_zones <= len (_ensure_list (dsl_zones dsl))
      /\ min_nodes <= len (_ensure_list (dsl_nodes dsl))
      /\ min_flows <= len (_ensure_list (dsl_flows dsl))) ->
  g = normalized dsl.
Proof.
  intros Hz H%accepted_Some Hdense.
  destruct (accepted_with_zones dsl min_zones min_nodes min_flows
              min_nodes_hard expand_to_meet_density Hz) as [Hex Hall].
  destruct (Hex (Hall g H)) as (g' & Hg' & Hfill).
  rewrite H in Hg'. injection Hg' as <-.
  destruct expand_to_meet_density; [|done].
  destruct Hdense as [?|(Hzs & Hns & Hfs)]; [done|].
  destruct Hfill as [(tbs & -> & _ & Htbs) _].
  cbn [normalized dsl_with dsl_zones dsl_nodes dsl_flows
       dsl_trust_boundaries _ensure_list from_option id] in *.
  assert (len (normalized_zones dsl) = len (_ensure_list (dsl_zones dsl)))
    as Hlz by (unfold len; by rewrite normalized_zones_length).
  rewrite synthesized_zones_nil, synthesized_nodes_nil, synthesized_flows_nil
    by (rewrite ?remapped_nodes_length; lia).
  assert (tbs = []) as ->.
  { assert (0 < len (_ensure_list (dsl_zones dsl))).
    { destruct (_ensure_list (dsl_zones dsl)); [done|]. unfold len. simpl. lia. }
    destruct tbs; [done|]. unfold len in Htbs at 1. simpl in Htbs. lia. }
  by rewrite !app_nil_r.
Qed.

Lemma dense_graph_is_only_normalized_witness :
  accepted (prepare dense_dsl) = Some (normalized dense_dsl).
Proof.
  assert (exists g, accepted (prepare dense_dsl) = Some g) as [g Hg].
  { eexists. vm_compute. reflexivity. }
  rewrite Hg. f_equal.
  apply (dense_graph_is_only_normalized dense_dsl MIN_ZONES MIN_NODES
           MIN_FLOWS MIN_NODES_HARD true g).
  - discriminate.
  - exact Hg.
  - right. vm_compute. by split_and!.
Defined.

(** *** References inside a returned graph *)

Lemma round_robin_node_zone zone_order k :
  zone_order <> [] -> 0 <= k ->
  exists z, z ∈ zone_order
            /\ node_zone (round_robin_node zone_order k) = Some (zone_id z).
Proof.
  intros Hne Hk. unfold round_robin_node.
  assert (0 < len zone_order).
  { destruct zone_order; [done|]. unfold len. simpl. lia. }
  destruct (lookup_lt_is_Some_2 zone_order
              (Z.to_nat (k mod len zone_order))) as [z Hz].
  { pose proof (Z.mod_pos_bound k (len zone_order)). unfold len in *. lia. }
  exists z. rewrite Hz. split; [by eapply list_elem_of_lookup_2 | done].
Qed.

Lemma remapped_node_zone dsl n :
  n ∈ _ensure_list (dsl_nodes dsl) -> ~ dangling dsl n ->
  exists z, z ∈ normalized_zones dsl
            /\ node_zone (node_set_zone n (remapped_zone dsl n))
               = Some (zone_id z).
Proof.
  intros _ Hn. unfold dangling, final_zone_ids in Hn.
  apply dec_stable in Hn. apply elem_of_list_to_set in Hn.
  apply list_elem_of_fmap in Hn as (z & Hz & Hin). exists z.
  split; [done|]. simpl. by rewrite Hz.
Qed.

Lemma filled_up_nodes_have_zones base mz mn mf g :
  filled_up base mz mn mf g ->
  (forall n, n ∈ _ensure_list (dsl_nodes base) ->
     exists z, z ∈ _ensure_list (dsl_zones base)
               /\ node_zone n = Some (zone_id z)) ->
  forall n, n ∈ _ensure_list (dsl_nodes g) ->
    exists z, z ∈ _ensure_list (dsl_zones g)
              /\ node_zone n = Some (zone_id z).
Proof.
  intros [(tbs & -> & _) Hne] Hbase n.
  cbn [dsl_with dsl_zones dsl_nodes _ensure_list from_option id].
  intros [Hn|Hn]%elem_of_app.
  - destruct (Hbase n Hn) as (z & Hz & Hnz). exists z.
    split; [|done]. apply elem_of_app. by left.
  - unfold synthesized_nodes in Hn.
    apply list_elem_of_fmap in Hn as (k & -> & Hk).
    apply elem_of_seqZ in Hk.
    pose proof (len_nonneg (_ensure_list (dsl_nodes base))).
    destruct (round_robin_node_zone
                (sorted (_ensure_list (dsl_zones base)
                         ++ synthesized_zones
                              (len (_ensure_list (dsl_zones base))) mz)
                   order_key) k) as (z & Hz & Hnz); [|lia|].
    { rewrite sorted_nil_iff. apply Hne. lia. }
    exists z. split; [|done]. by apply sorted_elem_of in Hz.
Qed.

Lemma group_nodes_elem_of nodes n :
  n ∈ nodes ->
  n ∈ default [] (group_nodes nodes !! get_or (node_zone n) "").
Proof.
  unfold group_nodes.
  enough (forall m : gmap string (list Node),
            let m' := fold_left
                        (fun niz n =>
                           let zid := get_or (node_zone n) "" in
                           <[zid := default [] (niz !! zid) ++ [n]]> niz)
                        nodes m in
            (forall k x, x ∈ default [] (m !! k) -> x ∈ default [] (m' !! k))
            /\ (n ∈ nodes ->
                n ∈ default [] (m' !! get_or (node_zone n) ""))) as H.
  { intros Hn. by apply (H ∅). }
  induction nodes as [|n' nodes IH]; intros m; cbn [fold_left].
  { split; [done|]. by intros ?%elem_of_nil. }
  cbv zeta in IH.
  set (m1 := <[get_or (node_zone n') "" := _]> m).
  destruct (IH m1) as [Hkeep Hin]. cbv zeta.
  assert (Hm1 : forall k x, x ∈ default [] (m !! k) ->
                            x ∈ default [] (m1 !! k)).
  { intros k x Hx. unfold m1.
    destruct (decide (get_or (node_zone n') "" = k)) as [<-|Hne].
    - rewrite lookup_insert_eq. simpl. apply elem_of_app. by left.
    - by rewrite lookup_insert_ne. }
  split.
  - intros k x Hx. by apply Hkeep, Hm1.
  - intros [->|Hn]%elem_of_cons; [|by apply Hin].
    apply Hkeep. unfold m1. rewrite lookup_insert_eq. simpl.
    apply elem_of_app. right. left.
Qed.

Lemma returned_nodes_have_zones dsl mz mn mf mh ex g :
  returned (validate_and_prepare_dsl dsl mz mn mf mh ex) = Ok (Some g, []) ->
  forall n, n ∈ _ensure_list (dsl_nodes g) ->
    exists z, z ∈ _ensure_list (dsl_zones g)
              /\ node_zone n = Some (zone_id z).
Proof.
  intros H.
  destruct (is_nil (_ensure_list (dsl_zones dsl))) eqn:Hnil.
  - apply is_nil_true in Hnil. destruct ex.
    + eapply filled_up_nodes_have_zones;
        [by eapply accepted_without_zones|].
      intros n Hn. by apply elem_of_nil in Hn.
    + unfold validate_and_prepare_dsl in H. rewrite Hnil in H. done.
  - apply is_nil_false in Hnil.
    destruct (accepted_with_zones dsl mz mn mf mh ex Hnil) as [Hex Hall].
    destruct (Hall g H) as [Hclean Hhard].
    destruct (Hex (conj Hclean Hhard)) as (g' & Hg' & Hfill).
    rewrite H in Hg'. injection Hg' as <-.
    assert (Hbase : forall n, n ∈ _ensure_list (dsl_nodes (normalized dsl)) ->
              exists z, z ∈ _ensure_list (dsl_zones (normalized dsl))
                        /\ node_zone n = Some (zone_id z)).
    { intros n. cbn [normalized dsl_with dsl_zones dsl_nodes _ensure_list
                     from_option id].
      unfold remapped_nodes. intros (n0 & -> & Hn0)%list_elem_of_fmap.
      apply remapped_node_zone; [done|].
      by eapply Forall_forall in Hclean. }
    destruct ex; [|by subst g].
    by eapply filled_up_nodes_have_zones.
Qed.

(** X13: in a returned graph every node names a zone of the graph: the
    nodes of the payload after they were remapped, and the nodes the
    expansion added.  So the renderer, which lays out under each zone the
    nodes that name its id, has every node under one of the zones. *)
Theorem accepted_nodes_have_zones dsl min_zones min_nodes min_flows
    min_nodes_hard expand_to_meet_density g :
  accepted (validate_and_prepare_dsl dsl min_zones min_nodes min_flows
              min_nodes_hard expand_to_meet_density) = Some g ->
  forall n, n ∈ _ensure_list (dsl_nodes g) ->
    exists z, z ∈ _ensure_list (dsl_zones g)
              /\ node_zone n = Some (zone_id z)
              /\ n ∈ default [] (group_nodes (_ensure_list (dsl_nodes g))
                                   !! zone_id z).
Proof.
  intros H%accepted_Some n Hn.
  destruct (returned_nodes_have_zones _ _ _ _ _ _ _ H n Hn) as (z & Hz & Hnz).
  exists z. split_and!; [done..|].
  pose proof (group_nodes_elem_of (_ensure_list (dsl_nodes g)) n Hn) as Hg.
  rewrite Hnz in Hg. by destruct (zone_id z).
Qed.

Lemma accepted_nodes_have_zones_witness :
  exists g,
    accepted (prepare two_zone_dsl) = Some g
    /\ forall n, n ∈ _ensure_list (dsl_nodes g) ->
         exists z, z ∈ _ensure_list (dsl_zones g)
                   /\ node_zone n = Some (zone_id z)
                   /\ n ∈ default [] (group_nodes
                                        (_ensure_list (dsl_nodes g))
                                        !! zone_id z).
Proof.
  assert (exists g, accepted (prepare two_zone_dsl) = Some g) as [g Hg].
  { eexists. vm_compute. reflexivity. }
  exists g. split; [exact Hg|].
  exact (accepted_nodes_have_zones two_zone_dsl MIN_ZONES MIN_NODES MIN_FLOWS
           MIN_NODES_HARD true g Hg).
Defined.

(** X14: every flow the expansion adds runs between two different node ids
    of the returned graph. *)
Theorem synthesized_flows_join_two_nodes dsl min_zones min_nodes min_flows
    min_nodes_hard g :
  accepted (validate_and_prepare_dsl dsl min_zones min_nodes min_flows
              min_nodes_hard true) = Some g ->
  let kept := length (_ensure_list (dsl_flows (expansion_base dsl))) in
  take kept (_ensure_list (dsl_flows g))
  = _ensure_list (dsl_flows (expansion_base dsl))
  /\ forall f, f ∈ drop kept (_ensure_list (dsl_flows g)) ->
       exists s t,
         flow_source f = Some s /\ flow_target f = Some t /\ s <> t
         /\ s ∈ node_ids_of g /\ t ∈ node_ids_of g.
Proof.
  intros H%accepted_Some kept.
  destruct (accepted_filled_up _ _ _ _ _ _ H) as [(tbs & -> & _) _].
  unfold kept, node_ids_of.
  cbn [dsl_with dsl_flows dsl_nodes _ensure_list from_option id].
  rewrite take_app_length, drop_app_length. split; [done|].
  set (nodes := _ ++ synthesized_nodes _ _ _).
  destruct (first_occurrences_spec (map node_id nodes)) as [Hnd Hel].
  set (nl := first_occurrences (map node_id nodes)) in *.
  intros f. unfold synthesized_flows.
  destruct (2 <=? len nl) eqn:H2; [|by intros ?%elem_of_nil].
  apply Z.leb_le in H2.
  intros (k & -> & Hk)%list_elem_of_fmap. apply elem_of_seqZ in Hk.
  pose proof (len_nonneg (_ensure_list (dsl_flows (expansion_base dsl)))).
  pose proof (Z.mod_pos_bound k (len nl - 1)) as Hmod.
  unfold consecutive_flow. cbv zeta.
  set (i := Z.to_nat (k mod (len nl - 1))).
  destruct (lookup_lt_is_Some_2 nl i) as [s Hs]; [unfold len in *; lia|].
  destruct (lookup_lt_is_Some_2 nl (S i)) as [t Ht]; [unfold len in *; lia|].
  exists s, t. rewrite Hs, Ht. split_and!; [done|done| | |].
  - intros ->. pose proof (NoDup_lookup _ _ _ _ Hnd Hs Ht). lia.
  - apply Hel. by eapply list_elem_of_lookup_2.
  - apply Hel. by eapply list_elem_of_lookup_2.
Qed.

Lemma synthesized_flows_join_two_nodes_witness :
  exists g,
    accepted (prepare two_zone_dsl) = Some g
    /\ forall f, f ∈ drop 1 (_ensure_list (dsl_flows g)) ->
         exists s t,
           flow_source f = Some s /\ flow_target f = Some t /\ s <> t
           /\ s ∈ node_ids_of g /\ t ∈ node_ids_of g.
Proof.
  eexists. split; [vm_compute; reflexivity|].
  refine (proj2 (synthesized_flows_join_two_nodes two_zone_dsl MIN_ZONES
                   MIN_NODES MIN_FLOWS MIN_NODES_HARD _ _)).
  vm_compute. reflexivity.
Defined.

(* ------------------------------------------------------------------------- *)
(** ** The log of a call                                                      *)
(* ------------------------------------------------------------------------- *)

Lemma logged_with_zones dsl mz mn mf mh ex g :
  _ensure_list (dsl_zones dsl) <> [] ->
  let call := validate_and_prepare_dsl dsl mz mn mf mh ex in
  returned call = Ok (Some g, []) ->
  logged call
  = flat_map (flow_warnings (list_to_set (map node_id (remapped_nodes dsl))))
      (_ensure_list (dsl_flows dsl))
    ++ empty_zone_warnings (normalized_zones dsl) (remapped_nodes dsl)
    ++ (if ex && sparse (normalized dsl) mz mn mf then [expanded_record g]
        else []).
Proof.
  intros Hz call. unfold call, validate_and_prepare_dsl.
  rewrite (is_nil_sorted_zones dsl Hz). cbn [andb].
  pose proof (node_loop_result dsl (_ensure_list (dsl_nodes dsl)) [] [])
    as Hloop.
  change (fold_left rename_zone _ (∅, ∅, [])) with (renamed_zones dsl).
  assert (Hm : final_zone_id_map dsl = (renamed_zones dsl).1.1) by done.
  assert (Hnz : normalized_zones dsl = (renamed_zones dsl).2) by done.
  assert (Hids : final_zone_ids dsl
                 = list_to_set (map zone_id (renamed_zones dsl).2)) by done.
  destruct (renamed_zones dsl) as [[zone_id_map seen] zones].
  cbn [fst snd] in Hm, Hnz, Hids. subst zone_id_map zones.
  rewrite <- Hids, Hloop. cbn [app].
  fold (remapped_nodes dsl).
  destruct (negb (is_nil _)); [done|].
  destruct (len _ <? mh); [done|].
  unfold sparse, normalized.
  cbn [dsl_with dsl_zones dsl_nodes dsl_flows _ensure_list from_option id].
  destruct (ex && _).
  - destruct (_expand_dsl_to_density _ _ _ _ _ _) as [g'| |]; [|done..].
    cbn [returned logged]. intros [= ->]. by rewrite <- app_assoc.
  - cbn [returned logged]. intros _. by rewrite app_nil_r.
Qed.

(** *** The insertion-ordered dictionary: lookups *)

Lemma odict_get_set_eq {V} k (v : V) d : odict.get k (odict.set k v d) = Some v.
Proof.
  induction d as [|[k' v'] d IH]; simpl.
  - by rewrite bool_decide_true.
  - case_bool_decide as Hk; simpl.
    + by rewrite bool_decide_true.
    + by rewrite bool_decide_false.
Qed.

Lemma odict_get_set_ne {V} k k' (v : V) d :
  k <> k' -> odict.get k' (odict.set k v d) = odict.get k' d.
Proof.
  intros Hne. induction d as [|[k0 v0] d IH]; simpl.
  - by rewrite bool_decide_false.
  - case_bool_decide as Hk; simpl.
    + subst k0. by rewrite !bool_decide_false.
    + by rewrite IH.
Qed.

Lemma odict_get_None {V} k (d : odict.t V) :
  odict.get k d = None <-> k ∉ odict.keys d.
Proof.
  induction d as [|[k' v'] d IH]; simpl.
  - split; [intros _ ?%elem_of_nil; done | done].
  - rewrite not_elem_of_cons. case_bool_decide as Hk; naive_solver.
Qed.

Lemma odict_elem_of_get {V} k (v : V) d :
  NoDup (odict.keys d) -> (k, v) ∈ d <-> odict.get k d = Some v.
Proof.
  induction d as [|[k' v'] d IH]; simpl; intros Hnd.
  - split; [by intros ?%elem_of_nil | done].
  - apply NoDup_cons in Hnd as [Hk' Hnd]. rewrite elem_of_cons, (IH Hnd).
    case_bool_decide as Hk.
    + subst k'. apply odict_get_None in Hk'. rewrite Hk'. naive_solver.
    + naive_solver.
Qed.

(** *** Which zones are reported empty *)

Lemma count_zero_entries zones k d :
  odict.get k
    (fold_left (fun d z => odict.set (zone_id z) 0 d) zones d)
  = if bool_decide (k ∈ map zone_id zones) then Some 0 else odict.get k d.
Proof.
  revert d. induction zones as [|z zones IH]; intros d; [done|].
  cbn [fold_left map]. rewrite IH.
  destruct (decide (k ∈ map zone_id zones)) as [Hin|Hnin].
  - rewrite !bool_decide_true; [done | | done]. by right.
  - rewrite (bool_decide_false _ Hnin).
    destruct (decide (zone_id z = k)) as [<-|Hne].
    + rewrite odict_get_set_eq, bool_decide_true; [done | by left].
    + rewrite odict_get_set_ne by done.
      rewrite bool_decide_false; [done|].
      rewrite not_elem_of_cons. naive_solver.
Qed.

Lemma nodes_in_cons zid n ns :
  nodes_in zid (n :: ns)
  = (if decide (default "" (node_zone n) = zid) then 1 else 0)
    + nodes_in zid ns.
Proof.
  unfold nodes_in. rewrite filter_cons.
  destruct (decide _); [|lia]. unfold len. simpl. lia.
Qed.

Lemma nodes_in_nonneg zid ns : 0 <= nodes_in zid ns.
Proof. apply len_nonneg. Qed.

Lemma count_nodes_entries ns k d :
  odict.get k
    (fold_left
       (fun d n =>
          let zid := default "" (node_zone n) in
          odict.set zid (default 0 (odict.get zid d) + 1) d) ns d)
  = match odict.get k d with
    | Some c => Some (c + nodes_in k ns)
    | None => if nodes_in k ns =? 0 then None else Some (nodes_in k ns)
    end.
Proof.
  revert d. induction ns as [|n ns IH]; intros d.
  { assert (nodes_in k [] = 0) as -> by done.
    cbn [fold_left]. destruct (odict.get k d); [|done]. f_equal. lia. }
  cbn [fold_left]. rewrite IH, nodes_in_cons. cbv zeta.
  pose proof (nodes_in_nonneg k ns).
  destruct (decide (default "" (node_zone n) = k)) as [->|Hne].
  - rewrite odict_get_set_eq.
    destruct (odict.get k d) as [c|]; simpl.
    + f_equal. lia.
    + destruct (1 + nodes_in k ns =? 0) eqn:H0; [lia|done].
  - rewrite odict_get_set_ne by done.
    destruct (odict.get k d); [f_equal; lia|]. done.
Qed.

Lemma nodes_per_zone_NoDup zones ns :
  NoDup (odict.keys
    (fold_left
       (fun d n =>
          let zid := default "" (node_zone n) in
          odict.set zid (default 0 (odict.get zid d) + 1) d) ns
       (odict.comprehension zone_id (fun _ => 0) zones))).
Proof.
  generalize (proj1 (odict_comprehension_keys zone_id (fun _ : Zone => 0)
                       zones)).
  generalize (odict.comprehension zone_id (fun _ => 0) zones).
  induction ns as [|n ns IH]; intros d Hd; [done|].
  cbn [fold_left]. apply IH. by apply odict_keys_set_NoDup.
Qed.

Lemma length_app_str a b :
  String.length (a +:+ b) = (String.length a + String.length b)%nat.
Proof. induction a as [|c a IH]; [done|]. rewrite app_cons. simpl. lia. Qed.

Lemma app_inv_tail_str a b s : a +:+ s = b +:+ s -> a = b.
Proof.
  intros H.
  assert (Hlen : String.length a = String.length b).
  { apply (f_equal String.length) in H.
    rewrite !length_app_str in H. lia. }
  revert b H Hlen. induction a as [|c a IH]; intros [|c' b] H Hlen;
    try done.
  rewrite !app_cons in H. injection H as -> H. f_equal.
  apply IH; [done|]. simpl in Hlen. lia.
Qed.

Lemma empty_zone_warnings_spec zones nodes zid :
  (WARNING, "Zone '" +:+ zid +:+ "' has zero nodes.")
    ∈ empty_zone_warnings zones nodes
  <-> zid ∈ map zone_id zones /\ nodes_in zid nodes = 0.
Proof.
  unfold empty_zone_warnings.
  pose proof (nodes_per_zone_NoDup zones nodes) as Hnd.
  set (d := fold_left _ nodes _) in *.
  assert (Hget : forall k,
            odict.get k d
            = if bool_decide (k ∈ map zone_id zones)
              then Some (nodes_in k nodes)
              else if nodes_in k nodes =? 0 then None
                   else Some (nodes_in k nodes)).
  { intros k. unfold d. rewrite count_nodes_entries.
    unfold odict.comprehension. rewrite count_zero_entries.
    case_bool_decide; [done|]. done. }
  rewrite list_elem_of_In, in_flat_map. split.
  - intros ([k c] & Hin & Hw). apply list_elem_of_In in Hin.
    destruct (c =? 0) eqn:Hc; [|done]. apply Z.eqb_eq in Hc. subst c.
    destruct Hw as [Hw|[]]. injection Hw as Hw. rewrite !app_nil in Hw.
    apply app_inv_tail_str in Hw. subst k.
    apply (odict_elem_of_get _ _ _ Hnd) in Hin. rewrite Hget in Hin.
    case_bool_decide as Hz.
    + by injection Hin as ->.
    + destruct (nodes_in zid nodes =? 0) eqn:H0; [done|].
      injection Hin as Hin. apply Z.eqb_neq in H0. done.
  - intros [Hz H0]. exists (zid, 0). split.
    + apply list_elem_of_In, (odict_elem_of_get _ _ _ Hnd).
      rewrite Hget, bool_decide_true by done. by rewrite H0.
    + simpl. by left.
Qed.

Lemma remapped_nodes_ids dsl :
  map node_id (remapped_nodes dsl) = map node_id (_ensure_list (dsl_nodes dsl)).
Proof. unfold remapped_nodes. rewrite map_map. by apply map_ext. Qed.

Lemma nodes_in_remapped dsl zid :
  nodes_in zid (remapped_nodes dsl) = 0
  <-> forall n, n ∈ _ensure_list (dsl_nodes dsl) -> remapped_zone dsl n <> zid.
Proof.
  unfold nodes_in, remapped_nodes.
  induction (_ensure_list (dsl_nodes dsl)) as [|n ns IH].
  { split; [by intros _ n ?%elem_of_nil | done]. }
  cbn [map]. rewrite filter_cons. cbn [node_set_zone node_zone from_option id].
  destruct (decide (remapped_zone dsl n = zid)) as [Heq|Hne].
  - split; [by unfold len|]. intros H. destruct (H n); [left | done].
  - rewrite IH. setoid_rewrite elem_of_cons. naive_solver.
Qed.

Lemma flow_warning_not_zone f ids zid :
  (WARNING, "Zone '" +:+ zid +:+ "' has zero nodes.") ∉ flow_warnings ids f.
Proof.
  unfold flow_warnings. intros [H|H]%elem_of_app.
  - destruct (missing_from ids (flow_source f)); [|by apply elem_of_nil in H].
    by apply list_elem_of_singleton in H.
  - destruct (missing_from ids (flow_target f)); [|by apply elem_of_nil in H].
    by apply list_elem_of_singleton in H.
Qed.

(** X15: a call that returns a graph for a payload with zones logs the
    warning that a zone has zero nodes for exactly the ids of the renamed
    zones that no node was remapped to. *)
Theorem empty_zone_is_warned dsl min_zones min_nodes min_flows min_nodes_hard
    expand_to_meet_density g zid :
  let call := validate_and_prepare_dsl dsl min_zones min_nodes min_flows
                min_nodes_hard expand_to_meet_density in
  _ensure_list (dsl_zones dsl) <> [] ->
  accepted call = Some g ->
  (WARNING, "Zone '" +:+ zid +:+ "' has zero nodes.") ∈ logged call
  <-> zid ∈ map zone_id (normalized_zones dsl)
      /\ forall n, n ∈ _ensure_list (dsl_nodes dsl) ->
                   remapped_zone dsl n <> zid.
Proof.
  intros call Hz H%accepted_Some. unfold call.
  rewrite (logged_with_zones _ _ _ _ _ _ g Hz H).
  rewrite <- nodes_in_remapped, <- empty_zone_warnings_spec.
  rewrite !elem_of_app. split; [|auto].
  intros [Hf|[Hw|Hi]]; [|done|].
  - rewrite list_elem_of_In, in_flat_map in Hf. destruct Hf as (f & _ & Hf).
    apply list_elem_of_In in Hf. by apply flow_warning_not_zone in Hf.
  - destruct (_ && _); [|by apply elem_of_nil in Hi].
    by apply list_elem_of_singleton in Hi.
Qed.

Lemma empty_zone_is_warned_witness :
  (WARNING, "Zone 'core' has zero nodes.")
    ∈ logged (validate_and_prepare_dsl idle_zone_dsl 2 2 0 1 true).
Proof.
  apply (empty_zone_is_warned idle_zone_dsl 2 2 0 1 true
           (normalized idle_zone_dsl) "core").
  - discriminate.
  - vm_compute. reflexivity.
  - split; [vm_compute; by right; left|].
    intros n Hn. vm_compute in Hn.
    apply elem_of_cons in Hn as [->|Hn]; [by vm_compute|].
    apply list_elem_of_singleton in Hn as ->. by vm_compute.
Defined.

(** X16: for a payload with a non-empty zone list, a flow whose source or
    target is no node id is not an error.  When the call returns a graph for
    such a payload, every flow of the payload is in it, and each end of a
    flow that is missing or no id of a node is reported by a warning. *)
Theorem dangling_flow_is_warned dsl min_zones min_nodes min_flows
    min_nodes_hard expand_to_meet_density g f :
  let call := validate_and_prepare_dsl dsl min_zones min_nodes min_flows
                min_nodes_hard expand_to_meet_density in
  let node_ids := map node_id (_ensure_list (dsl_nodes dsl)) in
  _ensure_list (dsl_zones dsl) <> [] ->
  accepted call = Some g ->
  f ∈ _ensure_list (dsl_flows dsl) ->
  f ∈ _ensure_list (dsl_flows g)
  /\ ((forall s, flow_source f = Some s -> s ∉ node_ids) ->
      (WARNING, "Flow " +:+ show (flow_id f)
                  +:+ " references non-existent source node "
                  +:+ show (flow_source f)) ∈ logged call)
  /\ ((forall t, flow_target f = Some t -> t ∉ node_ids) ->
      (WARNING, "Flow " +:+ show (flow_id f)
                  +:+ " references non-existent target node "
                  +:+ show (flow_target f)) ∈ logged call).
Proof.
  intros call node_ids Hz H%accepted_Some Hf. split.
  - destruct (accepted_with_zones dsl min_zones min_nodes min_flows
                min_nodes_hard expand_to_meet_density Hz) as [Hex Hall].
    destruct (Hex (Hall g H)) as (g' & Hg' & Hfill).
    fold call in Hg'. rewrite H in Hg'. injection Hg' as <-.
    destruct expand_to_meet_density; [|by subst g].
    destruct Hfill as [(tbs & -> & _) _].
    cbn [dsl_with dsl_flows normalized _ensure_list from_option id].
    apply elem_of_app. by left.
  - unfold call. rewrite (logged_with_zones _ _ _ _ _ _ g Hz H).
    assert (Hmissing : forall x,
              (forall s, x = Some s -> s ∉ node_ids) ->
              missing_from (list_to_set (map node_id (remapped_nodes dsl))) x
              = true).
    { intros [s|] Hx; [|done]. simpl. apply negb_true_iff.
      apply bool_decide_eq_false. rewrite elem_of_list_to_set.
      rewrite remapped_nodes_ids. by apply Hx. }
    split; intros Hx; apply elem_of_app; left;
      rewrite list_elem_of_In, in_flat_map; exists f;
      (split; [by apply list_elem_of_In|]); apply list_elem_of_In;
      unfold flow_warnings; rewrite (Hmissing _ Hx); apply elem_of_app.
    + left. apply list_elem_of_here.
    + right. apply list_elem_of_here.
Qed.

Lemma dangling_flow_is_warned_witness :
  exists g,
    accepted (prepare stray_flow_dsl) = Some g
    /\ mk_flow "f0" "n0" "ghost" ∈ _ensure_list (dsl_flows g)
    /\ (WARNING, "Flow f0 references non-existent target node ghost")
         ∈ logged (prepare stray_flow_dsl).
Proof.
  assert (exists g, accepted (prepare stray_flow_dsl) = Some g) as [g Hg].
  { eexists. vm_compute. reflexivity. }
  exists g. split; [exact Hg|].
  destruct (dangling_flow_is_warned stray_flow_dsl MIN_ZONES MIN_NODES
              MIN_FLOWS MIN_NODES_HARD true g (mk_flow "f0" "n0" "ghost"))
    as (Hkept & _ & Htarget).
  - discriminate.
  - exact Hg.
  - vm_compute. left.
  - split; [exact Hkept|]. apply Htarget.
    intros t [= <-]. vm_compute. intros Hin.
    apply list_elem_of_singleton in Hin. discriminate.
Defined.

(* ------------------------------------------------------------------------- *)
(** ** The cells of the document                                              *)
(* ------------------------------------------------------------------------- *)

(** *** Decimal numerals *)








(** *** The attributes [_add_cell] sets *)

Lemma add_cell_attrs cell_id parent_id value style vertex edge x y width
    height relative source target :
  let c := _add_cell cell_id parent_id value style vertex edge x y width
             height relative source target in
  attr "id" c = Some cell_id
  /\ attr "parent" c = Some parent_id
  /\ attr "source" c = source
  /\ attr "target" c = target
  /\ attr "vertex" c = (if vertex then Some "1" else None)
  /\ attr "edge" c = (if edge then Some "1" else None).
Proof.
  unfold _add_cell.
  destruct value, style, vertex, edge, source, target; cbn; done.
Qed.

Lemma cell_id_add_cell cell_id parent_id value style vertex edge x y width
    height relative source target :
  cell_id_of (_add_cell cell_id parent_id value style vertex edge x y width
                height relative source target) = cell_id.
Proof.
  unfold cell_id_of.
  by rewrite (proj1 (add_cell_attrs cell_id parent_id value style vertex edge
                       x y width height relative source target)).
Qed.

(** *** Ids stay distinct *)








(** *** The stages of [render] *)

Lemma render_stages g root_elem :
  render g = Ok root_elem ->
  let zones := sorted (_ensure_list (dsl_zones g)) order_key in
  let nodes_in_zone := group_nodes (_ensure_list (dsl_nodes g)) in
  let zone_heights := fold_left (zone_height_body nodes_in_zone) zones ∅ in
  exists y_cursor zone_geometry st1 st2 st3 st4 legend,
    for_each (zone_geometry_body zone_heights) zones (Float 0, ∅)
      = Ok (y_cursor, zone_geometry)
    /\ for_each (zone_cell_body zone_geometry) zones
         {| ctr := 1; cells := root_layer; cell_ids := ∅ |} = Ok st1
    /\ for_each (zone_nodes_body (cell_ids st1) zone_geometry nodes_in_zone)
         zones {| ctr := ctr st1; cells := cells st1; cell_ids := ∅ |}
       = Ok st2
    /\ for_each (tb_cell_body zone_geometry)
         (enumerate (_ensure_list (dsl_trust_boundaries g))) st2 = Ok st3
    /\ for_each (flow_cell_body (cell_ids st2)) (_ensure_list (dsl_flows g))
         st3 = Ok st4
    /\ cell_id_of legend = "legend-" +:+ pretty (ctr st4)
    /\ attr "parent" legend = Some "1"
    /\ root_elem = mxfile (cells st4 ++ [legend]).
Proof.
  intros H zones nodes_in_zone zone_heights. unfold render in H.
  fold zones nodes_in_zone zone_heights in H.
  inv_bind H. destruct a as [y_cursor zone_geometry].
  inv_bind H. rename a into st1. inv_bind H. rename a into st2.
  inv_bind H. rename a into st3. inv_bind H. rename a into st4.
  cbn [_next_id] in H. injection H as <-.
  exists y_cursor, zone_geometry, st1, st2, st3, st4. eexists.
  split_and!; [done..| | |reflexivity].
  - apply cell_id_add_cell.
  - apply add_cell_attrs.
Qed.

(** *** Cells stay wired *)







Section node_cells.
Context (zone_cell_ids : gmap string string).


End node_cells.




(** *** The document [dsl_to_drawio] returns *)

Lemma dsl_to_drawio_document dsl out :
  dsl_to_drawio dsl = Ok out ->
  exists g cs,
    returned (prepare dsl) = Ok (Some g, [])
    /\ render g = Ok (mxfile cs)
    /\ out = XML_DECLARATION +:+ tostring (mxfile cs).
Proof.
  intros H. unfold dsl_to_drawio in H. fold (prepare dsl) in H.
  inv_bind H. destruct a as [[g|] errs]; [|done].
  pose proof Ha as ->%graph_without_errors.
  inv_bind H. rename a into root_elem, Ha0 into Hrender.
  destruct (render_shape "mxfile" eq_refl eq_refl g root_elem Hrender)
    as (cs & -> & Hm).
  destruct (render_shape "?xml" eq_refl eq_refl g (mxfile cs) Hrender)
    as (cs' & [= <-] & Hx).
  rewrite serialize_xml_safe_total in H by done. injection H as <-.
  exists g, cs. split_and!; [exact Ha | exact Hrender | reflexivity].
Qed.





(** *** Every entity is drawn *)

Lemma for_each_ok_done {S X} (body : S -> X -> result S)
    (I : list X -> S -> Prop) xs s s' :
  I [] s ->
  (forall done x s s', I done s -> body s x = Ok s' -> I (done ++ [x]) s') ->
  for_each body xs s = Ok s' -> I xs s'.
Proof.
  intros H0 Hstep.
  enough (forall done s, I done s -> for_each body xs s = Ok s' ->
                         I (done ++ xs) s') as Hgen by (by apply (Hgen [])).
  induction xs as [|x xs IH]; intros done s1 Hs1 H.
  - injection H as <-. by rewrite app_nil_r.
  - simpl in H. inv_bind H.
    rewrite (cons_middle x done xs), app_assoc. eapply IH; [|exact H].
    by eapply Hstep.
Qed.

Lemma zone_cell_body_draws zone_geometry done z st st' :
  (forall z', z' ∈ done -> exists c, c ∈ cells st /\ zone_cell z' c) ->
  zone_cell_body zone_geometry st z = Ok st' ->
  forall z', z' ∈ done ++ [z] -> exists c, c ∈ cells st' /\ zone_cell z' c.
Proof.
  intros Hdone H. unfold zone_cell_body in H. inv_bind H.
  destruct a as [[[x y] w] h]. cbn [_next_id] in H. injection H as <-.
  cbn [cells]. intros z' [Hz'| ->%list_elem_of_singleton]%elem_of_app.
  - destruct (Hdone z' Hz') as (c & Hc & Hzc). exists c.
    split; [apply elem_of_app; by left | done].
  - eexists. split; [apply elem_of_app; right; left|].
    by eexists _, _, _, _, _.
Qed.

Lemma nodes_drawn_add ns st n c cid :
  nodes_drawn ns st -> node_cell n c ->
  nodes_drawn (ns ++ [n])
    {| ctr := ctr st + 1; cells := cells st ++ [c];
       cell_ids := <[node_id n := cid]> (cell_ids st) |}.
Proof.
  intros Hns Hc n' [Hn'| ->%list_elem_of_singleton]%elem_of_app;
    cbn [cells cell_ids].
  - destruct (Hns n' Hn') as [(c' & Hc' & Hnc) Hid]. split.
    + exists c'. split; [apply elem_of_app; by left | done].
    + rewrite lookup_insert_is_Some.
      destruct (decide (node_id n = node_id n')); auto.
  - split.
    + exists c. split; [apply elem_of_app; right; left | done].
    + rewrite lookup_insert_eq. eauto.
Qed.

Lemma node_cell_body_draws parent_id cols w h ns st ix st' :
  nodes_drawn ns st ->
  node_cell_body parent_id cols w h st ix = Ok st' ->
  nodes_drawn (ns ++ [ix.2]) st'.
Proof.
  intros Hns H. unfold node_cell_body in H. destruct ix as [i n].
  destruct (node_xy cols i) as [x y]. inv_bind H.
  cbn [_next_id] in H. injection H as <-.
  apply nodes_drawn_add; [done|]. by eexists _, _, _, _.
Qed.

Lemma enumerate_snd {A} (xs : list A) : map snd (enumerate xs) = xs.
Proof.
  unfold enumerate. apply list_eq. intros i.
  rewrite list_lookup_fmap, list_lookup_imap.
  by destruct (xs !! i).
Qed.

Lemma zone_nodes_body_draws zone_cell_ids zone_geometry nodes_in_zone ns st z
    st' :
  nodes_drawn ns st ->
  zone_nodes_body zone_cell_ids zone_geometry nodes_in_zone st z = Ok st' ->
  nodes_drawn (ns ++ default [] (nodes_in_zone !! zone_id z)) st'.
Proof.
  intros Hns H. unfold zone_nodes_body in H. inv_bind H. inv_bind H.
  destruct a0 as [[[zx zy] zw] zh].
  set (n_list := default [] (nodes_in_zone !! zone_id z)) in *.
  rewrite <- (enumerate_snd n_list).
  eapply (for_each_ok_done _
            (fun done st => nodes_drawn (ns ++ map snd done) st));
    [| |exact H].
  - by rewrite app_nil_r.
  - intros done x s s' Hs Hb. rewrite map_app, app_assoc.
    by eapply node_cell_body_draws.
Qed.

Lemma tb_cell_body_grows zone_geometry st itb st' :
  tb_cell_body zone_geometry st itb = Ok st' ->
  exists new, cells st' = cells st ++ new.
Proof.
  intros H. unfold tb_cell_body in H. destruct itb as [i tb].
  destruct (default [] (tb_between_zones tb)) as [|z0 [|z1 ?]];
    try (injection H as <-; exists []; by rewrite app_nil_r).
  destruct (zone_geometry !! z0) as [[[[? y0] ?] h0]|];
    [|injection H as <-; exists []; by rewrite app_nil_r].
  destruct (zone_geometry !! z1);
    [|injection H as <-; exists []; by rewrite app_nil_r].
  cbn [_next_id] in H. injection H as <-. by eexists.
Qed.

Lemma nodes_drawn_mono ns st st' :
  nodes_drawn ns st -> cell_ids st' = cell_ids st ->
  (exists new, cells st' = cells st ++ new) ->
  nodes_drawn ns st'.
Proof.
  intros Hns Hids [new Hnew] n Hn. destruct (Hns n Hn) as [(c & Hc & Hnc) Hid].
  rewrite Hids, Hnew. split; [|done].
  exists c. split; [apply elem_of_app; by left | done].
Qed.

Lemma tb_cell_body_keeps zone_geometry st itb st' :
  tb_cell_body zone_geometry st itb = Ok st' ->
  cell_ids st' = cell_ids st /\ exists new, cells st' = cells st ++ new.
Proof.
  intros H. split; [|by eapply tb_cell_body_grows].
  unfold tb_cell_body in H. destruct itb as [i tb].
  destruct (default [] (tb_between_zones tb)) as [|z0 [|z1 ?]];
    try by injection H as <-.
  destruct (zone_geometry !! z0) as [[[[? y0] ?] h0]|];
    [|by injection H as <-].
  destruct (zone_geometry !! z1); [|by injection H as <-].
  cbn [_next_id] in H. by injection H as <-.
Qed.

Lemma flow_cell_body_keeps node_cell_ids st f st' :
  flow_cell_body node_cell_ids st f = Ok st' ->
  cell_ids st' = cell_ids st /\ exists new, cells st' = cells st ++ new.
Proof.
  intros H. unfold flow_cell_body in H.
  destruct (flow_source f ≫= _);
    [|injection H as <-; split; [done|]; exists []; by rewrite app_nil_r].
  destruct (flow_target f ≫= _);
    [|injection H as <-; split; [done|]; exists []; by rewrite app_nil_r].
  cbn [_next_id] in H. injection H as <-. split; [done|]. by eexists.
Qed.

Lemma node_cell_body_grows parent_id cols w h st ix st' :
  node_cell_body parent_id cols w h st ix = Ok st' ->
  exists new, cells st' = cells st ++ new.
Proof.
  intros H. unfold node_cell_body in H. destruct ix as [i n].
  destruct (node_xy cols i) as [x y]. inv_bind H.
  cbn [_next_id] in H. injection H as <-. by eexists.
Qed.

Lemma grows_trans (cs0 cs1 cs2 : list Element) :
  (exists new, cs1 = cs0 ++ new) -> (exists new, cs2 = cs1 ++ new) ->
  exists new, cs2 = cs0 ++ new.
Proof. intros [n1 ->] [n2 ->]. exists (n1 ++ n2). by rewrite app_assoc. Qed.

Lemma for_each_grows {X} (body : cells_state -> X -> result cells_state)
    xs st st' :
  (forall s x s', body s x = Ok s' -> exists new, cells s' = cells s ++ new) ->
  for_each body xs st = Ok st' ->
  exists new, cells st' = cells st ++ new.
Proof.
  intros Hbody H.
  eapply (for_each_ok_inv _
            (fun s => exists new, cells s = cells st ++ new)); [| |exact H].
  - exists []. by rewrite app_nil_r.
  - intros s x s' Hs _ Hb. eapply grows_trans; [exact Hs|]. by eapply Hbody.
Qed.

Lemma zone_nodes_body_grows zone_cell_ids zone_geometry nodes_in_zone st z
    st' :
  zone_nodes_body zone_cell_ids zone_geometry nodes_in_zone st z = Ok st' ->
  exists new, cells st' = cells st ++ new.
Proof.
  intros H. unfold zone_nodes_body in H. inv_bind H. inv_bind H.
  destruct a0 as [[[zx zy] zw] zh].
  eapply for_each_grows; [|exact H].
  intros s x s'. apply node_cell_body_grows.
Qed.

Lemma flow_cell_body_draws node_cell_ids done f st st' :
  (forall f', f' ∈ done ->
     is_Some (flow_source f' ≫= (node_cell_ids !!.)) ->
     is_Some (flow_target f' ≫= (node_cell_ids !!.)) ->
     exists c, c ∈ cells st /\ edge_cell f' c) ->
  flow_cell_body node_cell_ids st f = Ok st' ->
  forall f', f' ∈ done ++ [f] ->
    is_Some (flow_source f' ≫= (node_cell_ids !!.)) ->
    is_Some (flow_target f' ≫= (node_cell_ids !!.)) ->
    exists c, c ∈ cells st' /\ edge_cell f' c.
Proof.
  intros Hdone H f' Hf' Hs Ht.
  destruct (flow_cell_body_keeps _ _ _ _ H) as [_ [new Hnew]].
  apply elem_of_app in Hf' as [Hf'| ->%list_elem_of_singleton].
  - destruct (Hdone f' Hf' Hs Ht) as (c & Hc & Hec). exists c.
    split; [rewrite Hnew; apply elem_of_app; by left | done].
  - unfold flow_cell_body in H. destruct Hs as [s Hs], Ht as [t Ht].
    rewrite Hs, Ht in H. cbn [_next_id] in H. injection H as <-.
    eexists. split; [apply elem_of_app; right; left|].
    by eexists _, _, _.
Qed.

Lemma render_draws g cs :
  render g = Ok (mxfile cs) ->
  (forall z, z ∈ _ensure_list (dsl_zones g) ->
     exists c, c ∈ cs /\ zone_cell z c)
  /\ (forall n z,
        n ∈ _ensure_list (dsl_nodes g) -> z ∈ _ensure_list (dsl_zones g) ->
        node_zone n = Some (zone_id z) ->
        exists c, c ∈ cs /\ node_cell n c)
  /\ (forall f s t zs zt,
        f ∈ _ensure_list (dsl_flows g) ->
        flow_source f = Some (node_id s) ->
        flow_target f = Some (node_id t) ->
        s ∈ _ensure_list (dsl_nodes g) -> t ∈ _ensure_list (dsl_nodes g) ->
        zs ∈ _ensure_list (dsl_zones g) -> zt ∈ _ensure_list (dsl_zones g) ->
        node_zone s = Some (zone_id zs) -> node_zone t = Some (zone_id zt) ->
        exists c, c ∈ cs /\ edge_cell f c).
Proof.
  intros H.
  destruct (render_stages g _ H)
    as (y_cursor & zone_geometry & st1 & st2 & st3 & st4 & legend
        & _ & H1 & H2 & H3 & H4 & _ & _ & [= ->]).
  set (zones := sorted (_ensure_list (dsl_zones g)) order_key) in *.
  set (niz := group_nodes (_ensure_list (dsl_nodes g))) in *.
  (* cells only grow *)
  pose proof (for_each_grows _ _ _ _ (zone_nodes_body_grows _ _ _) H2)
    as G2. cbn [cells] in G2.
  pose proof (for_each_grows _ _ _ _
                (fun s x s' Hb =>
                   proj2 (tb_cell_body_keeps zone_geometry s x s' Hb)) H3)
    as G3.
  pose proof (for_each_grows _ _ _ _
                (fun s x s' Hb =>
                   proj2 (flow_cell_body_keeps (cell_ids st2) s x s' Hb)) H4)
    as G4.
  assert (Gl : exists new, cells st4 ++ [legend] = cells st4 ++ new)
    by by eexists.
  (* zones *)
  assert (Hz : forall z, z ∈ zones -> exists c, c ∈ cells st1 /\ zone_cell z c).
  { eapply (for_each_ok_done _
              (fun done st =>
                 forall z, z ∈ done -> exists c, c ∈ cells st /\ zone_cell z c));
      [| |exact H1].
    - by intros z ?%elem_of_nil.
    - intros done z s s' Hs Hb. by eapply zone_cell_body_draws. }
  (* nodes *)
  assert (Hn2 : nodes_drawn
                  (concat (map (fun z => default [] (niz !! zone_id z)) zones))
                  st2).
  { eapply (for_each_ok_done _
              (fun done st =>
                 nodes_drawn
                   (concat (map (fun z => default [] (niz !! zone_id z))
                              done)) st));
      [| |exact H2].
    - by intros n ?%elem_of_nil.
    - intros done z s s' Hs Hb.
      rewrite map_app, concat_app. cbn [map concat]. rewrite app_nil_r.
      by eapply zone_nodes_body_draws. }
  assert (Hn3 : nodes_drawn
                  (concat (map (fun z => default [] (niz !! zone_id z)) zones))
                  st3).
  { eapply (for_each_ok_inv _ (nodes_drawn _)); [exact Hn2| |exact H3].
    intros s x s' Hs _ Hb.
    destruct (tb_cell_body_keeps _ _ _ _ Hb) as [Hids Hnew].
    by eapply nodes_drawn_mono. }
  assert (Hkeys : cell_ids st3 = cell_ids st2).
  { eapply (for_each_ok_inv _ (fun s => cell_ids s = cell_ids st2));
      [done| |exact H3].
    intros s x s' Hs _ Hb.
    destruct (tb_cell_body_keeps _ _ _ _ Hb) as [Hids _]. congruence. }
  assert (Hdrawn : forall n z,
            n ∈ _ensure_list (dsl_nodes g) ->
            z ∈ _ensure_list (dsl_zones g) ->
            node_zone n = Some (zone_id z) ->
            n ∈ concat (map (fun z => default [] (niz !! zone_id z)) zones)).
  { intros n z Hn Hzin Hnz. apply list_elem_of_In, in_concat.
    exists (default [] (niz !! zone_id z)). split.
    - apply in_map_iff. exists z. split; [done|].
      by apply list_elem_of_In, sorted_elem_of.
    - apply list_elem_of_In.
      pose proof (group_nodes_elem_of _ n Hn) as Hg. fold niz in Hg.
      rewrite Hnz in Hg. unfold get_or in Hg.
      by destruct (zone_id z). }
  assert (Gall : forall c, c ∈ cells st3 -> c ∈ cells st4 ++ [legend]).
  { intros c Hc. destruct G4 as [new ->]. rewrite !elem_of_app. auto. }
  split_and!.
  - intros z Hzin. destruct (Hz z) as (c & Hc & Hzc);
      [by apply sorted_elem_of|].
    exists c. split; [|done]. apply Gall.
    destruct G3 as [n3 ->], G2 as [n2 ->]. rewrite !elem_of_app. auto.
  - intros n z Hn Hzin Hnz.
    destruct (Hn3 n (Hdrawn n z Hn Hzin Hnz)) as [(c & Hc & Hnc) _].
    exists c. split; [by apply Gall | done].
  - intros f s t zs zt Hf Hfs Hft Hs Ht Hzs Hzt Hsz Htz.
    destruct (Hn2 s (Hdrawn s zs Hs Hzs Hsz)) as [_ Hsid].
    destruct (Hn2 t (Hdrawn t zt Ht Hzt Htz)) as [_ Htid].
    assert (Hf4 : forall f', f' ∈ _ensure_list (dsl_flows g) ->
              is_Some (flow_source f' ≫= (cell_ids st2 !!.)) ->
              is_Some (flow_target f' ≫= (cell_ids st2 !!.)) ->
              exists c, c ∈ cells st4 /\ edge_cell f' c).
    { eapply (for_each_ok_done _
                (fun done st =>
                   forall f', f' ∈ done ->
                     is_Some (flow_source f' ≫= (cell_ids st2 !!.)) ->
                     is_Some (flow_target f' ≫= (cell_ids st2 !!.)) ->
                     exists c, c ∈ cells st /\ edge_cell f' c));
        [| |exact H4].
      - by intros f' ?%elem_of_nil.
      - intros done f' s' s'' Hs' Hb. by eapply flow_cell_body_draws. }
    destruct (Hf4 f Hf) as (c & Hc & Hec).
    + by rewrite Hfs.
    + by rewrite Hft.
    + exists c. split; [|done]. apply elem_of_app. by left.
Qed.

(** X19: the document has a swimlane for every zone of the prepared graph, a
    shape for every node, and an edge for every flow whose source and target
    are ids of nodes, each with the label and the style of its entity. *)
Theorem every_entity_is_drawn dsl out :
  dsl_to_drawio dsl = Ok out ->
  exists g cs,
    accepted (prepare dsl) = Some g
    /\ out = XML_DECLARATION +:+ tostring (mxfile cs)
    /\ (forall z, z ∈ _ensure_list (dsl_zones g) ->
          exists c, c ∈ cs /\ zone_cell z c)
    /\ (forall n, n ∈ _ensure_list (dsl_nodes g) ->
          exists c, c ∈ cs /\ node_cell n c)
    /\ (forall f s t,
          f ∈ _ensure_list (dsl_flows g) ->
          flow_source f = Some s -> flow_target f = Some t ->
          s ∈ node_ids_of g -> t ∈ node_ids_of g ->
          exists c, c ∈ cs /\ edge_cell f c).
Proof.
  intros (g & cs & Hret & Hrender & ->)%dsl_to_drawio_document.
  pose proof (returned_nodes_have_zones _ _ _ _ _ _ _ Hret) as Hzone.
  destruct (render_draws g cs Hrender) as (Hz & Hn & Hf).
  exists g, cs. split_and!; [|done|done| |].
  - unfold accepted. by rewrite Hret.
  - intros n Hin. destruct (Hzone n Hin) as (z & Hzin & Hnz).
    by apply (Hn n z).
  - intros f s t Hin Hs Ht
      (sn & -> & Hsn)%list_elem_of_fmap (tn & -> & Htn)%list_elem_of_fmap.
    destruct (Hzone sn Hsn) as (zs & Hzs & Hsz).
    destruct (Hzone tn Htn) as (zt & Hzt & Htz).
    by apply (Hf f sn tn zs zt).
Qed.

Lemma every_entity_is_drawn_witness :
  exists out g cs,
    dsl_to_drawio two_zone_dsl = Ok out
    /\ accepted (prepare two_zone_dsl) = Some g
    /\ out = XML_DECLARATION +:+ tostring (mxfile cs)
    /\ (forall z, z ∈ _ensure_list (dsl_zones g) ->
          exists c, c ∈ cs /\ zone_cell z c)
    /\ (forall n, n ∈ _ensure_list (dsl_nodes g) ->
          exists c, c ∈ cs /\ node_cell n c)
    /\ (forall f s t,
          f ∈ _ensure_list (dsl_flows g) ->
          flow_source f = Some s -> flow_target f = Some t ->
          s ∈ node_ids_of g -> t ∈ node_ids_of g ->
          exists c, c ∈ cs /\ edge_cell f c).
Proof.
  assert (exists out, dsl_to_drawio two_zone_dsl = Ok out) as [out Hout].
  { eexists. vm_compute. reflexivity. }
  destruct (every_entity_is_drawn two_zone_dsl out Hout) as (g & cs & H).
  exists out, g, cs. split; [exact Hout | exact H].
Defined.

(* ------------------------------------------------------------------------- *)
(** ** The bands of the zones                                                 *)
(* ------------------------------------------------------------------------- *)

Lemma band_top_prefix niz done x k :
  (k <= length done)%nat -> band_top niz (done ++ [x]) k = band_top niz done k.
Proof. intros Hk. unfold band_top. by rewrite take_app_le. Qed.

Lemma band_top_snoc niz done x :
  band_top niz (done ++ [x]) (S (length done))
  = band_top niz done (length done) + zone_height_of niz (zone_id x).
Proof.
  unfold band_top. rewrite take_ge by (rewrite length_app; simpl; lia).
  rewrite firstn_all, map_app. cbn [map].
  generalize (map (fun z => zone_height_of niz (zone_id z)) done).
  intros hs. induction hs as [|h hs IH]; simpl; lia.
Qed.

Lemma zone_geometry_closed niz zone_heights zones y_cursor zone_geometry :
  (forall k v, zone_heights !! k = Some v -> v = zone_height_of niz k) ->
  for_each (zone_geometry_body zone_heights) zones (Float 0, ∅)
  = Ok (y_cursor, zone_geometry) ->
  NoDup (map zone_id zones) ->
  forall k z, zones !! k = Some z ->
    zone_geometry !! zone_id z
    = Some (Int 0, Float (band_top niz zones k), Int zone_width,
            Int (zone_height_of niz (zone_id z))).
Proof.
  intros Hh Hrun Hnd.
  refine (proj2 (for_each_ok_done (zone_geometry_body zone_heights)
            (fun done st =>
               NoDup (map zone_id done) ->
               st.1 = Float (band_top niz done (length done))
               /\ forall k z, done !! k = Some z ->
                    st.2 !! zone_id z
                    = Some (Int 0, Float (band_top niz done k),
                            Int zone_width,
                            Int (zone_height_of niz (zone_id z))))
            zones (Float 0, ∅) (y_cursor, zone_geometry) _ _ Hrun Hnd)).
  - intros _. split; [done|]. by intros k z ?.
  - clear Hnd. intros done z [y geo] s' IH Hb Hnd.
    rewrite map_app in Hnd. apply NoDup_app in Hnd as (Hnd & Hnew & _).
    destruct (IH Hnd) as [Hy Hgeo]. cbn [fst snd] in Hy, Hgeo.
    unfold zone_geometry_body in Hb. inv_bind Hb. injection Hb as <-.
    unfold getitem in Ha.
    destruct (zone_heights !! zone_id z) as [h|] eqn:Eh; [|done].
    injection Ha as <-. pose proof (Hh _ _ Eh) as ->. cbn [fst snd]. split.
    + rewrite length_app. cbn [length].
      replace (length done + 1)%nat with (S (length done)) by lia.
      by rewrite band_top_snoc, Hy.
    + intros k z' Hk.
      destruct (decide (k < length done)%nat) as [Hlt|Hge].
      * rewrite lookup_app_l in Hk by done.
        rewrite lookup_insert_ne.
        -- rewrite band_top_prefix by lia. by apply Hgeo.
        -- intros Heq. apply (Hnew (zone_id z')).
           ++ apply list_elem_of_fmap. exists z'.
              split; [done|]. by eapply list_elem_of_lookup_2.
           ++ rewrite <- Heq. simpl. left.
      * rewrite lookup_app_r in Hk by lia.
        destruct (k - length done)%nat as [|j] eqn:Ej; [|done].
        injection Hk as <-. assert (k = length done) as -> by lia.
        rewrite lookup_insert_eq, band_top_prefix by lia. by rewrite Hy.
Qed.

Lemma zone_cells_closed zone_geometry zones st1 :
  for_each (zone_cell_body zone_geometry) zones
    {| ctr := 1; cells := root_layer; cell_ids := ∅ |} = Ok st1 ->
  forall k z, zones !! k = Some z ->
    exists x y w h,
      zone_geometry !! zone_id z = Some (x, y, w, h)
      /\ _add_cell ("zone-" +:+ pretty (Z.of_nat k + 1)) "1"
           (get_or (zone_name z) (zone_id z))
           ("swimlane;horizontal=1;startSize=" +:+ pretty ZONE_HEADER_HEIGHT
              +:+ ";fillColor=" +:+ strip (get_or (zone_color z) "#dae8fc")
              +:+ ";strokeColor=#6c8ebf;fontStyle=1;fontSize=12;"
              +:+ "whiteSpace=wrap;html=1;")
           true false x y w h "0" None None ∈ cells st1.
Proof.
  intros Hrun.
  refine (proj2 (for_each_ok_done (zone_cell_body zone_geometry)
            (fun done st =>
               ctr st = Z.of_nat (length done) + 1
               /\ forall k z, done !! k = Some z ->
                    exists x y w h,
                      zone_geometry !! zone_id z = Some (x, y, w, h)
                      /\ _add_cell ("zone-" +:+ pretty (Z.of_nat k + 1)) "1"
                           (get_or (zone_name z) (zone_id z))
                           ("swimlane;horizontal=1;startSize="
                              +:+ pretty ZONE_HEADER_HEIGHT
                              +:+ ";fillColor="
                              +:+ strip (get_or (zone_color z) "#dae8fc")
                              +:+ ";strokeColor=#6c8ebf;fontStyle=1;"
                              +:+ "fontSize=12;"
                              +:+ "whiteSpace=wrap;html=1;")
                           true false x y w h "0" None None ∈ cells st)
            zones _ st1 _ _ Hrun)).
  - split; [done|]. by intros k z ?.
  - intros done z st st' [Hctr Hdone] Hb.
    unfold zone_cell_body in Hb. inv_bind Hb.
    destruct a as [[[x y] w] h]. cbn [_next_id] in Hb. injection Hb as <-.
    cbn [ctr cells]. unfold getitem in Ha.
    destruct (zone_geometry !! zone_id z) as [g|] eqn:Eg; [|done].
    injection Ha as ->. split.
    + rewrite length_app. cbn [length]. lia.
    + intros k z' Hk.
      destruct (decide (k < length done)%nat) as [Hlt|Hge].
      * rewrite lookup_app_l in Hk by done.
        destruct (Hdone k z' Hk) as (x' & y' & w' & h' & Hg & Hin).
        exists x', y', w', h'. split; [done|]. apply elem_of_app. by left.
      * rewrite lookup_app_r in Hk by lia.
        destruct (k - length done)%nat as [|j] eqn:Ej; [|done].
        injection Hk as <-. assert (k = length done) as -> by lia.
        exists x, y, w, h. split; [done|]. apply elem_of_app. right.
        rewrite Hctr. left.
Qed.

Lemma render_bands g cs :
  render g = Ok (mxfile cs) ->
  let zones := sorted (_ensure_list (dsl_zones g)) order_key in
  let nodes_in_zone := group_nodes (_ensure_list (dsl_nodes g)) in
  NoDup (map zone_id zones) ->
  forall k z, zones !! k = Some z -> band_cell nodes_in_zone zones k z ∈ cs.
Proof.
  intros H zones niz Hnd k z Hk.
  destruct (render_stages g _ H)
    as (y_cursor & zone_geometry & st1 & st2 & st3 & st4 & legend
        & H0 & H1 & H2 & H3 & H4 & _ & _ & [= ->]).
  fold zones niz in H0, H1, H2.
  destruct (zone_heights_spec niz zones ∅) as (Hh & _ & _); [done|].
  pose proof (zone_geometry_closed niz _ zones _ _ Hh H0 Hnd k z Hk) as Hgeo.
  destruct (zone_cells_closed _ _ _ H1 k z Hk)
    as (x & y & w & h & Hg & Hin).
  rewrite Hgeo in Hg. injection Hg as <- <- <- <-.
  pose proof (for_each_grows _ _ _ _ (zone_nodes_body_grows _ _ _) H2)
    as [n2 G2]. cbn [cells] in G2.
  pose proof (for_each_grows _ _ _ _
                (fun s x s' Hb =>
                   proj2 (tb_cell_body_keeps zone_geometry s x s' Hb)) H3)
    as [n3 G3].
  pose proof (for_each_grows _ _ _ _
                (fun s x s' Hb =>
                   proj2 (flow_cell_body_keeps (cell_ids st2) s x s' Hb)) H4)
    as [n4 G4].
  unfold band_cell. rewrite G4, G3, G2, !elem_of_app. auto 10.
Qed.

(** X20: the swimlanes are stacked.  When the zones of the prepared graph
    have different ids, the document holds for the [k]-th zone in the order
    of [order] the cell [zone-(k+1)], at the left edge, as wide as the
    canvas, as high as the rows of its nodes need, and with its top where
    the band of the zone before it ends: the bands neither overlap nor
    leave a gap. *)
Theorem zones_are_stacked dsl out :
  dsl_to_drawio dsl = Ok out ->
  exists g cs,
    accepted (prepare dsl) = Some g
    /\ out = XML_DECLARATION +:+ tostring (mxfile cs)
    /\ let zones := sorted (_ensure_list (dsl_zones g)) order_key in
       let nodes_in_zone := group_nodes (_ensure_list (dsl_nodes g)) in
       NoDup (map zone_id zones) ->
       forall k z, zones !! k = Some z ->
         band_cell nodes_in_zone zones k z ∈ cs.
Proof.
  intros (g & cs & Hret & Hrender & ->)%dsl_to_drawio_document.
  exists g, cs. split_and!; [|done|].
  - unfold accepted. by rewrite Hret.
  - by apply render_bands.
Qed.

Lemma zones_are_stacked_witness :
  exists out g cs,
    dsl_to_drawio two_zone_dsl = Ok out
    /\ accepted (prepare two_zone_dsl) = Some g
    /\ out = XML_DECLARATION +:+ tostring (mxfile cs)
    /\ NoDup (map zone_id (sorted (_ensure_list (dsl_zones g)) order_key))
    /\ forall k z,
         sorted (_ensure_list (dsl_zones g)) order_key !! k = Some z ->
         band_cell (group_nodes (_ensure_list (dsl_nodes g)))
           (sorted (_ensure_list (dsl_zones g)) order_key) k z ∈ cs.
Proof.
  assert (exists out, dsl_to_drawio two_zone_dsl = Ok out) as [out Hout].
  { eexists. vm_compute. reflexivity. }
  destruct (zones_are_stacked two_zone_dsl out Hout) as (g & cs & Hg & Hcs & H).
  assert (Hnd : NoDup (map zone_id
                         (sorted (_ensure_list (dsl_zones g)) order_key))).
  { vm_compute in Hg. injection Hg as <-. compute_done. }
  exists out, g, cs.
  split_and!; [exact Hout | exact Hg | exact Hcs | exact Hnd | exact (H Hnd)].
Defined.

(* ------------------------------------------------------------------------- *)
(** ** Title, groups and controls                                             *)
(* ------------------------------------------------------------------------- *)

Section meta.
Context (title : option string) (groups : option (list Group))
        (controls : option (list Control)).

Lemma expand_with_meta dsl zone_ids node_by_id mz mn mf :
  _expand_dsl_to_density (with_meta dsl title groups controls) zone_ids
    node_by_id mz mn mf
  = g ← _expand_dsl_to_density dsl zone_ids node_by_id mz mn mf;
    Ok (with_meta g title groups controls).
Proof.
  unfold _expand_dsl_to_density.
  cbn [with_meta dsl_zones dsl_nodes dsl_flows dsl_trust_boundaries].
  destruct (while _ _ zone_loop_body _) as [zst| |]; [|done..].
  cbn [mbind result_bind].
  destruct (while _ _ (node_loop_body _) _) as [nst| |]; [|done..].
  cbn [mbind result_bind].
  by destruct (while _ _ (flow_loop_body _) _) as [fst_| |].
Qed.

Lemma render_with_meta g :
  render (with_meta g title groups controls) = render g.
Proof. reflexivity. Qed.

Lemma returned_with_meta dsl mz mn mf mh ex :
  returned (validate_and_prepare_dsl (with_meta dsl title groups controls)
              mz mn mf mh ex)
  = match returned (validate_and_prepare_dsl dsl mz mn mf mh ex) with
    | Ok (g, errors) =>
        Ok (option_map (fun g => with_meta g title groups controls) g, errors)
    | Raise e => Raise e
    | Timeout => Timeout
    end.
Proof.
  unfold validate_and_prepare_dsl.
  cbn [with_meta dsl_zones dsl_nodes dsl_flows dsl_trust_boundaries].
  destruct (is_nil _ && negb ex); [done|].
  destruct (is_nil _ && ex).
  { cbn [returned].
    change (dsl_with (with_meta dsl title groups controls) [] [] [] [])
      with (with_meta (dsl_with dsl [] [] [] []) title groups controls).
    rewrite expand_with_meta.
    by destruct (_expand_dsl_to_density _ _ _ _ _ _). }
  destruct (fold_left rename_zone _ _) as [[zone_id_map seen] new_zones].
  destruct (fold_left (remap_node _ _) _ _) as [nodes errors].
  destruct (negb (is_nil errors)); [done|].
  destruct (len nodes <? mh); [done|].
  destruct (ex && _); [|done].
  change (dsl_with (with_meta dsl title groups controls) ?a ?b ?c ?d)
    with (with_meta (dsl_with dsl a b c d) title groups controls).
  rewrite expand_with_meta.
  by destruct (_expand_dsl_to_density _ _ _ _ _ _).
Qed.

End meta.

(** X21: the title, the groups and the controls of a payload have no part in
    the document: [dsl_to_drawio] returns the same for a payload and for
    the payload with other ones. *)
Theorem drawing_ignores_title_groups_controls dsl title groups controls :
  dsl_to_drawio (with_meta dsl title groups controls) = dsl_to_drawio dsl.
Proof.
  unfold dsl_to_drawio. rewrite returned_with_meta.
  destruct (returned _) as [[[g|] errs]| |]; [|done..].
  cbn [mbind result_bind option_map]. by rewrite render_with_meta.
Qed.

(* ------------------------------------------------------------------------- *)
(** ** The schema                                                             *)
(* ------------------------------------------------------------------------- *)

Module SchemaFacts.
Import Schema.

(** *** A failed validation has a message *)

Lemma reports_inr {A} (a : A) : reports (inr a).
Proof. done. Qed.

Lemma reports_at_loc {A} l (v : validated A) : reports v -> reports (at_loc l v).
Proof.
  unfold reports. destruct v as [errs|a]; [|done]. simpl.
  intros H [= Hm]. apply H. f_equal. by destruct errs.
Qed.

Lemma reports_required {A} (parse : json -> validated A) name obj :
  (forall v, reports (parse v)) -> reports (required parse name obj).
Proof.
  intros H. unfold required. destruct (get_field name obj); [|done].
  by apply reports_at_loc.
Qed.

Lemma reports_optional {A} (parse : json -> validated A) name d obj :
  (forall v, reports (parse v)) -> reports (optional parse name d obj).
Proof.
  intros H. unfold optional. destruct (get_field name obj); [|done].
  by apply reports_at_loc.
Qed.

Lemma reports_ap {A B} (f : validated (A -> B)) a :
  reports f -> reports a -> reports (f <*> a).
Proof.
  unfold reports, ap. destruct f as [ef|f], a as [ea|a]; simpl; [| | |done].
  - intros Hf _ [= [-> _]%app_eq_nil]. done.
  - intros Hf _ [= H]. rewrite app_nil_r in H. by subst.
  - intros _ Ha [= ->]. done.
Qed.

Lemma reports_str v : reports (str v).
Proof. by destruct v. Qed.

Lemma reports_optional_str v : reports (optional_str v).
Proof. by destruct v. Qed.

Lemma reports_int_ge b v : reports (int_ge b v).
Proof. destruct v; try done. simpl. by destruct (b <=? z). Qed.

Lemma reports_literal allowed v : reports (literal allowed v).
Proof. destruct v; try done. simpl. by destruct (bool_decide _). Qed.

Lemma reports_items {A} (parse : json -> validated A) i xs :
  (forall v, reports (parse v)) -> reports (items parse i xs).
Proof.
  intros H. revert i. induction xs as [|x xs IH]; intros i; [done|].
  simpl. pose proof (reports_at_loc (pretty i) _ (H x)) as Hx.
  specialize (IH (S i)). unfold reports in *.
  destruct (at_loc (pretty i) (parse x)) as [ex|a],
    (items parse (S i) xs) as [es|rest]; simpl; [| | |done].
  - intros [= [-> _]%app_eq_nil]. done.
  - intros [= E]. rewrite app_nil_r in E. by subst.
  - intros [= ->]. done.
Qed.

Lemma reports_list_of {A} (parse : json -> validated A) v :
  (forall v, reports (parse v)) -> reports (list_of parse v).
Proof. intros H. destruct v; try done. by apply reports_items. Qed.

Lemma reports_model {A} cfg name field_names
    (fields : list (string * json) -> validated A) v :
  (forall obj, reports (fields obj)) ->
  reports (model cfg name field_names fields v).
Proof.
  intros H. destruct v; try done. simpl. specialize (H fields0).
  unfold reports in *.
  destruct (fields fields0) as [errs|a],
    (extra_errors cfg field_names fields0) as [|e extras]; simpl; try done.
  - by rewrite app_nil_r; intros [= ->].
  - intros [= E]. by destruct errs.
Qed.

Create HintDb reports.
#[local] Hint Resolve reports_inr reports_required reports_optional
  reports_ap reports_str reports_optional_str reports_int_ge reports_literal
  reports_list_of reports_model : reports.

Lemma reports_Zone v : reports (validate_Zone v).
Proof. unfold validate_Zone. auto 10 with reports. Qed.

Lemma reports_TrustBoundary v : reports (validate_TrustBoundary v).
Proof. unfold validate_TrustBoundary. auto 10 with reports. Qed.

Lemma reports_Node v : reports (validate_Node v).
Proof. unfold validate_Node. auto 10 with reports. Qed.

Lemma reports_Group v : reports (validate_Group v).
Proof. unfold validate_Group. auto 10 with reports. Qed.

Lemma reports_Flow v : reports (validate_Flow v).
Proof. unfold validate_Flow. auto 15 with reports. Qed.

Lemma reports_Control v : reports (validate_Control v).
Proof. unfold validate_Control. auto 10 with reports. Qed.

#[local] Hint Resolve reports_Zone reports_TrustBoundary reports_Node
  reports_Group reports_Flow reports_Control : reports.

Lemma reports_model_validate v : reports (model_validate v).
Proof. unfold model_validate. auto 15 with reports. Qed.

(** *** What a successful validation says about its input *)

Lemma ap_inr {A B} (f : validated (A -> B)) a b :
  f <*> a = inr b -> exists f' a', f = inr f' /\ a = inr a' /\ b = f' a'.
Proof.
  unfold ap. destruct f as [|f'], a as [|a']; try done.
  intros [= <-]. by exists f', a'.
Qed.

Lemma at_loc_inr {A} l (v : validated A) a : at_loc l v = inr a -> v = inr a.
Proof. by destruct v. Qed.

Lemma required_inr {A} (parse : json -> validated A) name obj a :
  required parse name obj = inr a ->
  exists v, get_field name obj = Some v /\ parse v = inr a.
Proof.
  unfold required. destruct (get_field name obj) as [v|]; [|done].
  intros H%at_loc_inr. by exists v.
Qed.

Lemma optional_inr {A} (parse : json -> validated A) name d obj a :
  optional parse name d obj = inr a ->
  a = d \/ exists v, parse v = inr a.
Proof.
  unfold optional. destruct (get_field name obj) as [v|].
  - intros H%at_loc_inr. right. by exists v.
  - intros [= <-]. by left.
Qed.

Lemma model_inr {A} cfg name field_names
    (fields : list (string * json) -> validated A) v a :
  model cfg name field_names fields v = inr a ->
  exists obj, v = JObj obj /\ fields obj = inr a.
Proof.
  destruct v; try done. simpl.
  destruct (fields fields0) as [errs|a'] eqn:E; [done|].
  destruct (extra_errors _ _ _); [|done]. intros [= <-]. by eexists.
Qed.

Lemma items_inr {A} (parse : json -> validated A) (P : A -> Prop) i xs ys :
  (forall v a, parse v = inr a -> P a) ->
  items parse i xs = inr ys -> Forall P ys.
Proof.
  intros HP. revert i ys. induction xs as [|x xs IH]; intros i ys.
  { intros [= <-]. constructor. }
  simpl. destruct (at_loc (pretty i) (parse x)) as [|a] eqn:Ea; [done|].
  destruct (items parse (S i) xs) as [|rest] eqn:Er; [done|].
  intros [= <-]. constructor.
  - apply at_loc_inr in Ea. by eapply HP.
  - by eapply IH.
Qed.

Lemma list_of_inr {A} (parse : json -> validated A) (P : A -> Prop) v ys :
  (forall v a, parse v = inr a -> P a) ->
  list_of parse v = inr ys -> Forall P ys.
Proof.
  intros HP. destruct v; try done. simpl. by apply items_inr.
Qed.

Lemma optional_list_inr {A} (parse : json -> validated A) (P : A -> Prop)
    name obj ys :
  (forall v a, parse v = inr a -> P a) ->
  optional (list_of parse) name [] obj = inr ys -> Forall P ys.
Proof.
  intros HP [->|[v Hv]]%optional_inr; [constructor|].
  by eapply list_of_inr.
Qed.

Lemma validate_Zone_inr v z : validate_Zone v = inr z -> 0 <= Zone_order z.
Proof.
  intros (obj & -> & H)%model_inr.
  apply ap_inr in H as (f3 & color & H & _ & ->).
  apply ap_inr in H as (f2 & order & H & Ho & ->).
  apply ap_inr in H as (f1 & name & H & _ & ->).
  apply ap_inr in H as (f0 & zid & [= <-] & _ & ->). simpl.
  apply required_inr in Ho as (v & _ & Hv).
  destruct v; try done. simpl in Hv.
  destruct (0 <=? z) eqn:E; [|done]. injection Hv as <-. lia.
Qed.

Lemma literal_inr allowed v s : literal allowed v = inr s -> s ∈ allowed.
Proof.
  destruct v; try done. simpl.
  destruct (bool_decide (s0 ∈ allowed)) eqn:E; [|done].
  intros [= <-]. by apply bool_decide_eq_true in E.
Qed.

Lemma validate_Node_inr v n : validate_Node v = inr n -> Node_type n ∈ NodeType.
Proof.
  intros (obj & -> & H)%model_inr.
  apply ap_inr in H as (f4 & tags & H & _ & ->).
  apply ap_inr in H as (f3 & type & H & Ht & ->).
  apply ap_inr in H as (f2 & zone & H & _ & ->).
  apply ap_inr in H as (f1 & label & H & _ & ->).
  apply ap_inr in H as (f0 & nid & [= <-] & _ & ->). simpl.
  apply optional_inr in Ht as [->|[v Hv]].
  - unfold NodeType. set_solver.
  - by eapply literal_inr.
Qed.

Lemma validate_Flow_inr v f :
  validate_Flow v = inr f -> Flow_flow_type f ∈ FlowType.
Proof.
  intros (obj & -> & H)%model_inr.
  apply ap_inr in H as (f7 & label & H & _ & ->).
  apply ap_inr in H as (f6 & data_class & H & _ & ->).
  apply ap_inr in H as (f5 & auth & H & _ & ->).
  apply ap_inr in H as (f4 & protocol & H & _ & ->).
  apply ap_inr in H as (f3 & type & H & Ht & ->).
  apply ap_inr in H as (f2 & target & H & _ & ->).
  apply ap_inr in H as (f1 & source & H & _ & ->).
  apply ap_inr in H as (f0 & fid & [= <-] & _ & ->). simpl.
  apply optional_inr in Ht as [->|[v Hv]].
  - unfold FlowType. set_solver.
  - by eapply literal_inr.
Qed.

Lemma model_validate_constrained v m :
  model_validate v = inr m -> constrained m.
Proof.
  intros (obj & -> & H)%model_inr.
  apply ap_inr in H as (f6 & controls & H & _ & ->).
  apply ap_inr in H as (f5 & flows & H & Hf & ->).
  apply ap_inr in H as (f4 & nodes & H & Hn & ->).
  apply ap_inr in H as (f3 & groups & H & _ & ->).
  apply ap_inr in H as (f2 & tbs & H & _ & ->).
  apply ap_inr in H as (f1 & zones & H & Hz & ->).
  apply ap_inr in H as (f0 & title & [= <-] & _ & ->).
  unfold constrained. simpl. split_and!.
  - eapply optional_list_inr; [|exact Hz]. apply validate_Zone_inr.
  - eapply optional_list_inr; [|exact Hn]. apply validate_Node_inr.
  - eapply optional_list_inr; [|exact Hf]. apply validate_Flow_inr.
Qed.

(** *** Validating a dump *)

Lemma items_dump {A B} (parse : json -> validated A) (enc : B -> json)
    (dump : A -> B) (P : A -> Prop) i xs :
  (forall a, P a -> parse (enc (dump a)) = inr a) ->
  Forall P xs ->
  items parse i (map enc (map dump xs)) = inr xs.
Proof.
  intros Hp Hxs. revert i. induction Hxs as [|x xs Hx _ IH]; intros i; [done|].
  simpl. by rewrite (Hp x Hx), IH.
Qed.

Lemma items_strs i xs : items str i (map JStr xs) = inr xs.
Proof.
  revert i. induction xs as [|x xs IH]; intros i; [done|].
  simpl. by rewrite IH.
Qed.

Lemma list_of_strs xs : list_of str (json_of_strs xs) = inr xs.
Proof. apply items_strs. Qed.

Lemma required_at {A} (parse : json -> validated A) name obj v :
  get_field name obj = Some v ->
  required parse name obj = at_loc name (parse v).
Proof. unfold required. by intros ->. Qed.

Lemma optional_at {A} (parse : json -> validated A) name d obj v :
  get_field name obj = Some v ->
  optional parse name d obj = at_loc name (parse v).
Proof. unfold optional. by intros ->. Qed.

Lemma literal_member allowed s : s ∈ allowed -> literal allowed (JStr s) = inr s.
Proof. intros H. unfold literal. by rewrite bool_decide_true. Qed.

Lemma int_ge_at_least b z : b <= z -> int_ge b (JInt z) = inr z.
Proof.
  intros H. unfold int_ge. by assert ((b <=? z) = true) as -> by lia.
Qed.

(** The fields of a dump are all there. *)
Ltac fields :=
  repeat first [ erewrite required_at by reflexivity
               | erewrite optional_at by reflexivity ];
  rewrite ?list_of_strs.

Lemma validate_dumped_Zone z :
  0 <= Zone_order z -> validate_Zone (json_of_Zone (dumped_Zone z)) = inr z.
Proof.
  intros H. destruct z as [zid name order color]. cbn in H.
  unfold validate_Zone, json_of_Zone, dumped_Zone, model. fields.
  by rewrite int_ge_at_least.
Qed.

Lemma validate_dumped_TrustBoundary tb :
  validate_TrustBoundary (json_of_TrustBoundary (dumped_TrustBoundary tb))
  = inr tb.
Proof.
  destruct tb as [tid label between].
  unfold validate_TrustBoundary, json_of_TrustBoundary, dumped_TrustBoundary,
    model. by fields.
Qed.

Lemma validate_dumped_Node n :
  Node_type n ∈ NodeType ->
  validate_Node (json_of_Node (dumped_Node n)) = inr n.
Proof.
  intros H. destruct n as [nid label zone type tags]. cbn [Node_type] in H.
  unfold validate_Node, json_of_Node, dumped_Node, model. fields.
  by rewrite literal_member.
Qed.

Lemma validate_dumped_Group g :
  validate_Group (json_of_Group (dumped_Group g)) = inr g.
Proof.
  destruct g as [gid label zone children].
  unfold validate_Group, json_of_Group, dumped_Group, model. by fields.
Qed.

Lemma validate_dumped_Flow f :
  Flow_flow_type f ∈ FlowType ->
  validate_Flow (json_of_Flow (dumped_Flow f)) = inr f.
Proof.
  intros H. destruct f as [fid source target type protocol auth dc label].
  cbn [Flow_flow_type] in H.
  unfold validate_Flow, json_of_Flow, dumped_Flow, model. fields.
  rewrite literal_member by done. by destruct label.
Qed.

Lemma validate_dumped_Control c :
  validate_Control (json_of_Control (dumped_Control c)) = inr c.
Proof.
  destruct c as [cid scope type].
  unfold validate_Control, json_of_Control, dumped_Control, model. by fields.
Qed.

Lemma list_of_dump {A B} (parse : json -> validated A) (enc : B -> json)
    (dump : A -> B) (P : A -> Prop) xs :
  (forall a, P a -> parse (enc (dump a)) = inr a) ->
  Forall P xs ->
  list_of parse (json_of_list enc (map dump xs)) = inr xs.
Proof. apply items_dump. Qed.

Lemma model_validate_dump m :
  constrained m -> model_validate (model_dump m) = inr m.
Proof.
  intros (Hz & Hn & Hf).
  destruct m as [title zones tbs groups nodes flows controls].
  cbn [ArchitectureDSL_zones ArchitectureDSL_nodes ArchitectureDSL_flows]
    in Hz, Hn, Hf.
  unfold model_validate, model_dump, json_of_DSL, dumped, model. fields.
  cbn [ArchitectureDSL_title ArchitectureDSL_zones
       ArchitectureDSL_trust_boundaries ArchitectureDSL_groups
       ArchitectureDSL_nodes ArchitectureDSL_flows ArchitectureDSL_controls].
  rewrite (list_of_dump validate_Zone json_of_Zone dumped_Zone _ zones
             validate_dumped_Zone Hz).
  rewrite (list_of_dump validate_TrustBoundary json_of_TrustBoundary
             dumped_TrustBoundary (fun _ => True) tbs
             (fun a _ => validate_dumped_TrustBoundary a))
    by (by apply Forall_true).
  rewrite (list_of_dump validate_Group json_of_Group dumped_Group
             (fun _ => True) groups (fun a _ => validate_dumped_Group a))
    by (by apply Forall_true).
  rewrite (list_of_dump validate_Node json_of_Node dumped_Node _ nodes
             validate_dumped_Node Hn).
  rewrite (list_of_dump validate_Flow json_of_Flow dumped_Flow _ flows
             validate_dumped_Flow Hf).
  rewrite (list_of_dump validate_Control json_of_Control dumped_Control
             (fun _ => True) controls
             (fun a _ => validate_dumped_Control a))
    by (by apply Forall_true).
  by destruct title.
Qed.

End SchemaFacts.

(** X22: [validate_dsl] returns either a model and no message, or no model
    and at least one message. *)
Theorem validate_dsl_model_or_messages data :
  (exists m, Schema.validate_dsl data = (Some m, []))
  \/ (exists e errors, Schema.validate_dsl data = (None, e :: errors)).
Proof.
  unfold Schema.validate_dsl.
  pose proof (SchemaFacts.reports_model_validate data) as H.
  destruct (Schema.model_validate data) as [[|[loc msg] errs]|m].
  - done.
  - right. by eexists _, _.
  - left. by exists m.
Qed.

(** X23: a model that [validate_dsl] returns meets the constraints of the
    schema, and its dump validates to the same model. *)
Theorem validate_dump_round_trip data m errors :
  Schema.validate_dsl data = (Some m, errors) ->
  constrained m /\ Schema.validate_dsl (model_dump m) = (Some m, []).
Proof.
  unfold Schema.validate_dsl.
  destruct (Schema.model_validate data) as [|m'] eqn:E; [done|].
  intros [= <- _].
  pose proof (SchemaFacts.model_validate_constrained _ _ E) as Hc.
  split; [done|]. by rewrite SchemaFacts.model_validate_dump.
Qed.

Lemma validate_dump_round_trip_witness :
  exists m,
    Schema.validate_dsl extra_zone_field_payload = (Some m, [])
    /\ constrained m /\ Schema.validate_dsl (model_dump m) = (Some m, []).
Proof.
  assert (exists m, Schema.validate_dsl extra_zone_field_payload = (Some m, []))
    as [m Hm].
  { eexists. vm_compute. reflexivity. }
  exists m. split; [exact Hm|].
  exact (validate_dump_round_trip extra_zone_field_payload m [] Hm).
Defined.

(** X24: a key of the payload that is no field of [ArchitectureDSL] makes
    [validate_dsl] return no model, and the message that names the key. *)
Theorem unknown_key_is_reported obj k v :
  (k, v) ∈ obj ->
  k ∉ ["title"; "zones"; "trust_boundaries"; "groups"; "nodes"; "flows";
        "controls"] ->
  exists errors,
    Schema.validate_dsl (Schema.JObj obj) = (None, errors)
    /\ (k +:+ ": Extra inputs are not permitted") ∈ errors.
Proof.
  intros Hin Hk.
  unfold Schema.validate_dsl, Schema.model_validate, Schema.model.
  set (names := ["title"; "zones"; "trust_boundaries"; "groups"; "nodes";
                 "flows"; "controls"]) in *.
  assert (Hextra : ([k], "Extra inputs are not permitted")
                   ∈ Schema.extra_errors Schema.ArchitectureDSL_model_config
                       names obj).
  { unfold Schema.extra_errors. cbn [Schema.config_extra
      Schema.ArchitectureDSL_model_config].
    apply list_elem_of_In, in_flat_map. exists (k, v).
    split; [by apply list_elem_of_In|]. cbn [fst].
    rewrite bool_decide_false by done. by left. }
  destruct (Schema.extra_errors _ _ _) as [|e extras] eqn:He;
    [by apply elem_of_nil in Hextra|].
  assert (Hmsg : forall errs,
            (k +:+ ": Extra inputs are not permitted")
            ∈ map (fun '(loc, msg) => join "." loc +:+ ": " +:+ msg)
                (errs ++ e :: extras)).
  { intros errs. apply list_elem_of_fmap.
    exists ([k], "Extra inputs are not permitted").
    split; [done|]. apply elem_of_app. by right. }
  destruct (Schema.ap _ _) as [errs|a]; eexists; (split; [reflexivity|]).
  - apply Hmsg.
  - apply (Hmsg []).
Qed.

Lemma unknown_key_is_reported_witness :
  exists errors,
    Schema.validate_dsl extra_field_payload = (None, errors)
    /\ "owner: Extra inputs are not permitted" ∈ errors.
Proof.
  apply (unknown_key_is_reported
           [("zones", Schema.JList []); ("owner", Schema.JStr "team")]
           "owner" (Schema.JStr "team")).
  - apply list_elem_of_In. right. by left.
  - intros H%list_elem_of_In. vm_compute in H. intuition discriminate.
Defined.

(* ------------------------------------------------------------------------- *)
(** ** The stub generator                                                     *)
(* ------------------------------------------------------------------------- *)

Lemma bind_ret {A B} (a : A) (k : A -> result B) : (Ok a ≫= k) = k a.
Proof. reflexivity. Qed.

Lemma len_pos {A} (xs : list A) : xs <> [] -> 0 < len xs.
Proof. destruct xs; [done|]. unfold len. simpl. lia. Qed.

(** *** Subscripts *)

Lemma subscript_Ok {A} (xs : list A) i :
  0 <= i < len xs ->
  exists x, subscript xs i = Ok x /\ xs !! Z.to_nat i = Some x.
Proof.
  intros Hi. unfold subscript. assert ((i <? 0) = false) as -> by lia.
  destruct (item_total xs i Hi) as (x & Hx & _). exists x.
  split; [done|]. by apply item_Ok.
Qed.

Lemma subscript_in {A} (xs : list A) i :
  - len xs <= i < len xs -> exists x, subscript xs i = Ok x /\ x ∈ xs.
Proof.
  intros Hi. unfold subscript. destruct (i <? 0) eqn:E.
  - assert ((len xs + i <? 0) = false) as -> by lia.
    apply item_total. lia.
  - apply item_total. lia.
Qed.

Lemma numbered_snoc p k :
  0 <= k -> numbered p (k + 1) = numbered p k ++ [p +:+ pretty k].
Proof.
  intros Hk. unfold numbered. rewrite seqZ_snoc by done.
  by rewrite fmap_app.
Qed.

Lemma len_numbered p k : 0 <= k -> len (numbered p k) = k.
Proof. apply len_fmap_seqZ. Qed.

Lemma app_inj_str (p a b : string) : p +:+ a = p +:+ b -> a = b.
Proof. induction p as [|c p IH]; simpl; [done|]. intros [= H]. auto. Qed.

Lemma NoDup_numbered p k : NoDup (numbered p k).
Proof.
  unfold numbered. apply NoDup_fmap_2; [|apply NoDup_seqZ].
  intros a b H%app_inj_str. by apply (inj pretty).
Qed.

(** *** The zones *)

Lemma cond_append {A B} (step : list B -> A -> list B) (c : A -> bool)
    (f : A -> B) l init :
  (forall acc x, step acc x = if c x then acc ++ [f x] else acc) ->
  exists rest,
    fold_left step l init = init ++ rest /\ rest `sublist_of` map f l.
Proof.
  intros Hstep. revert init. induction l as [|x l IH]; intros init.
  { exists []. by rewrite app_nil_r. }
  cbn [fold_left map]. rewrite Hstep.
  destruct (c x).
  - destruct (IH (init ++ [f x])) as (rest & -> & Hsub).
    exists (f x :: rest). rewrite <- app_assoc. split; [done|].
    by apply sublist_skip.
  - destruct (IH init) as (rest & -> & Hsub). exists rest.
    split; [done|]. by apply sublist_cons.
Qed.

Lemma stub_zones (has : string -> bool) :
  let zones_list :=
    fold_left
      (fun zones_list '(i, (kw, name, color)) =>
         if has kw || has (lower name)
         then zones_list ++ [stub_zone i name color]
         else zones_list)
      (enumerate zone_keywords) [] in
  let zones_list :=
    if is_nil zones_list then
      [stub_zone 0 "External" "#fff2cc"; stub_zone 1 "Perimeter" "#ffe6cc";
       stub_zone 2 "Internal" "#d5e8d4"]
    else zones_list in
  zones_list <> [] /\ len zones_list <= 9
  /\ NoDup (map zone_id zones_list) /\ Forall is_stub_zone zones_list.
Proof.
  cbv zeta.
  destruct (cond_append
              (fun zones_list '(i, (kw, name, color)) =>
                 if has kw || has (lower name)
                 then zones_list ++ [stub_zone i name color]
                 else zones_list)
              (fun '(i, (kw, name, color)) => has kw || has (lower name))
              (fun '(i, (kw, name, color)) => stub_zone i name color)
              (enumerate zone_keywords) [])
    as (rest & -> & Hsub).
  { by intros acc [i [[kw name] color]]. }
  cbn [app]. destruct (is_nil rest) eqn:Hnil.
  - split_and!; [done | by vm_compute | | ].
    + compute_done.
    + repeat constructor; eexists _, _, _; (split; [reflexivity | lia]).
  - apply is_nil_false in Hnil. split_and!; [done | | | ].
    + apply sublist_length in Hsub. unfold len.
      rewrite length_map in Hsub. vm_compute in Hsub.
      apply Nat2Z.inj_le in Hsub. exact Hsub.
    + refine (sublist_NoDup _ _ _ (fmap_sublist zone_id _ _ Hsub)).
      compute_done.
    + apply Forall_forall. intros z Hz.
      pose proof (elem_of_sublist _ _ _ Hz Hsub) as Hin. clear Hz. revert z Hin.
      apply Forall_forall. cbn [enumerate imap map zone_keywords].
      repeat constructor; eexists _, _, _; (split; [reflexivity | lia]).
Qed.

(** *** The trust boundaries *)

Lemma stub_trust_boundaries (zone_ids : list string) :
  zone_ids <> [] ->
  exists tbs,
    for_each
      (fun tbs i =>
         a ← subscript zone_ids i;
         b ← subscript zone_ids (i + 1);
         Ok (tbs ++ [stub_trust_boundary i [a; b]]))
      (seqZ 0 (len zone_ids - 1)) [] = Ok tbs
    /\ len tbs = len zone_ids - 1
    /\ Forall (is_stub_trust_boundary zone_ids) tbs
    /\ (forall (k : nat) a b,
          zone_ids !! k = Some a -> zone_ids !! S k = Some b ->
          tbs !! k = Some (stub_trust_boundary (Z.of_nat k) [a; b])).
Proof.
  intros Hne. pose proof (len_pos _ Hne) as Hpos.
  set (at_ := fun i : Z =>
         stub_trust_boundary i
           [default "" (zone_ids !! Z.to_nat i);
            default "" (zone_ids !! Z.to_nat (i + 1))]).
  destruct (for_each_total
              (fun tbs i =>
                 a ← subscript zone_ids i;
                 b ← subscript zone_ids (i + 1);
                 Ok (tbs ++ [stub_trust_boundary i [a; b]]))
              (fun done tbs =>
                 len tbs = len done
                 /\ Forall (is_stub_trust_boundary zone_ids) tbs
                 /\ tbs = at_ <$> done)
              (seqZ 0 (len zone_ids - 1)) [])
    as (tbs & Htbs & Hlen & Hall & Hat).
  - done.
  - intros done i tbs (Hlen & Hall & Hat) Hi%elem_of_seqZ.
    destruct (subscript_Ok zone_ids i) as (a & -> & Ha); [lia|].
    destruct (subscript_Ok zone_ids (i + 1)) as (b & -> & Hb); [lia|].
    rewrite !bind_ret. eexists. split; [reflexivity|].
    rewrite !len_snoc, Hlen. split_and!; [done | |].
    + apply Forall_app. split; [done|]. apply Forall_singleton.
      exists i, (Z.to_nat i), a, b. split_and!; [done..|].
      by replace (S (Z.to_nat i)) with (Z.to_nat (i + 1)) by lia.
    + rewrite fmap_app, Hat. f_equal. cbn [fmap list_fmap]. unfold at_.
      by rewrite Ha, Hb.
  - exists tbs. split_and!; [done | | done |].
    + rewrite Hlen. unfold len. rewrite length_seqZ. unfold len in Hpos. lia.
    + intros k a b Ha Hb. rewrite Hat, list_lookup_fmap.
      apply lookup_lt_Some in Hb as Hk. unfold len.
      rewrite lookup_seqZ_lt by lia. cbn [fmap option_fmap option_map].
      unfold at_. rewrite Z.add_0_l.
      replace (Z.to_nat (Z.of_nat k + 1)) with (S k) by lia.
      by rewrite Nat2Z.id, Ha, Hb.
Qed.

(** *** The nodes *)

Lemma add_node_inv zone_ids cond label zone type z st :
  zone = Ok z -> z ∈ zone_ids -> type ∈ Schema.NodeType ->
  st.2 = len st.1 -> map node_id st.1 = numbered "n" st.2 ->
  Forall (is_stub_node zone_ids) st.1 ->
  exists st',
    add_node cond label zone type st = Ok st'
    /\ st'.2 = len st'.1 /\ map node_id st'.1 = numbered "n" st'.2
    /\ Forall (is_stub_node zone_ids) st'.1
    /\ len st'.1 <= len st.1 + 1
    /\ (st.1 <> [] -> st'.1 <> []).
Proof.
  intros -> Hz Ht Hk Hids Hall. unfold add_node. destruct cond.
  - rewrite bind_ret. eexists. split; [reflexivity|]. cbn [fst snd].
    rewrite len_snoc, map_app, Hids, Hk.
    pose proof (len_nonneg st.1).
    rewrite numbered_snoc by done. split_and!; [done | done | | lia |].
    + apply Forall_app. split; [done|]. apply Forall_singleton.
      by eexists _, _, _, _.
    + intros _. by destruct st.1.
  - exists st. split_and!; [done..| lia | done].
Qed.

Lemma if_else_nonempty {A B} (xs : list A) (e : result B) d :
  xs <> [] -> if_else xs e d = e.
Proof. intros H%is_nil_false. unfold if_else. by rewrite H. Qed.

(** *** The flows *)

Lemma stub_flows (node_ids : list string) :
  1 <= len node_ids ->
  exists fs,
    (forall C (k : list Flow -> result C),
       (flows_list ←
          (if 2 <=? len node_ids then
             s ← subscript node_ids 0;
             t ← subscript node_ids 1;
             Ok [stub_flow "f0" s t "api" "HTTPS" "OAuth2" "PII"]
           else Ok []);
        flows_list ←
          (if 3 <=? len node_ids then
             s ← subscript node_ids 1;
             t ← subscript node_ids 2;
             Ok (flows_list
                   ++ [stub_flow "f1" s t "data" "TLS" "mTLS" "Confidential"])
           else Ok flows_list);
        k flows_list) = k fs)
    /\ len fs = Z.min 2 (len node_ids - 1)
    /\ Forall (is_stub_flow node_ids) fs
    /\ (forall (k : nat) f,
          fs !! k = Some f ->
          exists s t,
            node_ids !! k = Some s /\ node_ids !! S k = Some t
            /\ flow_source f = Some s /\ flow_target f = Some t).
Proof.
  intros Hlen.
  assert (Hapi : "api" ∈ Schema.FlowType) by compute_done.
  assert (Hdata : "data" ∈ Schema.FlowType) by compute_done.
  destruct (2 <=? len node_ids) eqn:E2.
  - destruct (subscript_Ok node_ids 0) as (a & Ha0 & Ha); [lia|].
    destruct (subscript_Ok node_ids 1) as (b & Hb1 & Hb); [lia|].
    change (Z.to_nat 0) with 0%nat in Ha.
    change (Z.to_nat 1) with 1%nat in Hb.
    destruct (3 <=? len node_ids) eqn:E3.
    + destruct (subscript_Ok node_ids 2) as (c & Hc2 & Hc); [lia|].
      change (Z.to_nat 2) with 2%nat in Hc.
      exists [stub_flow "f0" a b "api" "HTTPS" "OAuth2" "PII";
              stub_flow "f1" b c "data" "TLS" "mTLS" "Confidential"].
      split_and!.
      * intros C k. by rewrite Ha0, Hb1, Hc2, !bind_ret.
      * unfold len at 1. simpl. lia.
      * repeat constructor.
        -- exists "f0", 0%nat, a, b. by eexists _, _, _, _.
        -- exists "f1", 1%nat, b, c. by eexists _, _, _, _.
      * intros [|[|k]] f [= <-]; [by exists a, b | by exists b, c].
    + exists [stub_flow "f0" a b "api" "HTTPS" "OAuth2" "PII"]. split_and!.
      * intros C k. by rewrite Ha0, Hb1, !bind_ret.
      * unfold len at 1. simpl. lia.
      * repeat constructor. exists "f0", 0%nat, a, b. by eexists _, _, _, _.
      * intros [|k] f [= <-]. by exists a, b.
  - assert ((3 <=? len node_ids) = false) as -> by lia.
    exists []. split_and!; [done | | done | done].
    unfold len at 1. simpl. lia.
Qed.

(** *** The stub *)

Ltac add_node_step zone_ids z Hz Hzin :=
  match goal with
  | |- context [add_node ?c ?l ?zone ?ty ?st] =>
      let st' := fresh "st" in
      let Hk := fresh "Hk" in
      let Hids := fresh "Hids" in
      let Hall := fresh "Hall" in
      let Hlen := fresh "Hlen" in
      let Hne := fresh "Hne" in
      destruct (add_node_inv zone_ids c l zone ty z st Hz Hzin)
        as (st' & -> & Hk & Hids & Hall & Hlen & Hne);
      [compute_done | assumption.. |];
      rewrite bind_ret
  end.

Lemma stub_Ok text :
  exists zs tbs ns fs cs,
    _stub_dsl_from_text text
    = Ok {| dsl_title := Some "Security Reference Architecture";
            dsl_zones := Some zs; dsl_trust_boundaries := Some tbs;
            dsl_groups := Some []; dsl_nodes := Some ns;
            dsl_flows := Some fs; dsl_controls := Some cs |}
    /\ (zs <> [] /\ len zs <= 9 /\ NoDup (map zone_id zs)
        /\ Forall is_stub_zone zs)
    /\ (len tbs = len zs - 1
        /\ Forall (is_stub_trust_boundary (map zone_id zs)) tbs
        /\ (forall (k : nat) a b,
              map zone_id zs !! k = Some a ->
              map zone_id zs !! S k = Some b ->
              tbs !! k = Some (stub_trust_boundary (Z.of_nat k) [a; b])))
    /\ (1 <= len ns <= 6 /\ map node_id ns = numbered "n" (len ns)
        /\ Forall (is_stub_node (map zone_id zs)) ns)
    /\ (len fs = Z.min 2 (len ns - 1)
        /\ Forall (is_stub_flow (map node_id ns)) fs
        /\ (forall (k : nat) f,
              fs !! k = Some f ->
              exists s t,
                map node_id ns !! k = Some s
                /\ map node_id ns !! S k = Some t
                /\ flow_source f = Some s /\ flow_target f = Some t))
    /\ (cs = []
        \/ cs = [{| control_id := "c0";
                    control_scope := take 2 (map node_id ns);
                    control_type := "Encryption (TLS)" |}]).
Proof.
  unfold _stub_dsl_from_text. cbv zeta.
  set (t := lower (str_or text "")).
  pose proof (stub_zones (str_contains t)) as Hz. cbv zeta in Hz.
  match type of Hz with ?z <> [] /\ _ => set (zs := z) in * end.
  destruct Hz as (Hne & Hlen9 & Hnd & Hzs).
  set (zone_ids := map zone_id zs) in *.
  assert (Hids : zone_ids <> []) by (unfold zone_ids; by destruct zs).
  assert (Hzl : len zone_ids = len zs)
    by (unfold zone_ids, len; by rewrite length_map).
  pose proof (len_pos _ Hids) as Hpos.
  destruct (stub_trust_boundaries zone_ids Hids)
    as (tbs & -> & Htl & Htbs & Htat).
  rewrite bind_ret.
  destruct (subscript_in zone_ids 0) as (z_first & Hf & Hfin); [lia|].
  destruct (subscript_in zone_ids (-1)) as (z_last & Hl & Hlin); [lia|].
  destruct (subscript_in zone_ids (Z.min 1 (len zone_ids - 1)))
    as (z_mid & Hm & Hmin); [lia|].
  rewrite !(if_else_nonempty zone_ids) by done.
  assert (H0k : ([] : list Node, 0).2 = len ([] : list Node, 0).1) by done.
  assert (H0i : map node_id ([] : list Node, 0).1
                = numbered "n" ([] : list Node, 0).2) by done.
  assert (H0a : Forall (is_stub_node zone_ids) ([] : list Node, 0).1)
    by constructor.
  add_node_step zone_ids z_mid Hm Hmin.
  add_node_step zone_ids z_first Hf Hfin.
  add_node_step zone_ids z_last Hl Hlin.
  add_node_step zone_ids z_last Hl Hlin.
  add_node_step zone_ids z_mid Hm Hmin.
  add_node_step zone_ids z_first Hf Hfin.
  match goal with
  | |- context [is_nil ?l] =>
      match l with
      | fst ?s => rename s into st_end
      end
  end.
  assert (exists ns,
            (if is_nil st_end.1 then
               z0 ← subscript zone_ids 0;
               z1 ← subscript zone_ids (-1);
               z2 ← subscript zone_ids (-1);
               Ok [stub_node 0 "Client" z0 "external";
                   stub_node 1 "Web App" z1 "service";
                   stub_node 2 "Database" z2 "data_store"]
             else Ok st_end.1) = Ok ns
            /\ 1 <= len ns <= 6
            /\ map node_id ns = numbered "n" (len ns)
            /\ Forall (is_stub_node zone_ids) ns)
    as (ns & -> & Hns & Hnids & Hnall).
  { destruct (is_nil st_end.1) eqn:Hnil.
    - rewrite Hf, Hl, !bind_ret. eexists. split; [reflexivity|].
      split_and!; [by vm_compute | by vm_compute | done |].
      repeat constructor; eexists _, _, _, _;
        (split_and!; [reflexivity | done | compute_done]).
    - apply is_nil_false in Hnil. exists st_end.1.
      pose proof (len_pos _ Hnil). change (len ([] : list Node, 0).1) with 0 in *.
      split_and!; [done | lia | lia | congruence | done]. }
  rewrite bind_ret.
  destruct (stub_flows (map node_id ns)) as (fs & Hfs & Hfl & Hfall & Hfat).
  { unfold len. rewrite length_map. apply Hns. }
  rewrite Hfs.
  assert (Hnl : len (map node_id ns) = len ns)
    by (unfold len; by rewrite length_map).
  rewrite Hnl in Hfl.
  assert (Hscope : (if is_nil (map node_id ns) then []
                    else take 2 (map node_id ns))
                   = take 2 (map node_id ns)).
  { by destruct (map node_id ns). }
  rewrite Hscope.
  eexists zs, tbs, ns, fs, _. split; [reflexivity|].
  split_and!; try done; try lia.
  destruct (_ || _); [by right | by left].
Qed.

Lemma map_fixed {A} (f : A -> A) (P : A -> Prop) l :
  (forall x, P x -> f x = x) -> Forall P l -> map f l = l.
Proof.
  intros Hf. induction 1 as [|x l Hx _ IH]; [done|].
  simpl. by rewrite Hf, IH.
Qed.

(** A payload that has every key and meets the constraints validates, to
    the model it is the dump of. *)
Lemma complete_payload_validates d :
  dumped (model_of d) = d -> constrained (model_of d) ->
  Schema.validate_dsl (json_of_DSL d) = (Some (model_of d), []).
Proof.
  intros Hd Hc. rewrite <- Hd at 1. fold (model_dump (model_of d)).
  unfold Schema.validate_dsl.
  by rewrite SchemaFacts.model_validate_dump.
Qed.

Lemma stub_validates text :
  exists d,
    _stub_dsl_from_text text = Ok d
    /\ Schema.validate_dsl (json_of_DSL d) = (Some (model_of d), [])
    /\ dumped (model_of d) = d.
Proof.
  destruct (stub_Ok text)
    as (zs & tbs & ns & fs & cs & -> & (_ & _ & _ & Hzs) & (_ & Htbs & _)
        & (_ & _ & Hns) & (_ & Hfs & _) & Hcs).
  eexists. split; [reflexivity|].
  assert (Hd : dumped (model_of
                 {| dsl_title := Some "Security Reference Architecture";
                    dsl_zones := Some zs; dsl_trust_boundaries := Some tbs;
                    dsl_groups := Some []; dsl_nodes := Some ns;
                    dsl_flows := Some fs; dsl_controls := Some cs |})
               = {| dsl_title := Some "Security Reference Architecture";
                    dsl_zones := Some zs; dsl_trust_boundaries := Some tbs;
                    dsl_groups := Some []; dsl_nodes := Some ns;
                    dsl_flows := Some fs; dsl_controls := Some cs |}).
  { unfold dumped, model_of.
    cbn [_ensure_list from_option id dsl_title dsl_zones dsl_trust_boundaries
         dsl_groups dsl_nodes dsl_flows dsl_controls
         Schema.ArchitectureDSL_title Schema.ArchitectureDSL_zones
         Schema.ArchitectureDSL_trust_boundaries
         Schema.ArchitectureDSL_groups Schema.ArchitectureDSL_nodes
         Schema.ArchitectureDSL_flows Schema.ArchitectureDSL_controls map].
    rewrite !map_map.
    rewrite (map_fixed (fun x => dumped_Zone (model_of_Zone x))
               is_stub_zone zs);
      [| by intros z (i & n & c & -> & _) | exact Hzs].
    rewrite (map_fixed
               (fun x => dumped_TrustBoundary (model_of_TrustBoundary x))
               (is_stub_trust_boundary (map zone_id zs)) tbs);
      [| by intros tb (i & j & a & b & -> & _) | exact Htbs].
    rewrite (map_fixed (fun x => dumped_Node (model_of_Node x))
               (is_stub_node (map zone_id zs)) ns);
      [| by intros n (k & l & z & ty & -> & _) | exact Hns].
    rewrite (map_fixed (fun x => dumped_Flow (model_of_Flow x))
               (is_stub_flow (map node_id ns)) fs);
      [| by intros f (i & j & a & b & ty & p & au & dc & -> & _)
       | exact Hfs].
    by destruct Hcs as [-> | ->]. }
  split; [|exact Hd]. apply complete_payload_validates; [exact Hd|].
  unfold constrained, model_of.
  cbn [_ensure_list from_option id dsl_zones dsl_nodes dsl_flows
       Schema.ArchitectureDSL_zones Schema.ArchitectureDSL_nodes
       Schema.ArchitectureDSL_flows].
  split_and!; apply Forall_fmap; (eapply Forall_impl; [eassumption|]).
  - by intros z (i & n & c & -> & Hi).
  - by intros n (k & l & z & ty & -> & _ & Hty).
  - by intros f (i & j & a & b & ty & p & au & dc & -> & _ & _ & Hty).
Qed.

(** X25: for every text the stub generator returns a payload, the payload
    validates against the schema, and the dump of the validated model is
    the payload itself. *)
Theorem stub_is_schema_valid text :
  exists d m,
    _stub_dsl_from_text text = Ok d
    /\ Schema.validate_dsl (json_of_DSL d) = (Some m, [])
    /\ dumped m = d.
Proof.
  destruct (stub_validates text) as (d & Hd & Hv & Hm).
  by exists d, (model_of d).
Qed.

(** X26: the payload of the stub is consistent.  It has between one and
    nine zones with different ids; one trust boundary for each two
    neighbouring zones and no other: the [k]-th boundary lies between the
    [k]-th zone and the next; between one and six nodes numbered [n0], [n1],
    ... each in a zone of the payload; min(2, nodes - 1) flows, the [k]-th
    from the [k]-th node to the next; and controls over nodes of the
    payload. *)
Theorem stub_is_consistent text :
  exists d,
    _stub_dsl_from_text text = Ok d
    /\ let zs := _ensure_list (dsl_zones d) in
       let tbs := _ensure_list (dsl_trust_boundaries d) in
       let ns := _ensure_list (dsl_nodes d) in
       let fs := _ensure_list (dsl_flows d) in
       (1 <= len zs <= 9 /\ NoDup (map zone_id zs))
       /\ (len tbs = len zs - 1
           /\ forall (k : nat) za zb,
                zs !! k = Some za -> zs !! S k = Some zb ->
                exists tb,
                  tbs !! k = Some tb
                  /\ tb_between_zones tb = Some [zone_id za; zone_id zb])
       /\ (1 <= len ns <= 6 /\ map node_id ns = numbered "n" (len ns)
           /\ Forall (fun n => exists z, z ∈ zs
                                 /\ node_zone n = Some (zone_id z)) ns)
       /\ (len fs = Z.min 2 (len ns - 1)
           /\ forall (k : nat) f,
                fs !! k = Some f ->
                exists na nb,
                  ns !! k = Some na /\ ns !! S k = Some nb
                  /\ flow_source f = Some (node_id na)
                  /\ flow_target f = Some (node_id nb))
       /\ Forall (fun c => control_scope c ⊆ map node_id ns)
            (_ensure_list (dsl_controls d)).
Proof.
  destruct (stub_Ok text)
    as (zs & tbs & ns & fs & cs & -> & (Hne & Hz9 & Hnd & Hzs)
        & (Htl & _ & Htat) & (Hnl & Hnids & Hns) & (Hfl & _ & Hfat) & Hcs).
  eexists. split; [reflexivity|].
  cbn [_ensure_list from_option id dsl_zones dsl_trust_boundaries dsl_nodes
       dsl_flows dsl_controls].
  pose proof (len_pos _ Hne). split_and!; try done; try lia.
  - intros k za zb Hza Hzb. eexists. split.
    + apply Htat; rewrite list_lookup_fmap; [by rewrite Hza | by rewrite Hzb].
    + done.
  - eapply Forall_impl; [exact Hns|].
    intros n (k & l & z & ty & -> & (z' & -> & Hz')%list_elem_of_fmap & _).
    by exists z'.
  - intros k f Hf. destruct (Hfat k f Hf) as (s & t & Hs & Ht & Hsrc & Htgt).
    apply (list_lookup_fmap_Some_1 node_id) in Hs as (na & -> & Hna).
    apply (list_lookup_fmap_Some_1 node_id) in Ht as (nb & -> & Hnb).
    by exists na, nb.
  - destruct Hcs as [-> | ->]; [constructor|].
    apply Forall_singleton. cbn [control_scope].
    intros x Hx. by eapply elem_of_sublist; [|apply sublist_take].
Qed.

Lemma stub_accepted text :
  exists d g,
    _stub_dsl_from_text text = Ok d
    /\ returned (prepare d) = Ok (Some g, []).
Proof.
  destruct (stub_Ok text)
    as (zs & tbs & ns & fs & cs & -> & (Hne & _ & _ & _) & _
        & (Hnl & _ & Hns) & _).
  set (d := {| dsl_title := _ |}).
  destruct (accepted_with_zones d MIN_ZONES MIN_NODES MIN_FLOWS
              MIN_NODES_HARD true Hne) as [Hex _].
  destruct Hex as (g & Hg & _).
  { split; [|unfold MIN_NODES_HARD; apply Hnl].
    eapply Forall_impl; [exact Hns|].
    intros n (k & l & z & ty & -> & (z' & -> & Hz')%list_elem_of_fmap & _).
    by apply (listed_zone_not_dangling d _ z'). }
  by exists d, g.
Qed.

(** X27: for every text, the payload of the stub is one that
    [dsl_to_drawio] draws: it returns a document. *)
Theorem stub_is_drawn text :
  exists d out,
    _stub_dsl_from_text text = Ok d /\ dsl_to_drawio d = Ok out.
Proof.
  destruct (stub_accepted text) as (d & g & Hd & Hg).
  destruct (proj2 (dsl_to_drawio_Ok d)) as [out Hout]; [by exists g|].
  by exists d, out.
Qed.

(* ------------------------------------------------------------------------- *)
(** ** [text_to_dsl]                                                          *)
(* ------------------------------------------------------------------------- *)

Lemma is_None_json_of_DSL d : is_None (json_of_DSL d) = false.
Proof. done. Qed.

Section text_to_dsl_facts.
Context (json_loads : string -> string + Schema.json)
        (json_dumps : Schema.json -> string)
        (get_json_schema : Schema.json)
        (OPENAI_API_KEY : option string)
        (_call_llm_for_dsl :
           string -> string -> string -> Schema.json -> option string)
        (_repair_dsl_with_llm :
           Z -> string -> list string -> Schema.json -> option string).

Local Abbreviation text_to_dsl' :=
  (text_to_dsl json_loads json_dumps get_json_schema OPENAI_API_KEY
     _call_llm_for_dsl _repair_dsl_with_llm).
Local Abbreviation repair_body' :=
  (repair_body json_loads json_dumps _repair_dsl_with_llm).

(** With the stub for [dsl_dict], the repair loop is not entered. *)
Lemma stub_is_returned text d try_llm :
  _stub_dsl_from_text text = Ok d ->
  Schema.validate_dsl (json_of_DSL d) = (Some (model_of d), []) ->
  dumped (model_of d) = d ->
  (let '(model, validation_errors) := Schema.validate_dsl (json_of_DSL d) in
   st ← while (rounds MAX_REPAIR_ATTEMPTS 0) (repair_cond try_llm)
          (repair_body' get_json_schema)
          {| rs_dsl_dict := json_of_DSL d; rs_model := model;
             rs_validation_errors := validation_errors; rs_attempt := 0 |};
   match rs_model st with
   | None => Ok (rs_dsl_dict st, rs_validation_errors st)
   | Some model => Ok (model_dump model, [])
   end) = Ok (json_of_DSL d, []).
Proof.
  intros Hd -> Hm. rewrite while_done by done. rewrite bind_ret.
  cbn [rs_model]. unfold model_dump. by rewrite Hm.
Qed.

Lemma text_to_dsl_stub text profile detail_level use_llm :
  let try_llm :=
    match use_llm with Some b => b | None => truthy OPENAI_API_KEY end in
  let raw_json_str :=
    _call_llm_for_dsl text profile detail_level get_json_schema in
  try_llm = false
  \/ truthy raw_json_str = false
  \/ (exists e, json_loads (default "" raw_json_str) = inl e)
  \/ json_loads (default "" raw_json_str) = inr Schema.JNull ->
  exists d,
    _stub_dsl_from_text text = Ok d
    /\ text_to_dsl' text profile detail_level use_llm
       = Ok (json_of_DSL d, []).
Proof.
  intros try_llm raw_json_str H.
  destruct (stub_validates text) as (d & Hd & Hv & Hm).
  exists d. split; [done|].
  pose proof (stub_is_returned text d try_llm Hd Hv Hm) as Hret.
  unfold text_to_dsl. fold try_llm. fold raw_json_str.
  destruct try_llm eqn:Etry.
  - destruct H as [H|[H|[[e H]|H]]]; [done| | |]; rewrite ?H.
    + cbn [is_None andb negb]. rewrite Hd, bind_ret, bind_ret.
      by rewrite is_None_json_of_DSL.
    + destruct (truthy raw_json_str);
        cbn [is_None andb negb]; rewrite Hd, bind_ret, bind_ret;
        by rewrite is_None_json_of_DSL.
    + destruct (truthy raw_json_str);
        cbn [is_None andb negb]; rewrite Hd, bind_ret, bind_ret;
        by rewrite is_None_json_of_DSL.
  - cbn [is_None andb negb]. rewrite Hd, bind_ret, bind_ret.
    by rewrite is_None_json_of_DSL.
Qed.

(** X28: without the language model, because the caller says so or because
    no key is set, [text_to_dsl] returns the payload of the stub and no
    error, for every text. *)
Theorem text_to_dsl_stub_only text profile detail_level use_llm :
  use_llm = Some false \/ (use_llm = None /\ truthy OPENAI_API_KEY = false) ->
  exists d,
    _stub_dsl_from_text text = Ok d
    /\ text_to_dsl' text profile detail_level use_llm
       = Ok (json_of_DSL d, []).
Proof.
  intros H. apply text_to_dsl_stub. left.
  by destruct H as [-> | [-> ->]].
Qed.

(** X29: when the language model is asked and gives nothing to go on (no
    answer, an empty one, one that is no JSON, or [null]), [text_to_dsl]
    returns the payload of the stub with an empty error list: the messages
    it has collected about the failure are not returned. *)
Theorem text_to_dsl_fallback_is_silent text profile detail_level use_llm :
  let raw_json_str :=
    _call_llm_for_dsl text profile detail_level get_json_schema in
  use_llm = Some true \/ (use_llm = None /\ truthy OPENAI_API_KEY = true) ->
  truthy raw_json_str = false
  \/ (exists e, json_loads (default "" raw_json_str) = inl e)
  \/ json_loads (default "" raw_json_str) = inr Schema.JNull ->
  exists d,
    _stub_dsl_from_text text = Ok d
    /\ text_to_dsl' text profile detail_level use_llm
       = Ok (json_of_DSL d, []).
Proof.
  intros raw_json_str _ H. apply text_to_dsl_stub. by right.
Qed.

Lemma validate_dsl_None data errors :
  Schema.validate_dsl data = (None, errors) -> errors <> [].
Proof.
  unfold Schema.validate_dsl.
  pose proof (SchemaFacts.reports_model_validate data) as H.
  destruct (Schema.model_validate data) as [[|[loc msg] errs]|m].
  - by destruct H.
  - by intros [= <-].
  - by intros [=].
Qed.

Lemma validate_dsl_Some data m :
  (Schema.validate_dsl data).1 = Some m ->
  Schema.validate_dsl (model_dump m) = (Some m, []).
Proof.
  unfold Schema.validate_dsl at 1.
  destruct (Schema.model_validate data) as [|m'] eqn:E; [done|].
  intros [= ->]. unfold Schema.validate_dsl.
  rewrite SchemaFacts.model_validate_dump; [done|].
  by eapply SchemaFacts.model_validate_constrained.
Qed.

(** The invariant of the repair loop *)
Lemma repair_loop try_llm dsl_dict :
  exists st,
    while (rounds MAX_REPAIR_ATTEMPTS 0) (repair_cond try_llm)
      (repair_body' get_json_schema)
      {| rs_dsl_dict := dsl_dict;
         rs_model := (Schema.validate_dsl dsl_dict).1;
         rs_validation_errors := (Schema.validate_dsl dsl_dict).2;
         rs_attempt := 0 |} = Ok st
    /\ rs_model st = (Schema.validate_dsl (rs_dsl_dict st)).1
    /\ (rs_model st = None -> rs_validation_errors st <> []).
Proof.
  destruct (while_total_inv (repair_cond try_llm)
              (repair_body' get_json_schema)
              (fun st =>
                 rs_model st = (Schema.validate_dsl (rs_dsl_dict st)).1
                 /\ (rs_model st = None -> rs_validation_errors st <> [])
                 /\ 0 <= rs_attempt st)
              (fun st => Z.to_nat (MAX_REPAIR_ATTEMPTS - rs_attempt st))
              (rounds MAX_REPAIR_ATTEMPTS 0)
              {| rs_dsl_dict := dsl_dict;
                 rs_model := (Schema.validate_dsl dsl_dict).1;
                 rs_validation_errors := (Schema.validate_dsl dsl_dict).2;
                 rs_attempt := 0 |})
    as (st & Hst & (Hm & He & _) & _).
  - cbn [rs_model rs_dsl_dict rs_validation_errors rs_attempt].
    split_and!; [done | | done].
    destruct (Schema.validate_dsl dsl_dict) as [model errs] eqn:E.
    cbn [fst snd]. intros ->. by eapply validate_dsl_None.
  - intros st (Hm & He & Ha) Hc. unfold repair_cond in Hc.
    apply andb_prop in Hc as [Hc Hlt]. apply andb_prop in Hc as [Hc _].
    apply andb_prop in Hc as [Hnone _].
    destruct (rs_model st) as [|] eqn:Emodel; [done|].
    unfold repair_body.
    set (repaired := _repair_dsl_with_llm _ _ _ _).
    destruct (truthy repaired).
    + destruct (json_loads (default "" repaired)) as [e|d].
      * eexists. split; [reflexivity|].
        cbn [rs_model rs_dsl_dict rs_validation_errors rs_attempt].
        rewrite Emodel. unfold MAX_REPAIR_ATTEMPTS in *.
        split_and!; [done | done | lia | lia].
      * destruct (Schema.validate_dsl d) as [model errs] eqn:E.
        eexists. split; [reflexivity|].
        cbn [rs_model rs_dsl_dict rs_validation_errors rs_attempt].
        rewrite E. cbn [fst]. unfold MAX_REPAIR_ATTEMPTS in *.
        split_and!; [done | | lia | lia].
        intros ->. by eapply validate_dsl_None.
    + eexists. split; [reflexivity|].
      cbn [rs_model rs_dsl_dict rs_validation_errors rs_attempt].
      rewrite Emodel. unfold MAX_REPAIR_ATTEMPTS in *.
      split_and!; [done | by apply He | lia | lia].
  - done.
  - by exists st.
Qed.

(** X30: [text_to_dsl] always returns, and what it returns is either a
    dump of a model that validates, with no error, or a value that does not
    validate, with at least one error. *)
Theorem text_to_dsl_contract text profile detail_level use_llm :
  exists dsl_dict errors,
    text_to_dsl' text profile detail_level use_llm = Ok (dsl_dict, errors)
    /\ ((errors = []
         /\ exists m, dsl_dict = model_dump m
                      /\ Schema.validate_dsl dsl_dict = (Some m, []))
        \/ (errors <> [] /\ (Schema.validate_dsl dsl_dict).1 = None)).
Proof.
  set (try_llm :=
         match use_llm with Some b => b | None => truthy OPENAI_API_KEY end).
  set (raw_json_str :=
         _call_llm_for_dsl text profile detail_level get_json_schema).
  assert (Hstub :
            try_llm = false
            \/ truthy raw_json_str = false
            \/ (exists e, json_loads (default "" raw_json_str) = inl e)
            \/ json_loads (default "" raw_json_str) = inr Schema.JNull ->
            exists dsl_dict errors,
              text_to_dsl' text profile detail_level use_llm
              = Ok (dsl_dict, errors)
              /\ ((errors = []
                   /\ exists m, dsl_dict = model_dump m
                                /\ Schema.validate_dsl dsl_dict = (Some m, []))
                  \/ (errors <> []
                      /\ (Schema.validate_dsl dsl_dict).1 = None))).
  { intros H.
    destruct (text_to_dsl_stub text profile detail_level use_llm H)
      as (d & Hd & ->).
    destruct (stub_validates text) as (d' & Hd' & Hv & Hm).
    assert (d' = d) as -> by congruence.
    exists (json_of_DSL d), []. split; [done|]. left. split; [done|].
    exists (model_of d). split; [|done]. unfold model_dump. by rewrite Hm. }
  destruct try_llm eqn:Etry; [|by apply Hstub; left].
  destruct (truthy raw_json_str) eqn:Eraw; [|by apply Hstub; right; left].
  destruct (json_loads (default "" raw_json_str)) as [e|v] eqn:Eloads;
    [by apply Hstub; right; right; left; exists e|].
  destruct (is_None v) eqn:Ev.
  { apply Hstub. right. right. right. by destruct v. }
  clear Hstub. unfold text_to_dsl. fold try_llm. fold raw_json_str.
  rewrite Etry, Eraw, Eloads, Ev. cbn [andb]. rewrite bind_ret, Ev.
  destruct (repair_loop true v) as (st & Hst & Hm & He).
  destruct (Schema.validate_dsl v) as [model errs] eqn:E.
  cbn [fst snd] in Hst. rewrite Hst, bind_ret.
  destruct (rs_model st) as [m|] eqn:Em.
  - exists (model_dump m), []. split; [done|]. left. split; [done|].
    exists m. split; [done|]. by eapply validate_dsl_Some.
  - exists (rs_dsl_dict st), (rs_validation_errors st). split; [done|].
    right. split; [by apply He | done].
Qed.

End text_to_dsl_facts.

Lemma text_to_dsl_stub_only_witness :
  exists d,
    _stub_dsl_from_text sample_text = Ok d
    /\ text_to_dsl no_json (fun _ => "") Schema.JNull None no_answer no_repair
         sample_text "Generic Security Reference" "standard" (Some false)
       = Ok (json_of_DSL d, []).
Proof.
  apply (text_to_dsl_stub_only no_json (fun _ => "") Schema.JNull None
           no_answer no_repair sample_text "Generic Security Reference"
           "standard" (Some false)).
  by left.
Defined.

Lemma text_to_dsl_fallback_is_silent_witness :
  exists d,
    _stub_dsl_from_text sample_text = Ok d
    /\ text_to_dsl no_json (fun _ => "") Schema.JNull None no_answer no_repair
         sample_text "Generic Security Reference" "standard" (Some true)
       = Ok (json_of_DSL d, []).
Proof.
  apply (text_to_dsl_fallback_is_silent no_json (fun _ => "") Schema.JNull
           None no_answer no_repair sample_text "Generic Security Reference"
           "standard" (Some true)).
  - by left.
  - by left.
Defined.
